(** * Release and asset tooling: a shallow embedding of [publish.py] and
      [convert_to_vector.py], with the properties of their specification.

    Conventions of the embedding.

    - A Python [str] is a list of characters; a character is a code point
      below 256 (an [ascii]).  Text that the scripts write as literals is kept
      as it stands in the (UTF-8) source file.
    - Python integers are unbounded, hence [Z].  The interpreter is CPython
      3.11 or later in its default configuration: [int] and [str] refuse to
      convert, in base 10, a number of more than 4300 digits.
    - Calls into the standard library ([str.split], [int], [str], [re.search],
      [re.sub], [base64.b64encode]) are embedded as functions that follow the
      CPython implementation; the seams are named after the Python entry
      points.
    - Everything the publisher observes of its environment (files, child
      processes, the terminal) is a field of a [world]; everything it does to
      it is an [event] of a trace.  A file that exists can be read and
      written, the terminal takes every printed line, and no signal
      interrupts the run; changing to the directory of the script and
      allocating a console leave no trace.
    - Pillow is a parameter of the converter as far as pixels go: its pixel
      operations, the compressed pixel data of its PNG writer and the outcome
      of the one floating-point comparison that picks between two candidate
      sizes are the methods of a class; its size arithmetic and the head of
      the PNG file that it writes are embedded. *)

From Stdlib Require Import DecimalString DecimalZ DecimalPos DecimalFacts.
From Stdlib Require Import QArith Qround Qabs.
From Stdlib Require Import List Ascii String ZArith Lia Bool.
Import ListNotations.

Open Scope string_scope.
Open Scope list_scope.
Open Scope Z_scope.

(** ** Text *)

Module Text.

Definition str := list ascii.

Definition lit (s : string) : str := list_ascii_of_string s.

Definition code (c : ascii) : Z := Z.of_N (N_of_ascii c).

Definition dquote : ascii := "034"%char.
Definition squote : ascii := "'"%char.
Definition backslash : ascii := "\"%char.
Definition newline : ascii := "010"%char.
Definition dot : ascii := "."%char.

Definition between (lo hi : Z) (c : ascii) : bool :=
  (lo <=? code c) && (code c <=? hi).

(** [Py_UNICODE_ISSPACE], which is also what [\s] matches in a [str]
    pattern. *)
Definition is_space (c : ascii) : bool :=
  between 9 13 c || between 28 32 c || (code c =? 133) || (code c =? 160).

(** [Py_ISSPACE], the C-locale test used when scanning a number. *)
Definition c_isspace (c : ascii) : bool :=
  between 9 13 c || (code c =? 32).

Definition is_digit (c : ascii) : bool := between 48 57 c.
Definition is_octal (c : ascii) : bool := between 48 55 c.
Definition is_letter (c : ascii) : bool := between 65 90 c || between 97 122 c.

Definition digit_value (c : ascii) : Z := code c - 48.

Fixpoint drop_while (p : ascii -> bool) (s : str) : str :=
  match s with
  | c :: s' => if p c then drop_while p s' else s
  | [] => []
  end.

Definition mem (c : ascii) (cs : list ascii) : bool :=
  existsb (Ascii.eqb c) cs.

(** An f-string: the concatenation of its pieces. *)
Definition fmt (pieces : list str) : str := List.concat pieces.

End Text.
Import Text.
Coercion lit : string >-> str.

(** ** The string and integer primitives the publisher calls *)

Module Py.

(** [s.split(sep)] for a one-character separator: never empty, one more
    component than there are separators. *)
Fixpoint split (sep : ascii) (s : str) : list str :=
  match s with
  | [] => [[]]
  | c :: s' =>
      if Ascii.eqb c sep then [] :: split sep s'
      else match split sep s' with
           | h :: t => (c :: h) :: t
           | [] => [[c]]
           end
  end.

(** [sep.join(parts)]. *)
Fixpoint join (sep : str) (parts : list str) : str :=
  match parts with
  | [] => []
  | [p] => p
  | p :: rest => p ++ sep ++ join sep rest
  end.

(** [_PyUnicode_TransformDecimalAndSpaceToASCII]: the two white-space
    characters above 127 become blanks (there is no decimal digit between 128
    and 255). *)
Definition to_ascii_space (c : ascii) : ascii :=
  if (code c =? 133) || (code c =? 160) then " "%char else c.

Inductive scan_state := Start | AfterDigit | AfterUnderscore.

(** The digit loop of [PyLong_FromString] in base 10: digits, single
    underscores between digits, at least one digit. *)
Fixpoint scan_digits (st : scan_state) (acc : Z) (s : str) : option (Z * str) :=
  match s with
  | c :: s' =>
      if is_digit c then scan_digits AfterDigit (10 * acc + digit_value c) s'
      else if Ascii.eqb c "_" then
        match st with
        | AfterDigit => scan_digits AfterUnderscore acc s'
        | _ => None
        end
      else
        match st with
        | AfterDigit => Some (acc, s)
        | _ => None
        end
  | [] =>
      match st with
      | AfterDigit => Some (acc, [])
      | _ => None
      end
  end.

(** [sys.get_int_max_str_digits()]: the number of digits beyond which
    [int] and [str] refuse a conversion in base 10.  4300 is the default of
    CPython 3.11 and later. *)
Definition max_str_digits : nat := 4300.

(** [int(s)]: [None] stands for [ValueError].  The digits of the literal are
    counted as they stand, leading zeros included, and neither the sign nor
    the underscores nor the blanks count. *)
Definition int (s : str) : option Z :=
  let s := drop_while c_isspace (map to_ascii_space s) in
  let '(sign, s) :=
    match s with
    | c :: s' =>
        if Ascii.eqb c "+" then (1, s')
        else if Ascii.eqb c "-" then (-1, s')
        else (1, s)
    | [] => (1, s)
    end in
  match scan_digits Start 0 s with
  | Some (v, rest) =>
      match drop_while c_isspace rest with
      | [] =>
          if (max_str_digits <? List.length (filter is_digit s))%nat then None
          else Some (sign * v)
      | _ :: _ => None
      end
  | None => None
  end.

(** The decimal digits of [n], with a minus sign when [n] is negative: what
    [str(n)] returns when it returns. *)
Definition decimal (n : Z) : str :=
  lit (NilEmpty.string_of_int (Z.to_int n)).

(** The least number with more digits than the limit allows. *)
Definition limit : Z := 10 ^ Z.of_nat max_str_digits.

(** [str(n)], also what an f-string gives for an integer: [None] stands for
    [ValueError], which is raised when [n], without its sign, has more digits
    than the limit allows. *)
Definition str_of_int (n : Z) : option str :=
  if limit <=? Z.abs n then None else Some (decimal n).

End Py.

(** ** Regular expressions, as far as the publisher uses them *)

Module Re.

(** One character's worth of pattern. *)
Inductive cset :=
| Chr (c : ascii)                (* a literal character *)
| Space                          (* \s *)
| Dot                            (* . *)
| OneOf (cs : list ascii)        (* [...] *)
| NoneOf (cs : list ascii).      (* [^...] *)

Definition cset_mem (k : cset) (c : ascii) : bool :=
  match k with
  | Chr a => Ascii.eqb c a
  | Space => is_space c
  | Dot => negb (Ascii.eqb c newline)
  | OneOf cs => mem c cs
  | NoneOf cs => negb (mem c cs)
  end.

Inductive quant := One | Star | Plus.

Definition atom := (cset * quant)%type.

Inductive node :=
| Atom (a : atom)
| Group (inner : list atom).     (* ( ... ), the only capturing group *)

Definition regex := list node.

Definition chars (s : string) : list atom :=
  map (fun c => (Chr c, One)) (list_ascii_of_string s).

Definition atoms (l : list atom) : regex := map Atom l.

(** A match attempt reports how many characters it consumed and the span of
    the group, both counted from where the attempt started. *)
Record hit := Hit { hit_end : nat; hit_group : option (nat * nat) }.

Section Matcher.
Context {R : Type}.

(** A greedy run of [k]: as long as possible, then one character shorter at
    a time while the rest of the pattern fails. *)
Fixpoint greedy (k : cset) (s : str) (pos : nat)
    (cont : nat -> str -> option R) : option R :=
  match s with
  | c :: s' =>
      if cset_mem k c then
        match greedy k s' (S pos) cont with
        | Some r => Some r
        | None => cont pos s
        end
      else cont pos s
  | [] => cont pos []
  end.

Definition match_atom (a : atom) (s : str) (pos : nat)
    (cont : nat -> str -> option R) : option R :=
  match snd a with
  | Star => greedy (fst a) s pos cont
  | One =>
      match s with
      | c :: s' => if cset_mem (fst a) c then cont (S pos) s' else None
      | [] => None
      end
  | Plus =>
      match s with
      | c :: s' => if cset_mem (fst a) c then greedy (fst a) s' (S pos) cont else None
      | [] => None
      end
  end.

Fixpoint match_atoms (l : list atom) (s : str) (pos : nat)
    (cont : nat -> str -> option R) : option R :=
  match l with
  | [] => cont pos s
  | a :: l' => match_atom a s pos (fun p r => match_atoms l' r p cont)
  end.

Fixpoint match_nodes (re : regex) (s : str) (pos : nat) (g : option (nat * nat))
    (cont : nat -> option (nat * nat) -> str -> option R) : option R :=
  match re with
  | [] => cont pos g s
  | Atom a :: re' =>
      match_atom a s pos (fun p r => match_nodes re' r p g cont)
  | Group inner :: re' =>
      match_atoms inner s pos
        (fun p r => match_nodes re' r p (Some (pos, p)) cont)
  end.
End Matcher.

(** The pattern tried at the head of [s]. *)
Definition match_here (re : regex) (s : str) : option hit :=
  match_nodes re s 0%nat None (fun p g _ => Some (Hit p g)).

(** What [re.search] returns, cut out of the subject: the text before the
    match, the matched text, group 1 and the text after the match. *)
Record found := Found { before : str; matched : str; group1 : str; after : str }.

Definition slice (s : str) (span : option (nat * nat)) : str :=
  match span with
  | Some (b, e) => firstn (e - b) (skipn b s)
  | None => []
  end.

Definition cut (pre s : str) (h : hit) : found :=
  Found pre (firstn (hit_end h) s) (slice s (hit_group h)) (skipn (hit_end h) s).

(** Leftmost match: every start position from left to right. *)
Fixpoint search_from (re : regex) (pre s : str) : option found :=
  match match_here re s with
  | Some h => Some (cut pre s h)
  | None =>
      match s with
      | [] => None
      | c :: s' => search_from re (pre ++ [c]) s'
      end
  end.

Definition search (re : regex) (s : str) : option found := search_from re [] s.

(** *** Replacement templates *)

Inductive piece :=
| Literal (c : ascii)
| Whole.                          (* \g<0>, the whole match *)

Definition octal_value (ds : list ascii) : Z :=
  fold_left (fun acc d => 8 * acc + digit_value d) ds 0.

Definition chr (n : Z) : ascii := ascii_of_N (Z.to_N n).

(** The letters that a template turns into control characters. *)
Definition escape (c : ascii) : option ascii :=
  if Ascii.eqb c "a" then Some (chr 7)
  else if Ascii.eqb c "b" then Some (chr 8)
  else if Ascii.eqb c "f" then Some (chr 12)
  else if Ascii.eqb c "n" then Some (chr 10)
  else if Ascii.eqb c "r" then Some (chr 13)
  else if Ascii.eqb c "t" then Some (chr 9)
  else if Ascii.eqb c "v" then Some (chr 11)
  else if Ascii.eqb c backslash then Some backslash
  else None.

(** The name of a [\g<...>] reference: the characters up to the first [>]. *)
Fixpoint until_gt (s : str) : option (str * str) :=
  match s with
  | [] => None
  | c :: s' =>
      if Ascii.eqb c ">" then Some ([], s')
      else match until_gt s' with
           | Some (name, rest) => Some (c :: name, rest)
           | None => None
           end
  end.

(** In a pattern without groups the only reference that resolves is group 0,
    spelled with decimal digits.  (This is Python 3.12; up to 3.11 the other
    spellings of zero that [int] reads are accepted with a deprecation
    warning.) *)
Definition names_group0 (name : str) : bool :=
  negb (Nat.eqb (List.length name) 0) && forallb (Ascii.eqb "0"%char) name.

(** One token of a replacement template, as [re._parser.parse_template]
    reads it for a pattern that has no capturing group: the pieces it stands
    for and the rest of the template.  [None] stands for the error that the
    parser raises. *)
Definition template_token (s : str) : option (list piece * str) :=
  match s with
  | [] => None
  | c :: s1 =>
      if negb (Ascii.eqb c backslash) then Some ([Literal c], s1)
      else
        match s1 with
        | [] => None                                    (* bad escape (end of pattern) *)
        | e :: s2 =>
            if Ascii.eqb e "g" then
              match s2 with
              | lt :: s3 =>
                  if Ascii.eqb lt "<" then
                    match until_gt s3 with
                    | Some (name, rest) =>
                        if names_group0 name then Some ([Whole], rest)
                        else None                       (* unknown or bad group *)
                    | None => None                      (* missing > *)
                    end
                  else None                             (* missing < *)
              | [] => None
              end
            else if Ascii.eqb e "0" then
              match s2 with
              | o1 :: s3 =>
                  if is_octal o1 then
                    match s3 with
                    | o2 :: s4 =>
                        if is_octal o2
                        then Some ([Literal (chr (octal_value [o1; o2]))], s4)
                        else Some ([Literal (chr (octal_value [o1]))], s3)
                    | [] => Some ([Literal (chr (octal_value [o1]))], s3)
                    end
                  else Some ([Literal (chr 0)], s2)
              | [] => Some ([Literal (chr 0)], s2)
              end
            else if is_digit e then
              match s2 with
              | o1 :: o2 :: s4 =>
                  if is_octal e && is_octal o1 && is_octal o2 then
                    if octal_value [e; o1; o2] <=? 255
                    then Some ([Literal (chr (octal_value [e; o1; o2]))], s4)
                    else None                           (* octal escape out of range *)
                  else None                             (* invalid group reference *)
              | _ => None                               (* invalid group reference *)
              end
            else
              match escape e with
              | Some x => Some ([Literal x], s2)
              | None =>
                  if is_letter e then None              (* bad escape *)
                  else Some ([Literal backslash; Literal e], s2)
              end
        end
  end.

(** The whole template, token after token.  [fuel] bounds the number of
    tokens; the length of the template is enough. *)
Fixpoint parse_template (fuel : nat) (s : str) : option (list piece) :=
  match s with
  | [] => Some []
  | _ :: _ =>
      match fuel with
      | O => None
      | S fuel =>
          match template_token s with
          | Some (p, rest) => option_map (app p) (parse_template fuel rest)
          | None => None
          end
      end
  end.

Definition template (repl : str) : option (list piece) :=
  parse_template (List.length repl) repl.

Definition expand (t : list piece) (whole : str) : str :=
  flat_map (fun p => match p with Literal c => [c] | Whole => whole end) t.

(** *** Substitution *)

(** [skip] counts the characters of the subject that belong to a match
    already replaced.  The patterns of the publisher start with a literal, so
    a match is never empty. *)
Fixpoint sub_loop (re : regex) (t : list piece) (s : str) (skip : nat) : str :=
  match s with
  | [] => []
  | c :: s' =>
      match skip with
      | S k => sub_loop re t s' k
      | O =>
          match match_here re s with
          | Some h =>
              match hit_end h with
              | O => c :: sub_loop re t s' 0
              | S k => expand t (firstn (S k) s) ++ sub_loop re t s' k
              end
          | None => c :: sub_loop re t s' 0
          end
      end
  end.

(** [re.sub(pattern, repl, s)]: every non-overlapping match, left to right;
    [None] when the template does not compile. *)
Definition sub (re : regex) (repl : str) (s : str) : option str :=
  match template repl with
  | Some t => Some (sub_loop re t s 0)
  | None => None
  end.

End Re.

(** ** The publisher, [publish.py] *)

Module Publish.
Import Re.

Definition quotes : list ascii := [dquote; squote].

(** The pattern of [re.search], [version\s*=\s*[Q]([^Q]+)[Q]], where [Q]
    stands for the two quote characters of the source. *)
Definition version_search : regex :=
  atoms (chars "version")
  ++ [Atom (Space, Star); Atom (Chr "=", One); Atom (Space, Star);
      Atom (OneOf quotes, One); Group [(NoneOf quotes, Plus)]; Atom (OneOf quotes, One)].

(** The pattern of [re.sub], [version\s*=\s*[Q][^Q]+[Q]]. *)
Definition version_assign : regex :=
  atoms (chars "version")
  ++ [Atom (Space, Star); Atom (Chr "=", One); Atom (Space, Star);
      Atom (OneOf quotes, One); Atom (NoneOf quotes, Plus); Atom (OneOf quotes, One)].

(** An assignment as the pattern accepts it: any white space around the
    equals sign, either quote on either side. *)
Definition assignment_text (ws1 ws2 : str) (q1 : ascii) (v : str) (q2 : ascii) : str :=
  lit "version" ++ ws1 ++ "="%char :: ws2 ++ q1 :: v ++ [q2].

(** [apiToken\s*=\s*(.+)]. *)
Definition api_token : regex :=
  atoms (chars "apiToken")
  ++ [Atom (Space, Star); Atom (Chr "=", One); Atom (Space, Star); Group [(Dot, Plus)]].

(** [s.strip()]. *)
Definition strip (s : str) : str :=
  rev (drop_while is_space (rev (drop_while is_space s))).

(** *** Incrementing the version (lines 58 to 66) *)

Inductive bump :=
| Invalid                         (* len(parts) != 3 *)
| NotAnInteger (patch : str)      (* int(patch) raises ValueError *)
| OverTheLimit (new_patch : Z)    (* the f-string of line 66 raises ValueError *)
| Bumped (new_version : str).

Definition increment (current_version : str) : bump :=
  match Py.split dot current_version with
  | [major; minor; patch] =>
      match Py.int patch with
      | Some n =>
          match Py.str_of_int (n + 1) with
          | Some new_patch => Bumped (fmt [major; [dot]; minor; [dot]; new_patch])
          | None => OverTheLimit (n + 1)
          end
      | None => NotAnInteger patch
      end
  | _ => Invalid
  end.

(** The replacement handed to [re.sub] (line 73). *)
Definition assignment (new_version : str) : str :=
  fmt [lit "version = "; [dquote]; new_version; [dquote]].

(** *** The environment and the trace *)

(** What [subprocess.run] reports: the child's exit status and its captured
    error stream, or that the program could not be started at all. *)
Inductive completed :=
| Completed (returncode : Z) (stderr : str)
| CannotStart.

Record world := World {
  os_name_nt : bool;                     (* os.name == 'nt' *)
  sys_executable : str;
  pyproject_toml : option str;           (* None: the file does not exist *)
  dot_env : option str;
  dir_exists : str -> bool;              (* Path(folder).exists() *)
  run : list str -> completed;           (* the outcome of a child process *)
  stdin_open : bool                      (* false: input() raises EOFError *)
}.

(** The exceptions that can reach the handler of [main]. *)
Inductive exn :=
| IntValueError (literal : str)          (* int(literal) *)
| StrValueError (n : Z)                  (* str(n) beyond the limit on digits *)
| TemplateError (repl : str)             (* re.sub could not compile repl *)
| SpawnError (argv : list str)           (* subprocess.run could not start argv *)
| EOFError.                              (* input() at the end of the input *)

(** A piece of a printed line: text, or an exception rendered by the
    interpreter. *)
Inductive frag :=
| Txt (s : str)
| StrOf (e : exn)                        (* {e} *)
| TypeOf (e : exn).                      (* {type(e).__name__} *)

Inductive event :=
| Print (line : list frag)
| Input (prompt : str)
| Write (path : str) (content : str)
| Spawn (argv : list str)
| Sleep (seconds : Z).

(** *** Control: a trace, an early [return], an exception *)

Inductive res (A : Type) :=
| Val (a : A)
| Returned
| Raised (e : exn).
Arguments Val {A} a.
Arguments Returned {A}.
Arguments Raised {A} e.

Definition M (A : Type) := list event -> res A * list event.

Definition ret {A} (a : A) : M A := fun t => (Val a, t).

Definition bind {A B} (m : M A) (k : A -> M B) : M B :=
  fun t =>
    match m t with
    | (Val a, t') => k a t'
    | (Returned, t') => (Returned, t')
    | (Raised e, t') => (Raised e, t')
    end.

Notation "x <- m ;; k" := (bind m (fun x => k))
  (at level 61, m at next level, right associativity).
Notation "m ;; k" := (bind m (fun _ => k))
  (at level 61, right associativity).

Definition emit (e : event) : M unit := fun t => (Val tt, t ++ [e]).
Definition raise {A} (e : exn) : M A := fun t => (Raised e, t).
Definition return_ {A} : M A := fun t => (Returned, t).

Definition print (line : list frag) : M unit := emit (Print line).
Definition say (s : str) : M unit := print [Txt s].

Definition input (w : world) (prompt : str) : M unit :=
  emit (Input prompt) ;;
  if stdin_open w then ret tt else raise EOFError.

Definition subprocess_run (w : world) (argv : list str) : M (Z * str) :=
  emit (Spawn argv) ;;
  match run w argv with
  | Completed returncode stderr => ret (returncode, stderr)
  | CannotStart => raise (SpawnError argv)
  end.

Definition re_sub (re : regex) (repl s : str) : M str :=
  match Re.sub re repl s with
  | Some r => ret r
  | None => raise (TemplateError repl)
  end.

Fixpoint for_each {A} (l : list A) (f : A -> M unit) : M unit :=
  match l with
  | [] => ret tt
  | a :: l' => f a ;; for_each l' f
  end.

(** *** [main] *)

Definition rule : str := repeat "="%char 50.

Definition manifest : str := lit "pyproject.toml".

Definition build_argv (w : world) : list str :=
  [sys_executable w; lit "-m"; lit "build"].

Definition upload_argv (pypi_token : str) : list str :=
  [lit "twine"; lit "upload"; lit "dist/*";
   lit "--username"; lit "__token__"; lit "--password"; pypi_token].

Definition remove_argv (w : world) (folder : str) : list str :=
  if os_name_nt w then [lit "rmdir"; lit "/s"; lit "/q"; folder]
  else [lit "rm"; lit "-rf"; folder].

Definition pip_argv (w : world) : list str :=
  [sys_executable w; lit "-m"; lit "pip"; lit "install"; lit "--upgrade"; lit "airobo"].

(** Lines 80 to 146: what [main] does once the manifest is rewritten. *)
Definition release (w : world) (new_version : str) : M unit :=
  say "✅ Version updated in pyproject.toml" ;;
  say "🧹 Cleaning old builds..." ;;
  for_each [lit "dist"; lit "build"; lit "airobo.egg-info"]
    (fun folder =>
       if dir_exists w folder
       then _ <- subprocess_run w (remove_argv w folder) ;; ret tt
       else ret tt) ;;
  say "🔨 Building package..." ;;
  result <- subprocess_run w (build_argv w) ;;
  if negb (fst result =? 0) then
    print [Txt "❌ Build failed: "; Txt (snd result)] ;;
    input w "Press Enter to exit..." ;;
    return_
  else
  say "✅ Package built successfully!" ;;
  match dot_env w with
  | None =>
      say "❌ Error: .env file not found!" ;;
      input w "Press Enter to exit..." ;;
      return_
  | Some env_content =>
  match search api_token env_content with
  | None =>
      say "❌ Error: Could not find apiToken in .env!" ;;
      input w "Press Enter to exit..." ;;
      return_
  | Some token_match =>
  let pypi_token := strip (group1 token_match) in
  say "📤 Uploading to PyPI..." ;;
  result <- subprocess_run w (upload_argv pypi_token) ;;
  if negb (fst result =? 0) then
    print [Txt "❌ Upload failed: "; Txt (snd result)] ;;
    input w "Press Enter to exit..." ;;
    return_
  else
  print [Txt "✅ Successfully published version "; Txt new_version; Txt "!"] ;;
  print [Txt "🌐 View at: https://pypi.org/project/airobo/"; Txt new_version; Txt "/"] ;;
  say "🔄 Updating local installation..." ;;
  _ <- subprocess_run w (pip_argv w) ;;
  print [] ;;
  say rule ;;
  print [Txt "   🎉 SUCCESS! Version "; Txt new_version; Txt " published!"] ;;
  say rule ;;
  print [] ;;
  say "Users can now install with:" ;;
  say "  pip install --upgrade airobo" ;;
  print []
  end end.

(** The body of the [try] statement: lines 35 to 78, then [release]. *)
Definition body (w : world) : M unit :=
  match pyproject_toml w with
  | None =>
      say "❌ Error: pyproject.toml not found!" ;;
      input w "Press Enter to exit..." ;;
      return_
  | Some content =>
  match search version_search content with
  | None =>
      say "❌ Error: Could not find version in pyproject.toml!" ;;
      input w "Press Enter to exit..." ;;
      return_
  | Some version_match =>
  let current_version := group1 version_match in
  match increment current_version with
  | Invalid =>
      print [Txt "❌ Error: Invalid version format: "; Txt current_version] ;;
      input w "Press Enter to exit..." ;;
      return_
  | NotAnInteger patch => raise (IntValueError patch)
  | OverTheLimit new_patch => raise (StrValueError new_patch)
  | Bumped new_version =>
  print [Txt "📝 Auto-incrementing version: "; Txt current_version;
         Txt " → "; Txt new_version] ;;
  new_content <- re_sub version_assign (assignment new_version) content ;;
  emit (Write manifest new_content) ;;
  release w new_version
  end end end.

(** Lines 152 to 161: the closing banner and the prompt that keeps the
    terminal open. *)
Definition closing (w : world) (t : list event) : list event :=
  let t := t ++ [Print [Txt (newline :: rule)];
                 Print [Txt "Script finished! Terminal will stay open..."];
                 Print [Txt rule];
                 Input (newline :: lit "Press Enter to close this window...")] in
  if stdin_open w then t
  else t ++ [Print [Txt (newline :: lit "Forcing terminal to stay open for 10 seconds...")];
             Sleep 10].

(** Lines 29 to 32. *)
Definition banner : list event :=
  [Print [Txt rule];
   Print [Txt "      AIROBO PyPI Publishing Script"];
   Print [Txt rule];
   Print []].

(** Lines 148 to 150: the handler of the [try] statement. *)
Definition handler (e : exn) : list event :=
  [Print [Txt "❌ Unexpected error: "; StrOf e];
   Print [Txt "Error details: "; TypeOf e]].

(** The whole of [main]: an early [return] leaves at once, an exception is
    reported by the handler, and only then the closing part runs. *)
Definition main (w : world) : list event :=
  match body w banner with
  | (Returned, t) => t
  | (Val _, t) => closing w t
  | (Raised e, t) => closing w (t ++ handler e)
  end.

(** *** Observations of a run *)

Definition writes (t : list event) : list str :=
  flat_map (fun e => match e with Write _ c => [c] | _ => [] end) t.

Definition spawned (t : list event) : list (list str) :=
  flat_map (fun e => match e with Spawn argv => [argv] | _ => [] end) t.

(** The child process is the upload tool: the command line of line 121,
    whatever the token. *)
Definition is_upload (argv : list str) : bool :=
  match argv with
  | [_; _; _; _; _; _; pypi_token] =>
      if list_eq_dec (list_eq_dec ascii_dec) argv (upload_argv pypi_token)
      then true else false
  | _ => false
  end.

Definition upload_invoked (t : list event) : bool := existsb is_upload (spawned t).

(** The command lines that precede the upload. *)
Definition before_upload (w : world) (argv : list str) : Prop :=
  argv = build_argv w \/ exists folder, argv = remove_argv w folder.

(** The manifest on disk once the run is over: what was written last, or
    what was there before. *)
Definition manifest_after (w : world) (t : list event) : option str :=
  match rev (writes t) with
  | c :: _ => Some c
  | [] => pyproject_toml w
  end.

End Publish.

(** ** Base64, as [base64.b64encode] produces it *)

Module Base64.

Definition byte := Byte.byte.

Definition value (b : byte) : Z := Z.of_N (Byte.to_N b).

Definition byte_of (n : Z) : byte :=
  match Byte.of_N (Z.to_N n) with
  | Some b => b
  | None => Byte.x00
  end.

Definition alphabet : str :=
  lit "ABCDEFGHIJKLMNOPQRSTUVWXYZabcdefghijklmnopqrstuvwxyz0123456789+/".

Definition pad : ascii := "="%char.

Definition digit (n : Z) : ascii := nth (Z.to_nat n) alphabet pad.

(** Three bytes make four digits of six bits each; one or two bytes left
    over are padded with [=]. *)
Fixpoint b64encode (data : list byte) : str :=
  match data with
  | [] => []
  | [a] =>
      let n := value a in
      [digit (n / 4); digit (n mod 4 * 16); pad; pad]
  | [a; b] =>
      let n := value a * 256 + value b in
      [digit (n / 1024); digit (n / 16 mod 64); digit (n mod 16 * 4); pad]
  | a :: b :: c :: rest =>
      let n := value a * 65536 + value b * 256 + value c in
      digit (n / 262144) :: digit (n / 4096 mod 64)
      :: digit (n / 64 mod 64) :: digit (n mod 64) :: b64encode rest
  end.

Fixpoint index_in (c : ascii) (l : list ascii) (i : Z) : option Z :=
  match l with
  | [] => None
  | x :: l' => if Ascii.eqb c x then Some i else index_in c l' (i + 1)
  end.

Definition digit_index (c : ascii) : option Z := index_in c alphabet 0.

(** The reader's side: four digits at a time, padding only in the last
    group. *)
Fixpoint b64decode (s : str) : option (list byte) :=
  match s with
  | [] => Some []
  | c1 :: c2 :: c3 :: c4 :: rest =>
      match digit_index c1, digit_index c2 with
      | Some v1, Some v2 =>
          if Ascii.eqb c4 pad then
            match rest with
            | [] =>
                if Ascii.eqb c3 pad then Some [byte_of (v1 * 4 + v2 / 16)]
                else
                  match digit_index c3 with
                  | Some v3 =>
                      let n := v1 * 1024 + v2 * 16 + v3 / 4 in
                      Some [byte_of (n / 256); byte_of (n mod 256)]
                  | None => None
                  end
            | _ :: _ => None
            end
          else
            match digit_index c3, digit_index c4, b64decode rest with
            | Some v3, Some v4, Some bytes =>
                let n := v1 * 262144 + v2 * 4096 + v3 * 64 + v4 in
                Some (byte_of (n / 65536) :: byte_of (n / 256 mod 256)
                      :: byte_of (n mod 256) :: bytes)
            | _, _, _ => None
            end
      | _, _ => None
      end
  | _ => None
  end.

End Base64.

(** ** The head of a PNG file, as Pillow's [PngImagePlugin] writes and reads it *)

Module Png.
Import Base64.

(** [o32]: four bytes, the most significant first. *)
Definition be32 (n : Z) : list byte :=
  map byte_of [n / 16777216 mod 256; n / 65536 mod 256; n / 256 mod 256; n mod 256].

(** [i32]. *)
Definition be_value (bytes : list byte) : Z :=
  fold_left (fun acc b => acc * 256 + value b) bytes 0.

(** [zlib.crc32], bit by bit: the check sum that closes a chunk. *)
Definition crc_bit (c : Z) : Z :=
  if Z.testbit c 0 then Z.lxor (Z.shiftr c 1) 3988292384 else Z.shiftr c 1.

Definition crc_byte (c : Z) (b : byte) : Z :=
  Nat.iter 8 crc_bit (Z.lxor c (value b)).

Definition crc32 (data : list byte) : Z :=
  Z.lxor (fold_left crc_byte data 4294967295) 4294967295.

(** The signature of a PNG file and the name of its first chunk. *)
Definition magic : list Z := [137; 80; 78; 71; 13; 10; 26; 10].
Definition ihdr : list Z := [73; 72; 68; 82].

(** [putchunk]: the length of the data, the name, the data, and the check
    sum of name and data. *)
Definition chunk (cid data : list byte) : list byte :=
  be32 (Z.of_nat (List.length data)) ++ cid ++ data ++ be32 (crc32 (cid ++ data)).

(** What [_save] writes first for an image in mode RGBA: the signature, then
    the IHDR chunk with the width, the height, the bit depth 8, the colour
    type 6 and three zero bytes. *)
Definition head (size : Z * Z) : list byte :=
  map byte_of magic
  ++ chunk (map byte_of ihdr)
       (be32 (fst size) ++ be32 (snd size) ++ map byte_of [8; 6; 0; 0; 0]).

(** The size that a reader of the file reports: the signature must be there,
    the first chunk must be IHDR with thirteen bytes of data and the right
    check sum, and the first eight of these bytes are the width and the
    height.  [None] stands for the error that Pillow raises otherwise. *)
Definition bytes_are (bytes : list byte) (values : list Z) : bool :=
  if list_eq_dec Z.eq_dec (map value bytes) values then true else false.

Definition read_size (file : list byte) : option (Z * Z) :=
  let chunk := skipn 8 file in
  let data := firstn 13 (skipn 8 chunk) in
  if bytes_are (firstn 8 file) magic
     && (be_value (firstn 4 chunk) =? 13)
     && bytes_are (firstn 4 (skipn 4 chunk)) ihdr
     && (List.length data =? 13)%nat
     && bytes_are (firstn 4 (skipn 21 chunk))
          (map value (be32 (crc32 (firstn 17 (skipn 4 chunk)))))
  then Some (be_value (firstn 4 data), be_value (firstn 4 (skipn 4 data)))
  else None.

End Png.

(** ** The asset converter, [convert_to_vector.py] *)

Module Convert.
Import Base64.

(** An image as Pillow holds it: mode, size (width, height) and the pixels.
    The pixels are opaque here. *)
Record image (raster : Type) := Image {
  mode : str;
  size : Z * Z;
  pixels : raster
}.
Arguments Image {raster} mode size pixels.
Arguments mode {raster} i.
Arguments size {raster} i.
Arguments pixels {raster} i.

(** What the converter takes from Pillow as it is.

    [lower_wins] is the outcome of [min(floor, ceil, key=key)] in
    [round_aspect] of [Image.thumbnail], for the box handed to [thumbnail]
    and the size of the image: whether the lower of the two candidates is
    chosen.  Pillow computes the two keys, the distances of the resulting
    aspect ratios from the one of the image, in binary floating point, and
    two keys that are equal or nearly equal as exact numbers can come out in
    either order (for an image of 1408 by 15 the candidates 5 and 6 are at
    the same exact distance).  Nothing is assumed about the outcome.

    [png_chunks] is what [_save] writes after the IHDR chunk, up to the end
    of the file: the pixel rows, compressed, in IDAT chunks, and IEND. *)
Class Pillow (raster : Type) := {
  convert_pixels : str -> str -> raster -> raster;        (* from mode, to mode *)
  lanczos : Z * Z -> Z * Z -> raster -> raster;           (* from size, to size *)
  lower_wins : Z * Z -> Z * Z -> bool;                    (* box, size of the image *)
  png_chunks : image raster -> list byte                  (* optimize, level 9 *)
}.

Section Pillow.
Context {raster : Type} `{Pillow raster}.

(** [img.convert(to)]. *)
Definition convert (img : image raster) (to : str) : image raster :=
  Image to (size img) (convert_pixels (mode img) to (pixels img)).

(** [round_aspect] of [Image.thumbnail]: one of the two integers around
    [number], and never less than 1. *)
Definition round_aspect (number : Q) (lower : bool) : Z :=
  let lo := Qfloor number in
  let hi := Qceiling number in
  Z.max (if lower then lo else hi) 1.

(** [preserve_aspect_ratio] of [Image.thumbnail]: [None] when the image
    already fits.  Pillow computes the quotients in binary floating point,
    the model computes them exactly.  For the box of 512 by 512 that the
    converter hands over and sides below two to the power of 32 the rounding
    of the quotients does not show: the comparison with the aspect ratio of
    the box comes out as on exact numbers; when the exact quotient is a whole
    number Pillow arrives at that number; and otherwise its two candidates
    are the two integers around the exact quotient. *)
Definition preserve_aspect_ratio (provided sz : Z * Z) : option (Z * Z) :=
  let '(x, y) := provided in
  let '(width, height) := sz in
  if (x >=? width) && (y >=? height) then None
  else
    let aspect := (inject_Z width / inject_Z height)%Q in
    if Qle_bool aspect (inject_Z x / inject_Z y)%Q then
      Some (round_aspect (inject_Z y * aspect)%Q (lower_wins provided sz), y)
    else
      Some (x, round_aspect (inject_Z x / aspect)%Q (lower_wins provided sz)).

(** [img.thumbnail(provided, LANCZOS)]. *)
Definition thumbnail (img : image raster) (provided : Z * Z) : image raster :=
  match preserve_aspect_ratio provided (size img) with
  | None => img
  | Some sz =>
      if (fst sz =? fst (size img)) && (snd sz =? snd (size img)) then img
      else Image (mode img) sz (lanczos (size img) sz (pixels img))
  end.

Definition max_size : Z := 512.

(** Lines 19 to 29: the image that is embedded. *)
Definition prepare (img : image raster) (optimize_for : str) : image raster :=
  let img :=
    if list_eq_dec ascii_dec (mode img) (lit "RGBA") then img
    else convert img (lit "RGBA") in
  if list_eq_dec ascii_dec optimize_for (lit "icon") then
    if Z.max (fst (size img)) (snd (size img)) >? max_size
    then thumbnail img (max_size, max_size)
    else img
  else img.

(** The values the f-string of line 44 interpolates. *)
Record svg := Svg {
  width : Z;
  height : Z;
  category : str;                      (* optimize_for *)
  source_name : str;                   (* png_path.name *)
  png_base64 : str
}.

(** [img.save(png_buffer, format='PNG', ...)] and [getvalue()], for an image
    in mode RGBA, which is the mode at line 34. *)
Definition save_png (img : image raster) : list byte :=
  Png.head (size img) ++ png_chunks img.

(** [png_to_svg], up to the text that is written. *)
Definition png_to_svg (img : image raster) (name optimize_for : str) : svg :=
  let img := prepare img optimize_for in
  let png_data := save_png img in
  Svg (fst (size img)) (snd (size img)) optimize_for name (b64encode png_data).

End Pillow.

(** [s.title()] for a text of ASCII characters, which the categories that
    the script passes are: a letter after a letter is lowered, any other
    letter is raised.  Letters beyond ASCII are left as they are here; Python
    would change their case as well. *)
Fixpoint title_from (after_letter : bool) (s : str) : str :=
  match s with
  | [] => []
  | c :: s' =>
      let upper := between 65 90 c in
      let lower := between 97 122 c in
      let c' :=
        if after_letter then (if upper then Re.chr (code c + 32) else c)
        else (if lower then Re.chr (code c - 32) else c) in
      c' :: title_from (upper || lower) s'
  end.

Definition title (s : str) : str := title_from false s.

Definition attr (name : string) (v : str) : str :=
  fmt [lit name; lit "="; [dquote]; v; [dquote]].

(** The document of line 44, character for character.  The sides of an
    image are machine integers in Pillow, of ten digits at most, so that the
    limit on the digits of [str] is never met here. *)
Definition svg_content (d : svg) : str :=
  let w := Py.decimal (width d) in
  let h := Py.decimal (height d) in
  fmt [lit "<?xml "; attr "version" (lit "1.0"); lit " ";
       attr "encoding" (lit "UTF-8"); lit "?>"; [newline];
       lit "<svg "; attr "width" w; lit " "; attr "height" h; lit " ";
       attr "viewBox" (fmt [lit "0 0 "; w; lit " "; h]); lit " "; [newline];
       lit "     "; attr "xmlns" (lit "http://www.w3.org/2000/svg"); lit " ";
       attr "xmlns:xlink" (lit "http://www.w3.org/1999/xlink"); lit ">"; [newline];
       lit "  <title>AI & Robotics Academy - "; title (category d);
       lit "</title>"; [newline];
       lit "  <desc>Vector version of "; source_name d;
       lit " for perfect scaling</desc>"; [newline];
       lit "  "; [newline];
       lit "  <!-- Embedded high-quality PNG data -->"; [newline];
       lit "  <image "; attr "x" (lit "0"); lit " "; attr "y" (lit "0"); lit " ";
       attr "width" w; lit " "; attr "height" h; lit " "; [newline];
       lit "         ";
       attr "xlink:href" (fmt [lit "data:image/png;base64,"; png_base64 d]);
       lit " />"; [newline];
       lit "</svg>"].

(** Lines 67 to 93 of [main], as far as files go: the two conversions, each
    carried out when its source exists.  [files] gives the decoded image of a
    file name; the result lists the files written, in order.  The progress
    lines of [main] are left out. *)
Definition conversions : list (str * str * str) :=
  [(lit "appIcon.png", lit "appIcon.svg", lit "icon");
   (lit "splash.png", lit "splash.svg", lit "splash")].

Definition main {raster : Type} `{Pillow raster}
    (files : str -> option (image raster)) : list (str * str) :=
  flat_map
    (fun '(png_name, svg_name, optimize_type) =>
       match files png_name with
       | Some img => [(svg_name, svg_content (png_to_svg img png_name optimize_type))]
       | None => []
       end)
    conversions.

End Convert.

(** ** The vocabulary of the version check *)

Module Claimed.
Import Publish.

(** A non-empty run of decimal digits. *)
Definition all_digits (s : str) : bool :=
  negb (Nat.eqb (List.length s) 0) && forallb is_digit s.

(** The shape that the specification calls three-component numeric:
    three components separated by dots, each of them a number. *)
Definition numeric_shape (v : str) : bool :=
  match Py.split dot v with
  | [major; minor; patch] => all_digits major && all_digits minor && all_digits patch
  | _ => false
  end.

(** The version the run extracts from its manifest, if any. *)
Definition extracted (w : world) : option str :=
  match pyproject_toml w with
  | Some content => option_map Re.group1 (Re.search version_search content)
  | None => None
  end.

(** The run stops at the version: nothing written, nothing started. *)
Definition halts_at_version (t : list event) : Prop :=
  writes t = [] /\ spawned t = [].

(** The versions that lines 58 to 65 refuse. *)
Definition refused (v : str) : Prop :=
  List.length (Py.split dot v) <> 3%nat
  \/ exists major minor patch,
       Py.split dot v = [major; minor; patch] /\ Py.int patch = None.

(** The lines of the secrets file that the credential pattern matches, each
    line looked at on its own. *)
Definition token_lines (env : str) : list str :=
  filter (fun line => match Re.search api_token line with
                      | Some _ => true
                      | None => false
                      end)
         (Py.split newline env).

(** The document opens with the XML declaration and the root element [svg],
    whose first attributes declare the width [w], the height [h] and the view
    box of that size. *)
Definition root_declares (text : str) (w h : Z) : Prop :=
  exists rest,
    text = lit "<?xml version=" ++ dquote :: lit "1.0" ++ dquote
           :: lit " encoding=" ++ dquote :: lit "UTF-8" ++ dquote :: lit "?>"
           ++ newline
           :: lit "<svg width=" ++ dquote :: Py.decimal w ++ dquote
           :: lit " height=" ++ dquote :: Py.decimal h ++ dquote
           :: lit " viewBox=" ++ dquote
           :: lit "0 0 " ++ Py.decimal w ++ lit " " ++ Py.decimal h ++ dquote
           :: rest.

(** The document closes with an element whose reference is a data URI of type
    PNG with the base64 text [payload], which runs up to the closing quote of
    the attribute. *)
Definition embeds (text payload : str) : Prop :=
  ~ In dquote payload
  /\ exists head,
       text = head ++ lit "xlink:href=" ++ dquote
              :: lit "data:image/png;base64," ++ payload ++ dquote
              :: lit " />" ++ newline :: lit "</svg>".

End Claimed.

(** ** Scenarios *)

Module Scenario.
Import Publish.

(** A manifest with one version assignment. *)
Definition project (v : str) : str :=
  fmt [lit "[project]"; [newline];
       lit "name = "; [dquote]; lit "airobo"; [dquote]; [newline];
       lit "version = "; [dquote]; v; [dquote]; [newline]].

(** What [re.search] finds in it. *)
Definition project_match (v : str) : Re.found :=
  Re.Found
    (fmt [lit "[project]"; [newline];
          lit "name = "; [dquote]; lit "airobo"; [dquote]; [newline]])
    (fmt [lit "version = "; [dquote]; v; [dquote]])
    v
    [newline].

Definition python : str := lit "/usr/bin/python3".

Definition same (a b : list str) : bool :=
  if list_eq_dec (list_eq_dec ascii_dec) a b then true else false.

(** A Unix machine with an open terminal and a [dist] directory left over,
    where the build exits with [build_rc] and the upload with [upload_rc]. *)
Definition desk (manifest env : option str) (build_rc upload_rc : Z) : world :=
  {| os_name_nt := false;
     sys_executable := python;
     pyproject_toml := manifest;
     dot_env := env;
     dir_exists := fun folder => same [folder] [lit "dist"];
     run := fun argv =>
              if same argv [python; lit "-m"; lit "build"]
              then Completed build_rc (lit "build: error")
              else if is_upload argv
              then Completed upload_rc (lit "twine: error")
              else Completed 0 [];
     stdin_open := true |}.

Definition secrets : str := fmt [lit "apiToken = pypi-0123"; [newline]].

(** The version has two components only. *)
Definition two_components : world :=
  desk (Some (project (lit "1.2"))) (Some secrets) 0 0.

(** The third component is not a number. *)
Definition patch_is_a_letter : world :=
  desk (Some (project (lit "1.2.x"))) (Some secrets) 0 0.

(** The first two components are not numbers; the build fails. *)
Definition letters : world :=
  desk (Some (project (lit "a.b.3"))) (Some secrets) 1 0.

Definition build_fails : world :=
  desk (Some (project (lit "1.2.3"))) (Some secrets) 1 0.

Definition no_token : world :=
  desk (Some (project (lit "1.2.3"))) (Some (lit "user = someone")) 0 0.

Definition upload_fails : world :=
  desk (Some (project (lit "1.2.3"))) (Some secrets) 0 1.

(** A manifest that also configures a type checker: a second assignment
    that the version pattern matches. *)
Definition with_mypy (v python_version : str) : str :=
  fmt [project v; [newline];
       lit "[tool.mypy]"; [newline];
       lit "python_version = "; [dquote]; python_version; [dquote]; [newline]].

Definition two_assignments : world :=
  desk (Some (with_mypy (lit "1.2.3") (lit "3.8"))) (Some secrets) 0 0.

(** An assignment with single quotes, a mismatched closing quote and blanks
    of its own. *)
Definition loose : str :=
  fmt [lit "[project]"; [newline];
       assignment_text (lit "  ") [] squote (lit "0.9.9") dquote; [newline]].

(** The secrets of somebody who has not filled in the token yet. *)
Definition blank_secrets : str :=
  fmt [lit "apiToken ="; [newline]; lit "user = bob"; [newline]].

Definition blank_token : world :=
  desk (Some (project (lit "1.2.3"))) (Some blank_secrets) 0 0.

(** A version whose third component is 4300 nines. *)
Definition nines : str := repeat "9"%char 4300.

Definition long_patch : world :=
  desk (Some (project (lit "1.2." ++ nines))) (Some secrets) 0 0.

Definition loose_project : world := desk (Some loose) (Some secrets) 0 0.

(** A stand-in for Pillow without pixels: nothing follows the first chunk of
    the file, and the lower candidate is always chosen. *)
Definition header_only : Convert.Pillow unit :=
  {| Convert.convert_pixels := fun _ _ r => r;
     Convert.lanczos := fun _ _ r => r;
     Convert.lower_wins := fun _ _ => true;
     Convert.png_chunks := fun _ => [] |}.

(** A photograph in three channels, 1024 by 768. *)
Definition photo : Convert.image unit := Convert.Image (lit "RGB") (1024, 768) tt.

End Scenario.

(** ** The course of a run *)

Module Course.
Import Publish.

(** The directories that line 84 goes through. *)
Definition folders : list str := [lit "dist"; lit "build"; lit "airobo.egg-info"].

(** The child processes of the cleaning step: one removal for each of the
    three directories that exists. *)
Definition removals (w : world) : list (list str) :=
  map (remove_argv w) (filter (dir_exists w) folders).

(** Each removal that the cleaning step runs can be started. *)
Definition removals_start (w : world) : Prop :=
  forall folder, In folder folders -> dir_exists w folder = true ->
                 run w (remove_argv w folder) <> CannotStart.

(** The command lines that [main] can start: the removal of one of the three
    directories, when it exists; the build; the upload, with the token of the
    secrets file stripped of its blanks; the upgrade. *)
Definition allowed (w : world) (argv : list str) : Prop :=
  (exists folder,
      In folder folders /\ dir_exists w folder = true /\ argv = remove_argv w folder)
  \/ argv = build_argv w
  \/ (exists env token_match,
        dot_env w = Some env
        /\ Re.search api_token env = Some token_match
        /\ argv = upload_argv (strip (Re.group1 token_match)))
  \/ argv = pip_argv w.

(** What has gone well when the upload is started: the manifest was read and
    can be rewritten, the build has exited with status zero, and the secrets
    file holds a token. *)
Definition ready_to_upload (w : world) : Prop :=
  (exists content f new_version new_content,
      pyproject_toml w = Some content
      /\ Re.search version_search content = Some f
      /\ increment (Re.group1 f) = Bumped new_version
      /\ Re.sub version_assign (assignment new_version) content = Some new_content)
  /\ (exists err, run w (build_argv w) = Completed 0 err)
  /\ exists env token_match,
       dot_env w = Some env /\ Re.search api_token env = Some token_match.

(** Every child process of the trace could be started. *)
Definition all_started (w : world) (t : list event) : Prop :=
  forall argv, In argv (spawned t) -> run w argv <> CannotStart.

(** The prompt of the failure branches and the prompt of line 158. *)
Definition exit_prompt : str := lit "Press Enter to exit...".
Definition close_prompt : str := newline :: lit "Press Enter to close this window...".

(** The events of a run as far as the start of the build: lines 29 to 93. *)
Definition built (w : world) (current_version new_version new_content : str) : list event :=
  banner
  ++ [Print [Txt "📝 Auto-incrementing version: "; Txt current_version;
             Txt " → "; Txt new_version];
      Write manifest new_content;
      Print [Txt "✅ Version updated in pyproject.toml"];
      Print [Txt "🧹 Cleaning old builds..."]]
  ++ map (fun folder => Spawn (remove_argv w folder)) (filter (dir_exists w) folders)
  ++ [Print [Txt "🔨 Building package..."]; Spawn (build_argv w)].

(** The events of a run in which every step succeeds, up to the closing
    part: lines 29 to 146. *)
Definition success (w : world) (current_version new_version new_content pypi_token : str)
    : list event :=
  built w current_version new_version new_content
  ++ [Print [Txt "✅ Package built successfully!"];
      Print [Txt "📤 Uploading to PyPI..."];
      Spawn (upload_argv pypi_token);
      Print [Txt "✅ Successfully published version "; Txt new_version; Txt "!"];
      Print [Txt "🌐 View at: https://pypi.org/project/airobo/"; Txt new_version; Txt "/"];
      Print [Txt "🔄 Updating local installation..."];
      Spawn (pip_argv w);
      Print [];
      Print [Txt rule];
      Print [Txt "   🎉 SUCCESS! Version "; Txt new_version; Txt " published!"];
      Print [Txt rule];
      Print [];
      Print [Txt "Users can now install with:"];
      Print [Txt "  pip install --upgrade airobo"];
      Print []].

(** The version after [k] releases in a row, each of which reads the version
    that the one before has written. *)
Fixpoint releases (k : nat) (v : str) : bump :=
  match k with
  | O => Bumped v
  | S k' =>
      match releases k' v with
      | Bumped v' => increment v'
      | stop => stop
      end
  end.

(** *** How a step ends *)

(** From a trace that satisfies [J], the step goes on with a trace that
    satisfies [J], leaves [main] with one that satisfies [leave], or raises
    [e] with one that satisfies [throw e]. *)
Definition ends {A} (J leave : list event -> Prop) (throw : exn -> list event -> Prop)
    (m : M A) : Prop :=
  forall t, J t ->
    match m t with
    | (Val _, t') => J t'
    | (Returned, t') => leave t'
    | (Raised e, t') => throw e t'
    end.

(** What an exception finds: a child process that could not be started is
    the last event, and all before it could be started. *)
Definition thrown (w : world) (e : exn) (t : list event) : Prop :=
  match e with
  | SpawnError argv =>
      run w argv = CannotStart
      /\ exists t', t = t' ++ [Spawn argv] /\ all_started w t'
  | _ => all_started w t
  end.

(** The upload has not been started, or [Q] holds. *)
Definition uploads_only_if (Q : Prop) (t : list event) : Prop :=
  upload_invoked t = true -> Q.

(** The trace is [t0] followed by events that write nothing. *)
Definition extends (t0 t : list event) : Prop :=
  exists tail, t = t0 ++ tail /\ writes tail = [].

End Course.

(** ** The lines the publisher looks for *)

Module Lines.
Import Publish.

(** [a] is a version assignment as line 49 accepts it, and [v] is the
    version in it: white space around the equals sign, a quote of either
    kind on each side, and between the quotes at least one character, none of
    them a quote. *)
Definition is_assignment (a v : str) : Prop :=
  exists ws1 ws2 q1 q2,
    a = assignment_text ws1 ws2 q1 v q2
    /\ Forall (fun c => is_space c = true) ws1
    /\ Forall (fun c => is_space c = true) ws2
    /\ In q1 quotes /\ In q2 quotes
    /\ v <> []
    /\ Forall (fun c => ~ In c quotes) v.

(** An assignment up to its opening quote. *)
Definition opening (ws1 ws2 : str) (q1 : ascii) : str :=
  lit "version" ++ ws1 ++ "="%char :: ws2 ++ [q1].

(** A line of the secrets file that gives the token [core]: the key, white
    space around the equals sign, the token, which starts and ends with a
    character that is not white space and holds no line feed, and white space
    other than a line feed up to the end of the line. *)
Definition token_line (l core : str) : Prop :=
  exists ws1 ws2 trailing,
    l = lit "apiToken" ++ ws1 ++ "="%char :: ws2 ++ core ++ trailing
    /\ Forall (fun c => is_space c = true) ws1
    /\ Forall (fun c => is_space c = true) ws2
    /\ is_space (hd " "%char core) = false
    /\ is_space (last core " "%char) = false
    /\ ~ In newline core
    /\ Forall (fun c => is_space c = true /\ c <> newline) trailing.

(** The end of a line: the end of the file or a line feed. *)
Definition line_ends (rest : str) : Prop :=
  match rest with
  | [] => True
  | c :: _ => c = newline
  end.

End Lines.

(** ** Markup *)

Module Markup.

(** An ampersand followed by white space somewhere in the text: an ampersand
    that starts no character or entity reference. *)
Fixpoint bare_ampersand (s : str) : bool :=
  match s with
  | [] => false
  | a :: s' =>
      match s' with
      | b :: _ => (Ascii.eqb a "&" && is_space b) || bare_ampersand s'
      | [] => false
      end
  end.

End Markup.

(** ** More scenarios *)

Module Situation.
Import Publish.

(** No manifest in the directory. *)
Definition no_manifest : world :=
  Scenario.desk None (Some Scenario.secrets) 0 0.

(** A manifest without a version. *)
Definition no_version : world :=
  Scenario.desk (Some (lit "[project]")) (Some Scenario.secrets) 0 0.

(** A version with a backslash escape that replacement templates do not
    know. *)
Definition escaped : world :=
  Scenario.desk (Some (Scenario.project (lit "1\d.2.3"))) (Some Scenario.secrets) 0 0.

(** No secrets file. *)
Definition no_secrets : world :=
  Scenario.desk (Some (Scenario.project (lit "1.2.3"))) None 0 0.

(** Everything succeeds, except that the removal of [dist] and the upgrade
    of the local installation exit with status 1. *)
Definition upgrade_fails : world :=
  {| os_name_nt := false;
     sys_executable := Scenario.python;
     pyproject_toml := Some (Scenario.project (lit "1.2.3"));
     dot_env := Some Scenario.secrets;
     dir_exists := fun folder => Scenario.same [folder] [lit "dist"];
     run := fun argv =>
              if Scenario.same argv [Scenario.python; lit "-m"; lit "build"]
              then Completed 0 []
              else if is_upload argv then Completed 0 []
              else Completed 1 (lit "error");
     stdin_open := true |}.

(** A Windows machine where the upload tool is not installed, and nobody is
    at the terminal. *)
Definition no_twine : world :=
  {| os_name_nt := true;
     sys_executable := Scenario.python;
     pyproject_toml := Some (Scenario.project (lit "1.2.3"));
     dot_env := Some Scenario.secrets;
     dir_exists := fun _ => false;
     run := fun argv => if is_upload argv then CannotStart else Completed 0 [];
     stdin_open := false |}.

(** What the search for the token finds in the secrets of the scenarios. *)
Definition secrets_match : Re.found :=
  Re.Found [] (lit "apiToken = pypi-0123") (lit "pypi-0123") [newline].

(** A manifest with a second assignment on its last line, and what the
    search finds in the text after the first. *)
Definition pinned : str :=
  Scenario.project (lit "1.2.3") ++ lit "python_version = '3.8'".

Definition pinned_match : Re.found :=
  Re.Found (Re.before (Scenario.project_match (lit "1.2.3")))
    (Re.matched (Scenario.project_match (lit "1.2.3"))) (lit "1.2.3")
    (newline :: lit "python_version = '3.8'").

Definition pinned_next : Re.found :=
  Re.Found (newline :: lit "python_") (lit "version = '3.8'") (lit "3.8") [].

End Situation.

(** * Properties *)

(** ** Splitting and joining *)

Section SplitFacts.
Variable sep : ascii.

Lemma split_not_nil (s : str) : Py.split sep s <> [].
Proof.
  destruct s as [|c s]; simpl; [discriminate|].
  destruct (Ascii.eqb c sep); [discriminate|].
  destruct (Py.split sep s); discriminate.
Qed.

(** A text without the separator is its own single component. *)
Lemma split_whole (s : str) : ~ In sep s -> Py.split sep s = [s].
Proof.
  induction s as [|c s IH]; simpl; intros Hs; [reflexivity|].
  destruct (Ascii.eqb_spec c sep) as [->|_]; [tauto|].
  rewrite IH by tauto. reflexivity.
Qed.

(** The first separator ends the first component. *)
Lemma split_first (a b : str) :
  ~ In sep a -> Py.split sep (a ++ sep :: b) = a :: Py.split sep b.
Proof.
  induction a as [|c a IH]; simpl; intros Ha.
  - rewrite Ascii.eqb_refl. reflexivity.
  - destruct (Ascii.eqb_spec c sep) as [->|_]; [tauto|].
    rewrite IH by tauto. reflexivity.
Qed.

(** Joining the components gives the text back. *)
Lemma join_split (s : str) : Py.join [sep] (Py.split sep s) = s.
Proof.
  induction s as [|c s IH]; simpl; [reflexivity|].
  destruct (Ascii.eqb_spec c sep) as [->|_].
  - pose proof (split_not_nil s) as Hn.
    destruct (Py.split sep s) as [|h t]; [contradiction|].
    simpl in *. now rewrite IH.
  - destruct (Py.split sep s) as [|h t] eqn:E; [now destruct (split_not_nil s)|].
    destruct t; simpl in *; now rewrite <- IH.
Qed.

(** No component contains the separator. *)
Lemma split_components (s : str) :
  Forall (fun p => ~ In sep p) (Py.split sep s).
Proof.
  induction s as [|c s IH]; simpl.
  - constructor; [tauto | constructor].
  - destruct (Ascii.eqb_spec c sep) as [->|Hc].
    + constructor; [tauto | exact IH].
    + destruct (Py.split sep s) as [|h t]; [repeat constructor; simpl; intuition congruence|].
      inversion IH; subst. constructor; [|assumption].
      simpl. intuition congruence.
Qed.
End SplitFacts.

(** ** Reading back what [str] prints *)

Module IntFacts.
Import Decimal.

(** The value of a digit sequence read from the left, most significant digit
    first, continuing from [acc]. *)
Fixpoint uvalue (acc : Z) (d : uint) : Z :=
  match d with
  | Nil => acc
  | D0 d => uvalue (10 * acc) d
  | D1 d => uvalue (10 * acc + 1) d
  | D2 d => uvalue (10 * acc + 2) d
  | D3 d => uvalue (10 * acc + 3) d
  | D4 d => uvalue (10 * acc + 4) d
  | D5 d => uvalue (10 * acc + 5) d
  | D6 d => uvalue (10 * acc + 6) d
  | D7 d => uvalue (10 * acc + 7) d
  | D8 d => uvalue (10 * acc + 8) d
  | D9 d => uvalue (10 * acc + 9) d
  end.

Definition digits_of (d : uint) : str := lit (NilEmpty.string_of_uint d).

Lemma scan_after_digit (d : uint) (acc : Z) :
  Py.scan_digits Py.AfterDigit acc (digits_of d) = Some (uvalue acc d, []).
Proof.
  revert acc. unfold digits_of.
  induction d; intros acc; simpl; try reflexivity;
    rewrite IHd; do 2 f_equal.
  f_equal. unfold digit_value, code. simpl. lia.
Qed.

Lemma scan_from_start (d : uint) :
  d <> Nil ->
  Py.scan_digits Py.Start 0 (digits_of d) = Some (uvalue 0 d, []).
Proof.
  unfold digits_of.
  destruct d; intros Hd; [congruence| ..]; simpl;
    apply (scan_after_digit d).
Qed.

Lemma of_lu_rev_step (d : uint) :
  d <> Nil ->
  Z.of_N (Unsigned.of_lu (rev d))
  = Z.of_N (Unsigned.of_lu (rev (Unsigned.tl d)))
    + Z.of_N (Unsigned.hd d) * 10 ^ Z.of_N (Unsigned.usize (Unsigned.tl d)).
Proof.
  destruct d; intros Hd; [congruence| ..];
    unfold rev; cbn [revapp Unsigned.tl Unsigned.hd];
    rewrite Unsigned.of_lu_revapp; cbn [Unsigned.of_lu];
    rewrite N2Z.inj_add, N2Z.inj_mul, N2Z.inj_pow; f_equal; f_equal; lia.
Qed.

Lemma uvalue_spec (d : uint) (acc : Z) :
  uvalue acc d
  = Z.of_N (Unsigned.of_lu (rev d)) + acc * 10 ^ Z.of_N (Unsigned.usize d).
Proof.
  revert acc.
  induction d; intros acc;
    [ cbn; lia | .. ];
    cbn [uvalue]; rewrite IHd, (of_lu_rev_step (_ d)) by discriminate;
    cbn [Unsigned.tl Unsigned.hd Unsigned.usize];
    rewrite N2Z.inj_succ, Z.pow_succ_r by lia; cbn [Z.of_N]; ring.
Qed.

Lemma uvalue_to_uint (p : positive) : uvalue 0 (Pos.to_uint p) = Z.pos p.
Proof.
  rewrite uvalue_spec, <- Unsigned.of_uint_alt, Unsigned.of_to.
  simpl. lia.
Qed.

(** Digits are neither blanks nor changed by the blank normalisation. *)
Lemma digits_plain (d : uint) :
  map Py.to_ascii_space (digits_of d) = digits_of d.
Proof.
  unfold digits_of. induction d; simpl; try reflexivity; now rewrite IHd.
Qed.

Lemma digits_no_blank (d : uint) :
  d <> Nil -> drop_while c_isspace (digits_of d) = digits_of d.
Proof.
  unfold digits_of. destruct d; intros Hd; [congruence| ..]; reflexivity.
Qed.

Lemma digits_head (d : uint) :
  d <> Nil ->
  exists c s, digits_of d = c :: s /\ is_digit c = true.
Proof.
  unfold digits_of. destruct d; intros Hd; [congruence| ..];
    simpl; eexists; eexists; split; reflexivity.
Qed.

(** *** The limit on the digits *)

Lemma digits_all (d : uint) : filter is_digit (digits_of d) = digits_of d.
Proof.
  unfold digits_of. induction d; simpl; try reflexivity; now rewrite IHd.
Qed.

(** A digit sequence is worth at least what precedes it, shifted. *)
Lemma uvalue_shift (d : uint) (acc : Z) :
  0 <= acc -> acc * 10 ^ Z.of_nat (List.length (digits_of d)) <= uvalue acc d.
Proof.
  revert acc. unfold digits_of, lit.
  induction d; intros acc Hacc;
    [ cbn; lia | .. ];
    cbn [NilEmpty.string_of_uint list_ascii_of_string List.length uvalue];
    rewrite Nat2Z.inj_succ, Z.pow_succ_r by lia;
    (etransitivity; [|apply IHd; lia]);
    (pose proof (Z.pow_nonneg 10 (Z.of_nat (List.length
                   (list_ascii_of_string (NilEmpty.string_of_uint d)))) ltac:(lia))
      as Hp);
    nia.
Qed.

Lemma nzhead_head (d x : uint) : nzhead d <> D0 x.
Proof. induction d; cbn [nzhead]; try discriminate. exact IHd. Qed.

(** What [Pos.to_uint] prints does not start with a zero. *)
Lemma to_uint_head (p : positive) (x : uint) : Pos.to_uint p <> D0 x.
Proof.
  intros E.
  pose proof (Unsigned.to_of (Pos.to_uint p)) as Hn.
  rewrite Unsigned.of_to in Hn. cbn [N.to_uint] in Hn.
  rewrite E in Hn. unfold unorm in Hn. cbn [nzhead] in Hn.
  destruct (nzhead x) as [|u|u|u|u|u|u|u|u|u|u] eqn:Ex; try discriminate Hn.
  - injection Hn as ->. now apply (Unsigned.to_uint_nonzero p).
  - now apply (nzhead_head x u).
Qed.

(** A positive number below ten to the power [k] prints with [k] digits at
    most. *)
Lemma digits_count (p : positive) (k : nat) :
  Z.pos p < 10 ^ Z.of_nat k ->
  (List.length (digits_of (Pos.to_uint p)) <= k)%nat.
Proof.
  intros Hp.
  pose proof (uvalue_to_uint p) as Hv.
  pose proof (to_uint_head p) as Hhead.
  pose proof (Unsigned.to_uint_nonnil p) as Hnil.
  destruct (Pos.to_uint p) as [|d|d|d|d|d|d|d|d|d|d];
    [ congruence | now destruct (Hhead d) | .. ];
    cbn [uvalue] in Hv;
    match type of Hv with
    | uvalue ?a d = _ => pose proof (uvalue_shift d a ltac:(lia)) as Hs
    end;
    unfold digits_of, lit in *;
    cbn [NilEmpty.string_of_uint list_ascii_of_string List.length];
    assert (Hlt : 10 ^ Z.of_nat (List.length
                                   (list_ascii_of_string (NilEmpty.string_of_uint d)))
                  < 10 ^ Z.of_nat k)
      by (pose proof (Z.pow_pos_nonneg 10 (Z.of_nat (List.length
                        (list_ascii_of_string (NilEmpty.string_of_uint d))))
                        ltac:(lia) ltac:(lia));
          nia);
    apply Z.pow_lt_mono_r_iff in Hlt; lia.
Qed.

(** What the digit loop has read is below ten to the number of the digits. *)
Lemma scan_bound (s rest : str) (st : Py.scan_state) (acc v : Z) :
  0 <= acc ->
  Py.scan_digits st acc s = Some (v, rest) ->
  0 <= v < (acc + 1) * 10 ^ Z.of_nat (List.length (filter is_digit s)).
Proof.
  revert st acc. induction s as [|c s IH]; intros st acc Hacc.
  - cbn. destruct st; try discriminate. intros [= <- <-]. lia.
  - cbn [Py.scan_digits filter]. destruct (is_digit c) eqn:Hc.
    + intros Hscan.
      assert (Hd : 0 <= digit_value c <= 9).
      { unfold is_digit, between in Hc. apply andb_true_iff in Hc.
        rewrite !Z.leb_le in Hc. unfold digit_value. lia. }
      apply IH in Hscan; [|lia].
      cbn [List.length]. rewrite Nat2Z.inj_succ, Z.pow_succ_r by lia.
      pose proof (Z.pow_pos_nonneg 10 (Z.of_nat (List.length (filter is_digit s)))
                    ltac:(lia) ltac:(lia)).
      nia.
    + pose proof (Z.pow_pos_nonneg 10 (Z.of_nat (List.length (filter is_digit s)))
                    ltac:(lia) ltac:(lia)) as Hp.
      destruct (Ascii.eqb c "_").
      * destruct st; try discriminate. intros Hscan. now apply IH in Hscan.
      * destruct st; try discriminate. intros [= <- <-]. nia.
Qed.

(** What [int] reads is within the limit. *)
Lemma int_bound (s : str) (n : Z) : Py.int s = Some n -> Z.abs n < Py.limit.
Proof.
  unfold Py.int.
  set (s1 := drop_while c_isspace (map Py.to_ascii_space s)).
  assert (H : forall sign s2,
             (sign = 1 \/ sign = -1) ->
             match Py.scan_digits Py.Start 0 s2 with
             | Some (v, rest) =>
                 match drop_while c_isspace rest with
                 | [] =>
                     if (Py.max_str_digits <? List.length (filter is_digit s2))%nat
                     then None else Some (sign * v)
                 | _ :: _ => None
                 end
             | None => None
             end = Some n ->
             Z.abs n < Py.limit).
  { intros sign s2 Hsign.
    destruct (Py.scan_digits Py.Start 0 s2) as [[v rest]|] eqn:Hscan; [|discriminate].
    destruct (drop_while c_isspace rest); [|discriminate].
    destruct (Nat.ltb_spec Py.max_str_digits (List.length (filter is_digit s2)))
      as [|Hfit]; [discriminate|].
    intros [= <-].
    apply scan_bound in Hscan; [|lia].
    assert (Hpow : 10 ^ Z.of_nat (List.length (filter is_digit s2)) <= Py.limit).
    { unfold Py.limit. apply Z.pow_le_mono_r; lia. }
    destruct Hsign as [-> | ->]; lia. }
  destruct s1 as [|c s1]; [apply (H 1 []); now left|].
  destruct (Ascii.eqb c "+"); [apply (H 1 s1); now left|].
  destruct (Ascii.eqb c "-"); [apply (H (-1) s1); now right|].
  apply (H 1 (c :: s1)); now left.
Qed.

Lemma digits_fit (p : positive) :
  Z.pos p < Py.limit ->
  (Py.max_str_digits <? List.length (filter is_digit (digits_of (Pos.to_uint p))))%nat
  = false.
Proof.
  intros Hp. apply Nat.ltb_ge. rewrite digits_all. now apply digits_count.
Qed.

(** [int(str(n)) == n], within the limit. *)
Lemma int_decimal (n : Z) : Z.abs n < Py.limit -> Py.int (Py.decimal n) = Some n.
Proof.
  unfold Py.decimal.
  destruct n as [|p|p]; intros Hn; [reflexivity| |].
  - change (lit (NilEmpty.string_of_int (Z.to_int (Z.pos p))))
      with (digits_of (Pos.to_uint p)).
    pose proof (Unsigned.to_uint_nonnil p) as Hnil.
    pose proof (digits_fit p ltac:(lia)) as Hfit.
    unfold Py.int.
    rewrite digits_plain, digits_no_blank by assumption.
    destruct (digits_head _ Hnil) as (c & s & E & Hc).
    assert (Hsign : Ascii.eqb c "+" = false /\ Ascii.eqb c "-" = false).
    { split; apply Ascii.eqb_neq; intros ->; discriminate Hc. }
    destruct Hsign as [Hplus Hminus].
    pose proof (scan_from_start _ Hnil) as Hscan.
    rewrite E in *. rewrite Hplus, Hminus, Hscan. cbn [drop_while].
    rewrite Hfit, uvalue_to_uint. f_equal; lia.
  - change (lit (NilEmpty.string_of_int (Z.to_int (Z.neg p))))
      with ("-"%char :: digits_of (Pos.to_uint p)).
    pose proof (Unsigned.to_uint_nonnil p) as Hnil.
    pose proof (digits_fit p ltac:(lia)) as Hfit.
    unfold Py.int. cbn [map]. rewrite digits_plain.
    change (drop_while c_isspace (Py.to_ascii_space "-" :: digits_of (Pos.to_uint p)))
      with ("-"%char :: digits_of (Pos.to_uint p)).
    cbv beta iota.
    change (Ascii.eqb "-" "+") with false.
    change (Ascii.eqb "-" "-") with true.
    cbv beta iota.
    rewrite (scan_from_start _ Hnil). cbn [drop_while].
    rewrite Hfit, uvalue_to_uint. f_equal; lia.
Qed.

Lemma str_of_int_fits (n : Z) :
  Z.abs n < Py.limit -> Py.str_of_int n = Some (Py.decimal n).
Proof.
  intros Hn. unfold Py.str_of_int.
  destruct (Z.leb_spec Py.limit (Z.abs n)); [lia | reflexivity].
Qed.

Lemma str_of_int_some (n : Z) (s : str) :
  Py.str_of_int n = Some s -> Z.abs n < Py.limit /\ s = Py.decimal n.
Proof.
  unfold Py.str_of_int.
  destruct (Z.leb_spec Py.limit (Z.abs n)); [discriminate|].
  intros [= <-]. now split.
Qed.

(** What [str] prints contains no dot, no quote and no backslash. *)
Lemma digits_of_chars (d : uint) : Forall (fun c => is_digit c = true) (digits_of d).
Proof.
  unfold digits_of. induction d; simpl; constructor; try assumption; reflexivity.
Qed.

Lemma decimal_chars (n : Z) :
  Forall (fun c => is_digit c = true \/ c = "-"%char) (Py.decimal n).
Proof.
  unfold Py.decimal.
  destruct n as [|p|p].
  - repeat constructor.
  - change (lit (NilEmpty.string_of_int (Z.to_int (Z.pos p))))
      with (digits_of (Pos.to_uint p)).
    eapply Forall_impl; [|apply digits_of_chars]. intros; now left.
  - change (lit (NilEmpty.string_of_int (Z.to_int (Z.neg p))))
      with ("-"%char :: digits_of (Pos.to_uint p)).
    constructor; [now right|].
    eapply Forall_impl; [|apply digits_of_chars]. intros; now left.
Qed.
End IntFacts.

(** ** The version increment *)

Section Increment.
Import Publish.

Lemma split_three (major minor patch : str) :
  ~ In dot major -> ~ In dot minor -> ~ In dot patch ->
  Py.split dot (Py.join [dot] [major; minor; patch]) = [major; minor; patch].
Proof.
  intros Ha Hb Hc. cbn [Py.join].
  change (major ++ [dot] ++ minor ++ [dot] ++ patch)
    with (major ++ dot :: (minor ++ dot :: patch)).
  rewrite split_first, split_first, split_whole by assumption.
  reflexivity.
Qed.

(** A text with other than three components is refused. *)
Lemma increment_invalid (v : str) :
  List.length (Py.split dot v) <> 3%nat -> increment v = Invalid.
Proof.
  unfold increment. fold dot.
  destruct (Py.split dot v) as [|a [|b [|c [|d l]]]]; simpl; intros Hl;
    try reflexivity.
  now destruct Hl.
Qed.

Lemma increment_not_integer (v major minor patch : str) :
  Py.split dot v = [major; minor; patch] ->
  Py.int patch = None ->
  increment v = NotAnInteger patch.
Proof.
  unfold increment. fold dot. now intros -> ->.
Qed.

(** A number that [int] has read and that is not the last one within the
    limit can be printed again once incremented. *)
Lemma successor_fits (patch : str) (n : Z) :
  Py.int patch = Some n -> n + 1 < Py.limit -> Z.abs (n + 1) < Py.limit.
Proof. intros Hn Hlt. apply IntFacts.int_bound in Hn. lia. Qed.

Lemma increment_bumped (v major minor patch : str) (n : Z) :
  Py.split dot v = [major; minor; patch] ->
  Py.int patch = Some n ->
  n + 1 < Py.limit ->
  increment v = Bumped (Py.join [dot] [major; minor; Py.decimal (n + 1)]).
Proof.
  unfold increment. fold dot. intros -> Hn Hlt. rewrite Hn.
  rewrite (IntFacts.str_of_int_fits _ (successor_fits patch n Hn Hlt)).
  unfold fmt. cbn [List.concat Py.join]. now rewrite List.app_nil_r.
Qed.

Lemma increment_over_the_limit (v major minor patch : str) (n : Z) :
  Py.split dot v = [major; minor; patch] ->
  Py.int patch = Some n ->
  Py.limit <= n + 1 ->
  increment v = OverTheLimit (n + 1).
Proof.
  unfold increment, Py.str_of_int. fold dot. intros -> -> Hle.
  destruct (Z.leb_spec Py.limit (Z.abs (n + 1))); [reflexivity | lia].
Qed.
End Increment.

(** C1, as amended.  A version made of three components without dots, the
    third of which [int] reads as [n], with [n + 1] still within the limit on
    the digits of a conversion, is incremented to the same first two
    components, character for character, followed by the decimal form of
    [n + 1]; and that decimal form reads back as [n + 1]. *)
Theorem version_increment (major minor patch : str) (n : Z) :
  ~ In dot major -> ~ In dot minor -> ~ In dot patch ->
  Py.int patch = Some n ->
  n + 1 < Py.limit ->
  Publish.increment (Py.join [dot] [major; minor; patch])
  = Publish.Bumped (Py.join [dot] [major; minor; Py.decimal (n + 1)])
  /\ Py.int (Py.decimal (n + 1)) = Some (n + 1).
Proof.
  intros Ha Hb Hc Hn Hlt. split.
  - apply increment_bumped with (patch := patch); [|assumption|assumption].
    now apply split_three.
  - apply IntFacts.int_decimal. now apply successor_fits with (patch := patch).
Qed.

Lemma version_increment_witness :
  Publish.increment (lit "1.2.3") = Publish.Bumped (lit "1.2.4")
  /\ Py.int (lit "4") = Some 4.
Proof.
  apply (version_increment (lit "1") (lit "2") (lit "3") 3).
  - simpl; intuition discriminate.
  - simpl; intuition discriminate.
  - simpl; intuition discriminate.
  - reflexivity.
  - vm_compute. reflexivity.
Defined.

(** C1, as stated, at a third component of 4300 nines: [int] reads it, the
    next number has one digit more than a conversion accepts, and no new
    version is produced: the run with this version writes nothing. *)
Lemma nines_are_not_incremented :
  Py.split dot (lit "1.2." ++ Scenario.nines) = [lit "1"; lit "2"; Scenario.nines]
  /\ Py.int Scenario.nines = Some (10 ^ 4300 - 1)
  /\ Publish.increment (lit "1.2." ++ Scenario.nines)
     = Publish.OverTheLimit (10 ^ 4300)
  /\ Publish.writes (Publish.main Scenario.long_patch) = [].
Proof. vm_compute. repeat split; reflexivity. Qed.

(** Leading zeros of the patch are not kept: the patch is a number. *)
Example increment_leading_zeros :
  Publish.increment (lit "01.02.009") = Publish.Bumped (lit "01.02.10").
Proof. reflexivity. Qed.

(** ** Reasoning about a run: invariants of the trace *)

Module Flow.
Import Publish.

(** [inv] holds of the trace all along [m], and a value that [m] yields
    satisfies [post]. *)
Definition keeps {A} (inv : list event -> Prop) (m : M A) (post : A -> Prop) : Prop :=
  forall t, inv t -> inv (snd (m t)) /\ forall a, fst (m t) = Val a -> post a.

(** An event that cannot break [inv]. *)
Definition quiet (inv : list event -> Prop) (e : event) : Prop :=
  forall t, inv t -> inv (t ++ [e]).

Section Rules.
Context (inv : list event -> Prop).

Lemma keeps_ret {A} (a : A) : keeps inv (ret a) (fun x => x = a).
Proof. intros t Ht; split; [exact Ht|]. simpl. now intros ? [= <-]. Qed.

Lemma keeps_return {A} (post : A -> Prop) : keeps inv return_ post.
Proof. intros t Ht; split; [exact Ht|]. simpl. discriminate. Qed.

Lemma keeps_raise {A} (e : exn) (post : A -> Prop) : keeps inv (raise e) post.
Proof. intros t Ht; split; [exact Ht|]. simpl. discriminate. Qed.

Lemma keeps_weaken {A} (m : M A) (p q : A -> Prop) :
  keeps inv m p -> (forall a, p a -> q a) -> keeps inv m q.
Proof.
  intros Hm Hpq t Ht. destruct (Hm t Ht) as [H1 H2]. split; [exact H1|].
  intros a Ha. auto.
Qed.

Lemma keeps_bind {A B} (m : M A) (k : A -> M B) (mid : A -> Prop) (post : B -> Prop) :
  keeps inv m mid ->
  (forall a, mid a -> keeps inv (k a) post) ->
  keeps inv (bind m k) post.
Proof.
  intros Hm Hk t Ht. unfold bind.
  destruct (Hm t Ht) as [H1 H2].
  destruct (m t) as [[a| |e] t']; simpl in *.
  - apply Hk; auto.
  - split; [exact H1 | discriminate].
  - split; [exact H1 | discriminate].
Qed.

Lemma keeps_emit (e : event) : quiet inv e -> keeps inv (emit e) (fun _ => True).
Proof. intros He t Ht; split; [apply He, Ht | trivial]. Qed.

Lemma keeps_print (line : list frag) :
  quiet inv (Print line) -> keeps inv (print line) (fun _ => True).
Proof. apply keeps_emit. Qed.

Lemma keeps_say (s : str) :
  quiet inv (Print [Txt s]) -> keeps inv (say s) (fun _ => True).
Proof. apply keeps_emit. Qed.

Lemma keeps_input (w : world) (prompt : str) :
  quiet inv (Input prompt) -> keeps inv (input w prompt) (fun _ => True).
Proof.
  intros Hq. unfold input.
  eapply keeps_bind; [apply keeps_emit, Hq|]. intros _ _.
  destruct (stdin_open w).
  - eapply keeps_weaken; [apply keeps_ret | trivial].
  - apply keeps_raise.
Qed.

(** A child process that was started reports what the world holds for it. *)
Lemma keeps_run (w : world) (argv : list str) :
  quiet inv (Spawn argv) ->
  keeps inv (subprocess_run w argv)
    (fun r => run w argv = Completed (fst r) (snd r)).
Proof.
  intros Hq. unfold subprocess_run.
  eapply keeps_bind; [apply keeps_emit, Hq|]. intros _ _.
  destruct (run w argv) as [rc err|].
  - eapply keeps_weaken; [apply keeps_ret|]. now intros ? ->.
  - apply keeps_raise.
Qed.

Lemma keeps_re_sub (re : Re.regex) (repl s : str) :
  keeps inv (re_sub re repl s) (fun r => Re.sub re repl s = Some r).
Proof.
  unfold re_sub. destruct (Re.sub re repl s).
  - eapply keeps_weaken; [apply keeps_ret|]. now intros ? ->.
  - apply keeps_raise.
Qed.

Lemma keeps_for_each {A} (l : list A) (f : A -> M unit) :
  (forall a, In a l -> keeps inv (f a) (fun _ => True)) ->
  keeps inv (for_each l f) (fun _ => True).
Proof.
  induction l as [|a l IH]; intros Hf; simpl.
  - eapply keeps_weaken; [apply keeps_ret | trivial].
  - eapply keeps_bind; [apply Hf; now left|].
    intros _ _. apply IH. intros b Hb. apply Hf. now right.
Qed.

End Rules.

(** An event that is neither a write nor a child process. *)
Definition harmless (e : event) : Prop :=
  match e with
  | Write _ _ | Spawn _ => False
  | _ => True
  end.

(** The closing part and the handler only print, prompt and sleep. *)
Lemma closing_shape (w : world) (t : list event) :
  exists tail, closing w t = t ++ tail /\ Forall harmless tail.
Proof.
  unfold closing. destruct (stdin_open w).
  - eexists; split; [reflexivity|]. repeat constructor.
  - eexists; split; [rewrite <- app_assoc; reflexivity|]. repeat constructor.
Qed.

Lemma main_shape (w : world) :
  exists tail,
    main w = snd (body w banner) ++ tail
    /\ Forall harmless tail.
Proof.
  unfold main.
  destruct (body w banner) as [[a| |e] t] eqn:E; cbn [snd].
  - apply closing_shape.
  - exists []. rewrite app_nil_r. split; [reflexivity | constructor].
  - destruct (closing_shape w (t ++ handler e)) as (tail & -> & Htail).
    eexists. rewrite <- app_assoc. split; [reflexivity|].
    apply Forall_app; split; [repeat constructor | assumption].
Qed.

(** *** The two invariants of interest *)

(** Every child process started so far satisfies [P]. *)
Definition spawns (P : list str -> Prop) (t : list event) : Prop :=
  Forall P (spawned t).

(** The files written so far are exactly [l]. *)
Definition written (l : list str) (t : list event) : Prop := writes t = l.

Lemma spawned_app (t1 t2 : list event) :
  spawned (t1 ++ t2) = spawned t1 ++ spawned t2.
Proof. unfold spawned. now rewrite flat_map_app. Qed.

Lemma writes_app (t1 t2 : list event) :
  writes (t1 ++ t2) = writes t1 ++ writes t2.
Proof. unfold writes. now rewrite flat_map_app. Qed.

Lemma spawns_quiet (P : list str -> Prop) (e : event) :
  match e with Spawn argv => P argv | _ => True end ->
  quiet (spawns P) e.
Proof.
  intros He t Ht. unfold spawns in *.
  rewrite spawned_app. apply Forall_app. split; [assumption|].
  destruct e; simpl; repeat constructor. exact He.
Qed.

Lemma written_quiet (l : list str) (e : event) :
  match e with Write _ _ => False | _ => True end ->
  quiet (written l) e.
Proof.
  intros He t Ht. unfold written in *. rewrite writes_app, Ht.
  destruct e; simpl; try apply app_nil_r. contradiction.
Qed.

Lemma harmless_spawns (P : list str -> Prop) (e : event) :
  harmless e -> quiet (spawns P) e.
Proof. intros He. apply spawns_quiet. destruct e; simpl in *; tauto. Qed.

Lemma quiet_all (inv : list event -> Prop) (l t : list event) :
  (forall e, harmless e -> quiet inv e) ->
  Forall harmless l -> inv t -> inv (t ++ l).
Proof.
  intros Hq Hl. revert t.
  induction Hl as [|e l He Hl IH]; intros t Ht.
  - now rewrite app_nil_r.
  - change (e :: l) with ([e] ++ l). rewrite app_assoc.
    apply IH. now apply Hq.
Qed.

Lemma harmless_writes (l : list event) : Forall harmless l -> writes l = [].
Proof.
  induction 1 as [|e l He Hl IH]; [reflexivity|].
  destruct e; simpl in *; try assumption; contradiction.
Qed.

Lemma harmless_spawned (l : list event) : Forall harmless l -> spawned l = [].
Proof.
  induction 1 as [|e l He Hl IH]; [reflexivity|].
  destruct e; simpl in *; try assumption; contradiction.
Qed.

(** An invariant that the body keeps from the banner on holds of the whole
    run. *)
Lemma main_keeps (inv : list event -> Prop) (w : world) :
  (forall e, harmless e -> quiet inv e) ->
  inv [] ->
  keeps inv (body w) (fun _ => True) ->
  inv (main w).
Proof.
  intros Hq H0 Hbody.
  destruct (main_shape w) as (tail & -> & Htail).
  apply quiet_all; [assumption | assumption |].
  apply Hbody.
  change banner with ([] ++ banner).
  apply quiet_all; [assumption | repeat constructor | assumption].
Qed.

(** Straight-line steps, each with its side condition [q]. *)
Ltac flow q :=
  repeat first
    [ apply keeps_return
    | apply keeps_raise
    | eapply keeps_bind;
      [ first [ apply keeps_say; q
              | apply keeps_print; q
              | apply keeps_input; q
              | apply keeps_emit; q
              | apply keeps_re_sub ]
      | intros ? ? ]
    | apply keeps_print; q
    | apply keeps_say; q ].

Ltac quiet_spawn := apply spawns_quiet; first [ exact I | solve [auto] ].

Ltac quiet_write := apply written_quiet; exact I.

(** Removing the old build directories. *)
Lemma clean_keeps (inv : list event -> Prop) (w : world) (l : list str) :
  (forall folder, quiet inv (Spawn (remove_argv w folder))) ->
  keeps inv
    (for_each l
       (fun folder =>
          if dir_exists w folder
          then _ <- subprocess_run w (remove_argv w folder) ;; ret tt
          else ret tt))
    (fun _ => True).
Proof.
  intros Hq. apply keeps_for_each. intros folder _.
  destruct (dir_exists w folder).
  - eapply keeps_bind; [apply keeps_run, Hq|]. intros _ _.
    eapply keeps_weaken; [apply keeps_ret | trivial].
  - eapply keeps_weaken; [apply keeps_ret | trivial].
Qed.

(** Nothing after the rewrite writes a file. *)
Lemma release_writes (w : world) (new_version : str) (l : list str) :
  keeps (written l) (release w new_version) (fun _ => True).
Proof.
  unfold release.
  flow quiet_write.
  eapply keeps_bind; [apply clean_keeps; intros; quiet_write|]. intros _ _.
  flow quiet_write.
  eapply keeps_bind; [apply keeps_run; quiet_write|]. intros result _.
  destruct (negb (fst result =? 0)); [flow quiet_write|].
  flow quiet_write.
  destruct (dot_env w) as [env_content|]; [|flow quiet_write].
  destruct (Re.search api_token env_content) as [token_match|]; [|flow quiet_write].
  flow quiet_write.
  eapply keeps_bind; [apply keeps_run; quiet_write|]. intros result' _.
  destruct (negb (fst result' =? 0)); [flow quiet_write|].
  flow quiet_write.
  eapply keeps_bind; [apply keeps_run; quiet_write|]. intros _ _.
  flow quiet_write.
Qed.

Section UpToTheBuild.
Context (w : world) (P : list str -> Prop).
Hypothesis P_build : P (build_argv w).
Hypothesis P_remove : forall folder, P (remove_argv w folder).

(** When the build fails, only the cleaning and the build are started. *)
Lemma release_build_fails (new_version : str) (rc : Z) (err : str) :
  run w (build_argv w) = Completed rc err ->
  rc <> 0 ->
  keeps (spawns P) (release w new_version) (fun _ => True).
Proof.
  intros Hrun Hrc. unfold release.
  flow quiet_spawn.
  eapply keeps_bind; [apply clean_keeps; intros; quiet_spawn|]. intros _ _.
  flow quiet_spawn.
  eapply keeps_bind; [apply keeps_run; quiet_spawn|]. intros [rc' err'] Hres.
  rewrite Hrun in Hres. injection Hres as <- <-. cbn [fst snd].
  destruct (Z.eqb_spec rc 0) as [|_]; [contradiction|]. cbn [negb].
  flow quiet_spawn.
Qed.

(** Without a token in the secrets file, only the cleaning and the build are
    started. *)
Lemma release_without_token (new_version env : str) :
  dot_env w = Some env ->
  Re.search api_token env = None ->
  keeps (spawns P) (release w new_version) (fun _ => True).
Proof.
  intros Henv Htoken. unfold release.
  flow quiet_spawn.
  eapply keeps_bind; [apply clean_keeps; intros; quiet_spawn|]. intros _ _.
  flow quiet_spawn.
  eapply keeps_bind; [apply keeps_run; quiet_spawn|]. intros result _.
  destruct (negb (fst result =? 0)); [flow quiet_spawn|].
  flow quiet_spawn.
  rewrite Henv, Htoken.
  flow quiet_spawn.
Qed.

(** Up to the rewrite nothing is started, so an invariant of [release] is an
    invariant of the body. *)
Lemma body_spawns :
  (forall new_version, keeps (spawns P) (release w new_version) (fun _ => True)) ->
  keeps (spawns P) (body w) (fun _ => True).
Proof.
  intros Hrel. unfold body.
  destruct (pyproject_toml w) as [content|]; [|flow quiet_spawn].
  destruct (Re.search version_search content) as [version_match|]; [|flow quiet_spawn].
  destruct (increment (Re.group1 version_match)) as [|patch|new_patch|new_version];
    [flow quiet_spawn | flow quiet_spawn | flow quiet_spawn |].
  eapply keeps_bind; [apply keeps_print; quiet_spawn|]. intros _ _.
  eapply keeps_bind; [apply keeps_re_sub|]. intros new_content _.
  eapply keeps_bind; [apply keeps_emit; quiet_spawn|]. intros _ _.
  apply Hrel.
Qed.

Lemma main_spawns :
  (forall new_version, keeps (spawns P) (release w new_version) (fun _ => True)) ->
  Forall P (spawned (main w)).
Proof.
  intros Hrel.
  apply (main_keeps (spawns P)); [apply harmless_spawns | constructor |].
  now apply body_spawns.
Qed.

End UpToTheBuild.

Lemma before_upload_is_not_upload (w : world) (argv : list str) :
  before_upload w argv -> is_upload argv = false.
Proof.
  intros [->|[folder ->]]; [reflexivity|].
  unfold remove_argv. now destruct (os_name_nt w).
Qed.

Lemma only_before_upload (w : world) (t : list event) :
  Forall (before_upload w) (spawned t) -> upload_invoked t = false.
Proof.
  unfold upload_invoked. induction 1 as [|argv l Ha Hl IH]; [reflexivity|].
  simpl. now rewrite (before_upload_is_not_upload w argv Ha).
Qed.

(** The body once the version is incremented and the template compiles: one
    line, one write, then [release]. *)
Lemma body_bumped (w : world) (content new_version new_content : str)
    (f : Re.found) (t : list event) :
  pyproject_toml w = Some content ->
  Re.search version_search content = Some f ->
  increment (Re.group1 f) = Bumped new_version ->
  Re.sub version_assign (assignment new_version) content = Some new_content ->
  body w t
  = release w new_version
      (t ++ [Print [Txt (lit "📝 Auto-incrementing version: "); Txt (Re.group1 f);
                    Txt (lit " → "); Txt new_version];
             Write manifest new_content]).
Proof.
  intros Hm Hs Hi Hsub. unfold body. rewrite Hm, Hs, Hi.
  unfold bind, print, emit, re_sub. rewrite Hsub. unfold ret.
  now rewrite <- app_assoc.
Qed.

(** The run when the version has other than three components. *)
Lemma main_invalid (w : world) (content : str) (f : Re.found) :
  pyproject_toml w = Some content ->
  Re.search version_search content = Some f ->
  increment (Re.group1 f) = Invalid ->
  exists tail,
    main w
    = banner
      ++ [Print [Txt (lit "❌ Error: Invalid version format: "); Txt (Re.group1 f)];
          Input (lit "Press Enter to exit...")]
      ++ tail
    /\ Forall harmless tail.
Proof.
  intros Hm Hs Hi. unfold main, body. rewrite Hm, Hs, Hi.
  unfold bind, print, input, emit, return_, ret, raise.
  destruct (stdin_open w) eqn:Hin; cbn.
  - exists []. split; [reflexivity | constructor].
  - unfold closing. rewrite Hin. eexists. split; [reflexivity|].
    repeat constructor.
Qed.

(** The run when the third component is not an integer. *)
Lemma main_not_integer (w : world) (content patch : str) (f : Re.found) :
  pyproject_toml w = Some content ->
  Re.search version_search content = Some f ->
  increment (Re.group1 f) = NotAnInteger patch ->
  exists tail,
    main w = banner ++ handler (IntValueError patch) ++ tail
    /\ Forall harmless tail.
Proof.
  intros Hm Hs Hi. unfold main, body. rewrite Hm, Hs, Hi.
  unfold raise.
  destruct (closing_shape w (banner ++ handler (IntValueError patch)))
    as (tail & -> & Htail).
  exists tail. now rewrite <- app_assoc.
Qed.

Lemma banner_harmless : Forall harmless banner.
Proof. repeat constructor. Qed.

End Flow.

(** ** The publisher's workflow *)

Import Publish.

(** C3. When the extracted version has fewer or more than three components,
    the run prints the invalid-format diagnostic, writes no file (the manifest
    on disk is the one that was read) and starts no child process. *)
Theorem wrong_component_count_halts (w : world) (content : str) (f : Re.found) :
  pyproject_toml w = Some content ->
  Re.search version_search content = Some f ->
  List.length (Py.split dot (Re.group1 f)) <> 3%nat ->
  In (Print [Txt (lit "❌ Error: Invalid version format: "); Txt (Re.group1 f)]) (main w)
  /\ writes (main w) = []
  /\ spawned (main w) = []
  /\ manifest_after w (main w) = Some content.
Proof.
  intros Hm Hs Hn.
  destruct (Flow.main_invalid w content f Hm Hs (increment_invalid _ Hn))
    as (tail & E & Htail).
  assert (Hw : writes (main w) = []).
  { rewrite E, !Flow.writes_app, (Flow.harmless_writes tail Htail).
    reflexivity. }
  repeat split.
  - rewrite E. apply in_or_app. right. now left.
  - exact Hw.
  - rewrite E, !Flow.spawned_app, (Flow.harmless_spawned tail Htail).
    reflexivity.
  - unfold manifest_after. now rewrite Hw.
Qed.

(** C5. When the build command exits with a status other than zero, the only
    child processes of the run are the removals and the build itself; in
    particular the upload command is never started. *)
Theorem build_failure_stops_before_upload (w : world) (rc : Z) (err : str) :
  run w (build_argv w) = Completed rc err ->
  rc <> 0 ->
  upload_invoked (main w) = false
  /\ Forall (before_upload w) (spawned (main w)).
Proof.
  intros Hrun Hrc.
  assert (H : Forall (before_upload w) (spawned (main w))).
  { apply (Flow.main_spawns w (before_upload w)).
    intros new_version.
    apply Flow.release_build_fails with (rc := rc) (err := err);
      [now left | intros folder; right; now exists folder | assumption | assumption]. }
  split; [now apply Flow.only_before_upload with (w := w) | exact H].
Qed.

(** When the token pattern matches nowhere in the secrets file, taken as one
    text, the only child processes of the run are the removals and the build;
    in particular the upload command is never started. *)
Theorem missing_token_stops_before_upload (w : world) (env : str) :
  dot_env w = Some env ->
  Re.search api_token env = None ->
  upload_invoked (main w) = false
  /\ Forall (before_upload w) (spawned (main w)).
Proof.
  intros Henv Htoken.
  assert (H : Forall (before_upload w) (spawned (main w))).
  { apply (Flow.main_spawns w (before_upload w)).
    intros new_version.
    apply Flow.release_without_token with (env := env);
      [now left | intros folder; right; now exists folder | assumption | assumption]. }
  split; [now apply Flow.only_before_upload with (w := w) | exact H].
Qed.

(** C9. Once the manifest is rewritten, whatever the later steps do, the run
    contains that one write and no other, so the manifest on disk at the end
    is the rewritten one. *)
Theorem no_rollback_of_the_bump (w : world) (content new_version new_content : str)
    (f : Re.found) :
  pyproject_toml w = Some content ->
  Re.search version_search content = Some f ->
  increment (Re.group1 f) = Bumped new_version ->
  Re.sub version_assign (assignment new_version) content = Some new_content ->
  writes (main w) = [new_content]
  /\ manifest_after w (main w) = Some new_content.
Proof.
  intros Hm Hs Hi Hsub.
  assert (Hw : writes (main w) = [new_content]).
  { destruct (Flow.main_shape w) as (tail & -> & Htail).
    rewrite Flow.writes_app, (Flow.harmless_writes tail Htail), app_nil_r.
    rewrite (Flow.body_bumped w content new_version new_content f banner Hm Hs Hi Hsub).
    apply (Flow.release_writes w new_version [new_content]).
    unfold Flow.written. rewrite Flow.writes_app.
    now rewrite (Flow.harmless_writes banner Flow.banner_harmless). }
  split; [exact Hw|].
  unfold manifest_after. now rewrite Hw.
Qed.

Lemma wrong_component_count_halts_witness :
  In (Print [Txt (lit "❌ Error: Invalid version format: "); Txt (lit "1.2")])
    (main Scenario.two_components)
  /\ writes (main Scenario.two_components) = []
  /\ spawned (main Scenario.two_components) = []
  /\ manifest_after Scenario.two_components (main Scenario.two_components)
     = Some (Scenario.project (lit "1.2")).
Proof.
  apply (wrong_component_count_halts Scenario.two_components
           (Scenario.project (lit "1.2"))
           (Scenario.project_match (lit "1.2"))).
  - reflexivity.
  - vm_compute. reflexivity.
  - vm_compute. discriminate.
Defined.

Lemma build_failure_stops_before_upload_witness :
  upload_invoked (main Scenario.build_fails) = false
  /\ Forall (before_upload Scenario.build_fails) (spawned (main Scenario.build_fails)).
Proof.
  apply (build_failure_stops_before_upload Scenario.build_fails 1 (lit "build: error")).
  - vm_compute. reflexivity.
  - discriminate.
Defined.

Lemma missing_token_stops_before_upload_witness :
  upload_invoked (main Scenario.no_token) = false
  /\ Forall (before_upload Scenario.no_token) (spawned (main Scenario.no_token)).
Proof.
  apply (missing_token_stops_before_upload Scenario.no_token (lit "user = someone")).
  - reflexivity.
  - vm_compute. reflexivity.
Defined.

Lemma no_rollback_of_the_bump_witness :
  writes (main Scenario.upload_fails) = [Scenario.project (lit "1.2.4")]
  /\ manifest_after Scenario.upload_fails (main Scenario.upload_fails)
     = Some (Scenario.project (lit "1.2.4")).
Proof.
  apply (no_rollback_of_the_bump Scenario.upload_fails
           (Scenario.project (lit "1.2.3")) (lit "1.2.4")
           (Scenario.project (lit "1.2.4")) (Scenario.project_match (lit "1.2.3"))).
  - reflexivity.
  - vm_compute. reflexivity.
  - vm_compute. reflexivity.
  - vm_compute. reflexivity.
Defined.

(** C6, at a secrets file whose token has not been filled in.  No line of the
    file matches the token pattern: the first line has nothing after its
    equals sign.  But the white space that the pattern allows after the equals
    sign takes in the end of the line, so that the search over the whole file
    succeeds and the next line is handed to the upload command as the
    password. *)
Theorem next_line_is_taken_for_the_token :
  Claimed.token_lines Scenario.blank_secrets = []
  /\ upload_invoked (main Scenario.blank_token) = true
  /\ spawned (main Scenario.blank_token)
     = [remove_argv Scenario.blank_token (lit "dist");
        build_argv Scenario.blank_token;
        upload_argv (lit "user = bob");
        pip_argv Scenario.blank_token].
Proof. vm_compute. repeat split; reflexivity. Qed.

(** In that last scenario the upload did run and did fail. *)
Example upload_failed_after_the_bump :
  upload_invoked (main Scenario.upload_fails) = true
  /\ In (Print [Txt (lit "❌ Upload failed: "); Txt (lit "twine: error")])
       (main Scenario.upload_fails).
Proof.
  split; [vm_compute; reflexivity|].
  vm_compute. tauto.
Qed.

(** C4, as the code has it.  A version is refused when it has other than
    three components, or when [int] does not read its third component.  In
    the first case the run prints the invalid-format line; in the second the
    handler of [main] reports the [ValueError] as an unexpected error.  In
    both cases nothing is written and nothing is started. *)
Theorem refused_version_halts (w : world) (content : str) (f : Re.found) :
  pyproject_toml w = Some content ->
  Re.search version_search content = Some f ->
  Claimed.refused (Re.group1 f) ->
  Claimed.halts_at_version (main w)
  /\ ((List.length (Py.split dot (Re.group1 f)) <> 3%nat
       /\ In (Print [Txt (lit "❌ Error: Invalid version format: "); Txt (Re.group1 f)])
            (main w))
      \/ (exists major minor patch,
            Py.split dot (Re.group1 f) = [major; minor; patch]
            /\ Py.int patch = None
            /\ In (Print [Txt (lit "❌ Unexpected error: "); StrOf (IntValueError patch)])
                 (main w)
            /\ In (Print [Txt (lit "Error details: "); TypeOf (IntValueError patch)])
                 (main w))).
Proof.
  intros Hm Hs [Hn | (major & minor & patch & Hsplit & Hint)].
  - destruct (Flow.main_invalid w content f Hm Hs (increment_invalid _ Hn))
      as (tail & E & Htail).
    split; [split|left; split; [assumption|]].
    + rewrite E, !Flow.writes_app, (Flow.harmless_writes tail Htail). reflexivity.
    + rewrite E, !Flow.spawned_app, (Flow.harmless_spawned tail Htail). reflexivity.
    + rewrite E. apply in_or_app. right. now left.
  - destruct (Flow.main_not_integer w content patch f Hm Hs
                (increment_not_integer _ _ _ _ Hsplit Hint))
      as (tail & E & Htail).
    split; [split|right; exists major, minor, patch; repeat split; try assumption].
    + rewrite E, !Flow.writes_app, (Flow.harmless_writes tail Htail). reflexivity.
    + rewrite E, !Flow.spawned_app, (Flow.harmless_spawned tail Htail). reflexivity.
    + rewrite E. apply in_or_app. right. now left.
    + rewrite E. apply in_or_app. right. right. now left.
Qed.

Lemma refused_version_halts_witness :
  Claimed.halts_at_version (main Scenario.patch_is_a_letter)
  /\ In (Print [Txt (lit "❌ Unexpected error: "); StrOf (IntValueError (lit "x"))])
       (main Scenario.patch_is_a_letter).
Proof.
  destruct (refused_version_halts Scenario.patch_is_a_letter
              (Scenario.project (lit "1.2.x"))
              (Scenario.project_match (lit "1.2.x")))
    as [Hhalt Hdiag].
  - reflexivity.
  - vm_compute. reflexivity.
  - right. exists (lit "1"), (lit "2"), (lit "x"). split; reflexivity.
  - split; [exact Hhalt|].
    vm_compute. tauto.
Defined.

(** C4, as the specification has it, fails: the first two components are
    never looked at.  The version [a.b.3] is not of the numeric shape, yet the
    run rewrites the manifest to [a.b.4] and goes on to the build. *)
Lemma letters_pass_the_version_check :
  ~ (forall (w : world) (v : str),
        Claimed.extracted w = Some v ->
        Claimed.numeric_shape v = false ->
        Claimed.halts_at_version (main w)).
Proof.
  intros H.
  destruct (H Scenario.letters (lit "a.b.3")) as [Hw _].
  - vm_compute. reflexivity.
  - reflexivity.
  - vm_compute in Hw. discriminate Hw.
Qed.

Example letters_are_bumped :
  writes (main Scenario.letters) = [Scenario.project (lit "a.b.4")].
Proof. vm_compute. reflexivity. Qed.

(** ** Matching, searching and substituting *)

Module ReFacts.
Import Re.

(** *** Substitution walks the subject once *)

Lemma sub_loop_skip (re : regex) (t : list piece) (s : str) (k : nat) :
  sub_loop re t s k = sub_loop re t (skipn k s) 0.
Proof.
  revert k. induction s as [|c s IH]; intros [|k]; try reflexivity.
  simpl. apply IH.
Qed.

(** A match at the head is replaced, and the walk goes on after it. *)
Lemma sub_loop_hit (re : regex) (t : list piece) (c : ascii) (s : str) (h : hit) (k : nat) :
  match_here re (c :: s) = Some h ->
  hit_end h = S k ->
  sub_loop re t (c :: s) 0
  = expand t (firstn (S k) (c :: s)) ++ sub_loop re t (skipn (S k) (c :: s)) 0.
Proof.
  intros Hh Hk. cbn [sub_loop]. rewrite Hh, Hk.
  now rewrite sub_loop_skip.
Qed.

Lemma sub_loop_miss (re : regex) (t : list piece) (c : ascii) (s : str) :
  match_here re (c :: s) = None ->
  sub_loop re t (c :: s) 0 = c :: sub_loop re t s 0.
Proof. intros Hh. cbn [sub_loop]. now rewrite Hh. Qed.

(** No match of [re] starts inside [pre] when [pre] is followed by [rest]. *)
Definition unmatched (re : regex) (pre rest : str) : Prop :=
  forall p1 c p2, pre = p1 ++ c :: p2 -> match_here re (c :: p2 ++ rest) = None.

Lemma unmatched_tail (re : regex) (c : ascii) (pre rest : str) :
  unmatched re (c :: pre) rest -> unmatched re pre rest.
Proof. intros H p1 x p2 E. apply (H (c :: p1)). now rewrite E. Qed.

(** Text in which no match starts is copied. *)
Lemma sub_loop_prefix (re : regex) (t : list piece) (pre rest : str) :
  unmatched re pre rest ->
  sub_loop re t (pre ++ rest) 0 = pre ++ sub_loop re t rest 0.
Proof.
  induction pre as [|c pre IH]; intros Hu; [reflexivity|].
  cbn [app]. rewrite sub_loop_miss by (apply (Hu [] c pre); reflexivity).
  f_equal. apply IH. now apply unmatched_tail in Hu.
Qed.

(** *** Searching finds the leftmost match *)

Lemma unmatched_nil (re : regex) (rest : str) : unmatched re [] rest.
Proof. intros [|? ?] ? ? ?; discriminate. Qed.

Lemma search_from_spec (re : regex) (s p : str) (f : found) :
  search_from re p s = Some f ->
  exists pre rest h,
    s = pre ++ rest
    /\ unmatched re pre rest
    /\ match_here re rest = Some h
    /\ f = cut (p ++ pre) rest h.
Proof.
  revert p. induction s as [|c s IH]; intros p; cbn [search_from].
  - destruct (match_here re []) as [h|] eqn:E; [|discriminate].
    intros [= <-]. exists [], [], h.
    split; [reflexivity|]. split; [apply unmatched_nil|].
    split; [assumption | now rewrite app_nil_r].
  - destruct (match_here re (c :: s)) as [h|] eqn:E.
    + intros [= <-]. exists [], (c :: s), h.
      split; [reflexivity|]. split; [apply unmatched_nil|].
      split; [assumption | now rewrite app_nil_r].
    + intros Hs. destruct (IH _ Hs) as (pre & rest & h & -> & Hu & Hh & ->).
      exists (c :: pre), rest, h.
      split; [reflexivity|]. split; [|split; [assumption|]].
      * intros [|x p1] y p2 Hp; injection Hp as -> Hp.
        -- subst pre. exact E.
        -- now apply (Hu p1 y p2).
      * now rewrite <- app_assoc.
Qed.

Lemma search_spec (re : regex) (s : str) (f : found) :
  search re s = Some f ->
  exists rest h,
    s = before f ++ rest
    /\ unmatched re (before f) rest
    /\ match_here re rest = Some h
    /\ f = cut (before f) rest h.
Proof.
  intros Hs. destruct (search_from_spec re s [] f Hs) as (pre & rest & h & E & Hu & Hh & Hf).
  exists rest, h. rewrite Hf. cbn [cut before app]. now repeat split.
Qed.

(** *** The group does not change where a match ends *)

(** Two outcomes that end at the same place, or both fail. *)
Definition agree {A B} (enda : A -> nat) (endb : B -> nat)
    (a : option A) (b : option B) : Prop :=
  option_map enda a = option_map endb b.

Section Agree.
Context {A B : Type} (enda : A -> nat) (endb : B -> nat).

Lemma greedy_agree (k : cset) (s : str) (pos : nat)
    (ca : nat -> str -> option A) (cb : nat -> str -> option B) :
  (forall p r, agree enda endb (ca p r) (cb p r)) ->
  agree enda endb (greedy k s pos ca) (greedy k s pos cb).
Proof.
  intros Hc. revert pos. induction s as [|c s IH]; intros pos; cbn [greedy].
  - apply Hc.
  - destruct (cset_mem k c); [|apply Hc].
    specialize (IH (S pos)). unfold agree in IH.
    destruct (greedy k s (S pos) ca), (greedy k s (S pos) cb);
      try discriminate IH; [exact IH | apply Hc].
Qed.

Lemma match_atom_agree (a : atom) (s : str) (pos : nat)
    (ca : nat -> str -> option A) (cb : nat -> str -> option B) :
  (forall p r, agree enda endb (ca p r) (cb p r)) ->
  agree enda endb (match_atom a s pos ca) (match_atom a s pos cb).
Proof.
  intros Hc. unfold match_atom. destruct (snd a).
  - destruct s as [|c s]; [reflexivity|].
    destruct (cset_mem (fst a) c); [apply Hc | reflexivity].
  - now apply greedy_agree.
  - destruct s as [|c s]; [reflexivity|].
    destruct (cset_mem (fst a) c); [now apply greedy_agree | reflexivity].
Qed.

Lemma match_atoms_agree (l : list atom) (s : str) (pos : nat)
    (ca : nat -> str -> option A) (cb : nat -> str -> option B) :
  (forall p r, agree enda endb (ca p r) (cb p r)) ->
  agree enda endb (match_atoms l s pos ca) (match_atoms l s pos cb).
Proof.
  revert s pos ca cb. induction l as [|a l IH]; intros s pos ca cb Hc; cbn [match_atoms].
  - apply Hc.
  - apply match_atom_agree. intros p r. now apply IH.
Qed.

End Agree.

(** The pattern with its group opened up. *)
Definition ungroup (re : regex) : regex :=
  flat_map (fun n => match n with Atom a => [Atom a] | Group inner => atoms inner end) re.

Section Ungroup.
Context {A B : Type} (enda : A -> nat) (endb : B -> nat).

Lemma atoms_agree (inner : list atom) (re : regex) (s : str) (pos : nat)
    (g : option (nat * nat))
    (ka : nat -> str -> option A)
    (cb : nat -> option (nat * nat) -> str -> option B) :
  (forall p r, agree enda endb (ka p r) (match_nodes re r p g cb)) ->
  agree enda endb (match_atoms inner s pos ka)
    (match_nodes (atoms inner ++ re) s pos g cb).
Proof.
  revert s pos. induction inner as [|a inner IH]; intros s pos Hk.
  - apply Hk.
  - cbn [atoms map app match_nodes match_atoms].
    apply match_atom_agree. intros p r. now apply IH.
Qed.

Lemma ungroup_agree (re : regex) (s : str) (pos : nat) (ga gb : option (nat * nat))
    (ca : nat -> option (nat * nat) -> str -> option A)
    (cb : nat -> option (nat * nat) -> str -> option B) :
  (forall p g1 g2 r, agree enda endb (ca p g1 r) (cb p g2 r)) ->
  agree enda endb (match_nodes re s pos ga ca) (match_nodes (ungroup re) s pos gb cb).
Proof.
  intros Hc. revert s pos ga.
  induction re as [|[a|inner] re IH]; intros s pos ga.
  - apply Hc.
  - cbn [ungroup flat_map app match_nodes].
    apply match_atom_agree. intros p r. apply IH.
  - cbn [ungroup flat_map match_nodes].
    apply atoms_agree. intros p r. apply IH.
Qed.

End Ungroup.

(** With or without the group, an attempt ends at the same place. *)
Lemma ungroup_end (re : regex) (s : str) :
  option_map hit_end (match_here re s) = option_map hit_end (match_here (ungroup re) s).
Proof.
  unfold match_here. apply (ungroup_agree hit_end hit_end).
  intros p g1 g2 r. reflexivity.
Qed.

Lemma ungroup_unmatched (re : regex) (pre rest : str) :
  unmatched re pre rest -> unmatched (ungroup re) pre rest.
Proof.
  intros Hu p1 c p2 E. specialize (Hu p1 c p2 E).
  pose proof (ungroup_end re (c :: p2 ++ rest)) as He.
  rewrite Hu in He. destruct (match_here (ungroup re) (c :: p2 ++ rest)); [discriminate | reflexivity].
Qed.

(** *** A greedy run that the rest of the pattern accepts *)

(** When the characters of [run] are in [k], what follows is not, and the
    rest of the pattern succeeds after the whole of [run], the greedy run
    takes all of [run]. *)
Lemma greedy_run {R} (k : cset) (run rest : str) (pos : nat)
    (cont : nat -> str -> option R) (r : R) :
  Forall (fun c => cset_mem k c = true) run ->
  match rest with c :: _ => cset_mem k c = false | [] => True end ->
  cont (pos + List.length run)%nat rest = Some r ->
  greedy k (run ++ rest) pos cont = Some r.
Proof.
  intros Hrun Hrest. revert pos.
  induction Hrun as [|c run Hc Hrun IH]; intros pos Hcont.
  - cbn [app List.length] in *. rewrite Nat.add_0_r in Hcont.
    destruct rest as [|c rest]; cbn [greedy]; [assumption|].
    now rewrite Hrest.
  - cbn [app greedy]. rewrite Hc, (IH (S pos)); [reflexivity|].
    cbn [List.length] in Hcont. now rewrite Nat.add_succ_r in Hcont.
Qed.

Lemma firstn_exact {X} (l l' : list X) : firstn (List.length l) (l ++ l') = l.
Proof. induction l as [|x l IH]; [reflexivity|]. cbn. now rewrite IH. Qed.

Lemma skipn_exact {X} (l l' : list X) : skipn (List.length l) (l ++ l') = l'.
Proof. induction l as [|x l IH]; [reflexivity|]. exact IH. Qed.

(** *** Replacement templates *)

Lemma expand_app (t1 t2 : list piece) (whole : str) :
  expand (t1 ++ t2) whole = expand t1 whole ++ expand t2 whole.
Proof. unfold expand. apply flat_map_app. Qed.

Lemma expand_literals (s whole : str) : expand (map Literal s) whole = s.
Proof. induction s as [|c s IH]; [reflexivity|]. cbn. now rewrite <- IH at 2. Qed.

Lemma token_plain (c : ascii) (s : str) :
  c <> backslash -> template_token (c :: s) = Some ([Literal c], s).
Proof.
  intros Hc. cbn [template_token].
  destruct (Ascii.eqb_spec c backslash); [contradiction | reflexivity].
Qed.

Lemma parse_prefix (pre s : str) (fuel : nat) :
  ~ In backslash pre ->
  parse_template (List.length pre + fuel) (pre ++ s)
  = option_map (app (map Literal pre)) (parse_template fuel s).
Proof.
  induction pre as [|c pre IH]; intros Hp.
  - cbn. destruct (parse_template fuel s); reflexivity.
  - cbn [List.length app Nat.add parse_template].
    rewrite token_plain by (intros ->; apply Hp; now left).
    rewrite IH by (intros H; apply Hp; now right).
    destruct (parse_template fuel s); reflexivity.
Qed.

Lemma parse_plain (s : str) :
  ~ In backslash s -> template s = Some (map Literal s).
Proof.
  intros Hs. unfold template.
  pose proof (parse_prefix s [] 0 Hs) as H.
  rewrite app_nil_r, Nat.add_0_r in H. rewrite H. cbn. now rewrite app_nil_r.
Qed.

Lemma until_gt_end (s name rest : str) :
  until_gt (s ++ [dquote]) = Some (name, rest) ->
  exists r, rest = r ++ [dquote].
Proof.
  revert name rest. induction s as [|c s IH]; intros name rest; cbn [app until_gt].
  - cbn. discriminate.
  - destruct (Ascii.eqb c ">").
    + intros [= <- <-]. now exists s.
    + destruct (until_gt (s ++ [dquote])) as [[n r]|]; [|discriminate].
      intros [= <- <-]. now apply (IH n).
Qed.

Lemma token_end (s : str) (p : list piece) (rest : str) :
  template_token (s ++ [dquote]) = Some (p, rest) ->
  (exists s', rest = s' ++ [dquote])
  \/ (rest = [] /\ exists p', p = p' ++ [Literal dquote]).
Proof.
  destruct s as [|c s]; cbn [app template_token].
  - cbn. intros [= <- <-]. right. split; [reflexivity|]. now exists [].
  - destruct (negb (Ascii.eqb c backslash)).
    { intros [= <- <-]. left. now exists s. }
    destruct s as [|e s]; cbn [app].
    { cbn. intros [= <- <-]. right. split; [reflexivity|]. now exists [Literal backslash]. }
    destruct (Ascii.eqb e "g").
    { destruct s as [|lt s]; cbn [app]; [cbn; discriminate|].
      destruct (Ascii.eqb lt "<"); [|discriminate].
      destruct (until_gt (s ++ [dquote])) as [[name r]|] eqn:E; [|discriminate].
      destruct (names_group0 name); [|discriminate].
      intros [= <- <-]. left. now apply until_gt_end in E. }
    destruct (Ascii.eqb e "0").
    { destruct s as [|o1 s]; cbn [app].
      - cbn. intros [= <- <-]. left. now exists [].
      - destruct (is_octal o1).
        + destruct s as [|o2 s]; cbn [app].
          * cbn. intros [= <- <-]. left. now exists [].
          * destruct (is_octal o2); intros [= <- <-]; left;
              [now exists s | now exists (o2 :: s)].
        + intros [= <- <-]. left. now exists (o1 :: s). }
    destruct (is_digit e).
    { destruct s as [|o1 [|o2 s]]; cbn [app].
      - discriminate.
      - cbn. rewrite !andb_false_r. discriminate.
      - destruct (is_octal e && is_octal o1 && is_octal o2); [|discriminate].
        destruct (octal_value [e; o1; o2] <=? 255)%Z; [|discriminate].
        intros [= <- <-]. left. now exists s. }
    destruct (escape e).
    { intros [= <- <-]. left. now exists s. }
    destruct (is_letter e); [discriminate|].
    intros [= <- <-]. left. now exists s.
Qed.

Lemma parse_ends (fuel : nat) (s : str) (t : list piece) :
  parse_template fuel (s ++ [dquote]) = Some t ->
  exists t', t = t' ++ [Literal dquote].
Proof.
  revert s t. induction fuel as [|fuel IH]; intros s t.
  - destruct s; cbn; discriminate.
  - destruct (s ++ [dquote]) as [|x y] eqn:E; [now destruct s|].
    cbn [parse_template]. rewrite <- E. clear E x y.
    destruct (template_token (s ++ [dquote])) as [[p rest]|] eqn:Et; [|discriminate].
    destruct (parse_template fuel rest) as [t2|] eqn:Ep; [|discriminate].
    cbn. intros [= <-].
    destruct (token_end _ _ _ Et) as [[s' ->] | [-> [p' ->]]].
    + destruct (IH _ _ Ep) as [t' ->]. exists (p ++ t'). now rewrite app_assoc.
    + destruct fuel; cbn in Ep; injection Ep as <-; exists p'; now rewrite app_nil_r.
Qed.

End ReFacts.

(** ** The version assignment in the manifest *)

Module Assignment.
Import Re Publish ReFacts.

Lemma assignment_text_app (ws1 ws2 v suf : str) (q1 q2 : ascii) :
  assignment_text ws1 ws2 q1 v q2 ++ suf
  = lit "version" ++ ws1 ++ "="%char :: ws2 ++ q1 :: v ++ q2 :: suf.
Proof.
  unfold assignment_text.
  repeat (rewrite <- ?app_assoc; cbn [app]). reflexivity.
Qed.

Lemma assignment_text_length (ws1 ws2 v : str) (q1 q2 : ascii) :
  List.length (assignment_text ws1 ws2 q1 v q2)
  = (10 + List.length ws1 + List.length ws2 + List.length v)%nat.
Proof.
  unfold assignment_text.
  repeat (rewrite ?length_app; cbn [List.length]). 
  change (List.length (lit "version")) with 7%nat. lia.
Qed.

Lemma match_assignment (ws1 ws2 v suf : str) (q1 q2 : ascii) :
  Forall (fun c => is_space c = true) ws1 ->
  Forall (fun c => is_space c = true) ws2 ->
  In q1 quotes -> In q2 quotes ->
  v <> [] ->
  Forall (fun c => ~ In c quotes) v ->
  match_here version_search (assignment_text ws1 ws2 q1 v q2 ++ suf)
  = Some (Hit (List.length (assignment_text ws1 ws2 q1 v q2))
              (Some (9 + List.length ws1 + List.length ws2,
                     9 + List.length ws1 + List.length ws2 + List.length v)%nat)).
Proof.
  intros H1 H2 Hq1 Hq2 Hv Hnq.
  rewrite assignment_text_app, assignment_text_length.
  assert (Hm1 : mem q1 quotes = true).
  { destruct Hq1 as [<-|[<-|[]]]; reflexivity. }
  assert (Hm2 : mem q2 quotes = true).
  { destruct Hq2 as [<-|[<-|[]]]; reflexivity. }
  assert (Hs1 : is_space q1 = false).
  { destruct Hq1 as [<-|[<-|[]]]; reflexivity. }
  assert (Hmv : Forall (fun c => cset_mem (NoneOf quotes) c = true) v).
  { eapply Forall_impl; [|exact Hnq]. intros c Hc. cbn [cset_mem].
    destruct (mem c quotes) eqn:E; [|reflexivity].
    exfalso. apply Hc. unfold mem in E. apply existsb_exists in E.
    destruct E as (x & Hx & Ex). apply Ascii.eqb_eq in Ex. now subst. }
  destruct v as [|c v]; [congruence|].
  inversion Hmv as [|? ? Hc Hv']; subst.
  unfold match_here, version_search.
  cbn -[greedy mem].
  apply greedy_run; [exact H1 | reflexivity |].
  cbn -[greedy mem].
  apply greedy_run; [exact H2 | exact Hs1 |].
  cbn -[greedy mem].
  cbn [cset_mem] in Hc. rewrite Hm1, Hc.
  apply greedy_run; [exact Hv' | cbn [cset_mem]; now rewrite Hm2 |].
  cbn beta iota. rewrite Hm2. cbn [List.length].
  f_equal. f_equal; [lia|]. f_equal. f_equal; lia.
Qed.

(** What [re.search] hands back for such an assignment. *)
Lemma cut_assignment (pre ws1 ws2 v suf : str) (q1 q2 : ascii) :
  cut pre (assignment_text ws1 ws2 q1 v q2 ++ suf)
    (Hit (List.length (assignment_text ws1 ws2 q1 v q2))
         (Some (9 + List.length ws1 + List.length ws2,
                9 + List.length ws1 + List.length ws2 + List.length v)%nat))
  = Found pre (assignment_text ws1 ws2 q1 v q2) v suf.
Proof.
  unfold cut. cbn [hit_end hit_group slice].
  rewrite firstn_exact, skipn_exact. f_equal.
  replace (9 + List.length ws1 + List.length ws2 + List.length v
           - (9 + List.length ws1 + List.length ws2))%nat
    with (List.length v) by lia.
  replace (assignment_text ws1 ws2 q1 v q2 ++ suf)
    with ((lit "version" ++ ws1 ++ "="%char :: ws2 ++ [q1]) ++ v ++ q2 :: suf).
  - replace (9 + List.length ws1 + List.length ws2)%nat
      with (List.length (lit "version" ++ ws1 ++ "="%char :: ws2 ++ [q1])).
    + now rewrite skipn_exact, firstn_exact.
    + repeat (rewrite ?length_app; cbn [List.length]).
      change (List.length (lit "version")) with 7%nat. lia.
  - rewrite assignment_text_app.
    repeat (rewrite <- ?app_assoc; cbn [app]). reflexivity.
Qed.

(** The characters of the new version come from the old one, or are those of
    a printed integer. *)
Lemma increment_chars (v new_version : str) (c : ascii) :
  increment v = Bumped new_version ->
  In c new_version ->
  In c v \/ is_digit c = true \/ c = "-"%char.
Proof.
  unfold increment. fold dot.
  pose proof (join_split dot v) as Hj.
  destruct (Py.split dot v) as [|major [|minor [|patch [|x l]]]]; try discriminate.
  destruct (Py.int patch) as [n|]; [|discriminate].
  destruct (Py.str_of_int (n + 1)) as [new_patch|] eqn:Es; [|discriminate].
  apply IntFacts.str_of_int_some in Es. destruct Es as [_ ->].
  intros [= <-]. unfold fmt. cbn [List.concat]. rewrite app_nil_r.
  cbn [Py.join] in Hj. rewrite <- Hj.
  pose proof (IntFacts.decimal_chars (n + 1)) as Hd.
  rewrite Forall_forall in Hd. specialize (Hd c).
  cbn [lit list_ascii_of_string app]. intros H.
  repeat (rewrite ?in_app_iff in H; cbn [In] in H).
  repeat (rewrite ?in_app_iff; cbn [In]).
  intuition (subst; auto).
Qed.

Lemma increment_keeps_plain (v new_version : str) :
  increment v = Bumped new_version ->
  ~ In backslash v -> ~ In backslash new_version.
Proof.
  intros Hi Hv Hn.
  destruct (increment_chars v new_version backslash Hi Hn) as [H|[H|H]];
    [contradiction | discriminate H | discriminate H].
Qed.

(** The replacement starts with the canonical left-hand side and opening
    quote and ends with the closing quote, whatever the template does to the
    version in between. *)
Lemma assignment_template (new_version : str) (t : list piece) :
  template (assignment new_version) = Some t ->
  exists inner,
    t = map Literal (lit "version = " ++ [dquote]) ++ inner ++ [Literal dquote]
    /\ (~ In backslash new_version -> inner = map Literal new_version).
Proof.
  unfold template.
  assert (E : assignment new_version
              = (lit "version = " ++ [dquote]) ++ new_version ++ [dquote]).
  { unfold assignment, fmt. cbn [List.concat]. rewrite app_nil_r.
    now rewrite <- app_assoc. }
  rewrite E, length_app.
  rewrite parse_prefix by (cbn; intuition discriminate).
  destruct (parse_template _ (new_version ++ [dquote])) as [t2|] eqn:Ep; [|discriminate].
  cbn [option_map]. intros [= <-].
  destruct (parse_ends _ _ _ Ep) as [inner ->].
  exists inner. split; [reflexivity|].
  intros Hplain.
  assert (Hp : ~ In backslash (new_version ++ [dquote])).
  { rewrite in_app_iff. cbn. intuition discriminate. }
  pose proof (parse_plain _ Hp) as Ht. unfold template in Ht.
  rewrite Ht in Ep. injection Ep as Ep.
  rewrite map_app in Ep. cbn [map] in Ep.
  now apply app_inv_tail in Ep.
Qed.

(** *** Positions only grow *)

Lemma greedy_called {R} (k : cset) (s : str) (pos : nat)
    (cont : nat -> str -> option R) (r : R) :
  greedy k s pos cont = Some r ->
  exists p s', (pos <= p)%nat /\ cont p s' = Some r.
Proof.
  revert pos. induction s as [|c s IH]; intros pos; cbn [greedy].
  - intros H. now exists pos, [].
  - destruct (cset_mem k c).
    + destruct (greedy k s (S pos) cont) as [x|] eqn:E.
      * intros [= ->]. destruct (IH _ E) as (p & s' & Hp & Hc).
        exists p, s'. split; [lia | assumption].
      * intros H. now exists pos, (c :: s).
    + intros H. now exists pos, (c :: s).
Qed.

Lemma match_atom_called {R} (a : atom) (s : str) (pos : nat)
    (cont : nat -> str -> option R) (r : R) :
  match_atom a s pos cont = Some r ->
  exists p s', (pos <= p)%nat /\ cont p s' = Some r.
Proof.
  unfold match_atom. destruct (snd a).
  - destruct s as [|c s]; [discriminate|].
    destruct (cset_mem (fst a) c); [|discriminate].
    intros H. exists (S pos), s. split; [lia | assumption].
  - apply greedy_called.
  - destruct s as [|c s]; [discriminate|].
    destruct (cset_mem (fst a) c); [|discriminate].
    intros H. destruct (greedy_called _ _ _ _ _ H) as (p & s' & Hp & Hc).
    exists p, s'. split; [lia | assumption].
Qed.

Lemma match_atoms_called {R} (l : list atom) (s : str) (pos : nat)
    (cont : nat -> str -> option R) (r : R) :
  match_atoms l s pos cont = Some r ->
  exists p s', (pos <= p)%nat /\ cont p s' = Some r.
Proof.
  revert s pos. induction l as [|a l IH]; intros s pos; cbn [match_atoms].
  - intros H. now exists pos, s.
  - intros H. destruct (match_atom_called _ _ _ _ _ H) as (p & s' & Hp & Hc).
    destruct (IH _ _ Hc) as (p' & s'' & Hp' & Hc').
    exists p', s''. split; [lia | assumption].
Qed.

Lemma match_nodes_called {R} (re : regex) (s : str) (pos : nat) (g : option (nat * nat))
    (cont : nat -> option (nat * nat) -> str -> option R) (r : R) :
  match_nodes re s pos g cont = Some r ->
  exists p g' s', (pos <= p)%nat /\ cont p g' s' = Some r.
Proof.
  revert s pos g. induction re as [|[a|inner] re IH]; intros s pos g; cbn [match_nodes].
  - intros H. now exists pos, g, s.
  - intros H. destruct (match_atom_called _ _ _ _ _ H) as (p & s' & Hp & Hc).
    destruct (IH _ _ _ Hc) as (p' & g' & s'' & Hp' & Hc').
    exists p', g', s''. split; [lia | assumption].
  - intros H. destruct (match_atoms_called _ _ _ _ _ H) as (p & s' & Hp & Hc).
    destruct (IH _ _ _ Hc) as (p' & g' & s'' & Hp' & Hc').
    exists p', g', s''. split; [lia | assumption].
Qed.

(** A pattern that starts with one plain character matches at least that
    character. *)
Lemma first_atom_positive (k : cset) (re : regex) (s : str) (h : hit) :
  match_here (Atom (k, One) :: re) s = Some h ->
  exists n c s', hit_end h = S n /\ s = c :: s'.
Proof.
  unfold match_here. cbn [match_nodes]. unfold match_atom. cbn [snd fst].
  destruct s as [|c s]; [discriminate|].
  destruct (cset_mem k c); [|discriminate].
  intros H. destruct (match_nodes_called _ _ _ _ _ _ H) as (p & g & s' & Hp & Hc).
  injection Hc as <-. cbn [hit_end].
  destruct p as [|n]; [lia|]. now exists n, c, s.
Qed.

(** A match of the version pattern is never empty. *)
Lemma version_match_positive (s : str) (h : hit) :
  match_here version_search s = Some h ->
  exists n c s', hit_end h = S n /\ s = c :: s'.
Proof. apply first_atom_positive. Qed.

(** *** The rewrite, one match at a time *)

Lemma version_assign_ungroup : version_assign = ungroup version_search.
Proof. reflexivity. Qed.

(** The assignment that [re.search] finds is the first that [re.sub]
    replaces; the text before it is copied, the text after it is processed
    in the same way. *)
Lemma sub_first_match (content : str) (f : found) (t : list piece) :
  search version_search content = Some f ->
  sub_loop version_assign t content 0
  = before f ++ expand t (matched f) ++ sub_loop version_assign t (after f) 0.
Proof.
  intros Hs.
  destruct (search_spec _ _ _ Hs) as (rest & h & E & Hu & Hh & Hf).
  destruct (version_match_positive _ _ Hh) as (k & c & s' & Hk & ->).
  pose proof (ungroup_end version_search (c :: s')) as He.
  rewrite <- version_assign_ungroup, Hh in He. cbn [option_map] in He.
  destruct (match_here version_assign (c :: s')) as [h'|] eqn:Hh'; [|discriminate].
  injection He as He.
  rewrite E at 1.
  rewrite sub_loop_prefix
    by (rewrite version_assign_ungroup; now apply ungroup_unmatched).
  f_equal.
  rewrite (sub_loop_hit _ _ _ _ h' k Hh') by congruence.
  rewrite Hf. cbn [cut matched after]. now rewrite Hk.
Qed.

End Assignment.

(** ** Rewriting the manifest *)

Section Rewrite.
Import Re ReFacts Assignment.

Lemma search_from_none (re : regex) (s p : str) :
  search_from re p s = None -> unmatched re s [].
Proof.
  revert p. induction s as [|c s IH]; intros p; cbn [search_from].
  - intros _. apply unmatched_nil.
  - destruct (match_here re (c :: s)) eqn:E; [discriminate|].
    intros Hs [|x p1] y p2 Hp; injection Hp as -> Hp.
    + subst s. now rewrite app_nil_r.
    + now apply (IH _ Hs p1 y p2).
Qed.

(** Text without an assignment is left as it is. *)
Lemma sub_loop_none (t : list piece) (s : str) :
  search version_search s = None ->
  sub_loop version_assign t s 0 = s.
Proof.
  intros Hs. apply search_from_none in Hs.
  rewrite <- (app_nil_r s) at 1.
  rewrite sub_loop_prefix; [now rewrite app_nil_r|].
  rewrite version_assign_ungroup. now apply ungroup_unmatched.
Qed.

(** A manifest with a single assignment: that assignment is replaced and
    every character around it is kept. *)
Lemma single_assignment_rewrite (content new_version : str) (f : found) :
  search version_search content = Some f ->
  search version_search (after f) = None ->
  ~ In backslash new_version ->
  sub version_assign (Publish.assignment new_version) content
  = Some (before f ++ Publish.assignment new_version ++ after f).
Proof.
  intros Hs Hafter Hplain. unfold sub.
  rewrite parse_plain.
  - rewrite (sub_first_match content f _ Hs), expand_literals.
    now rewrite sub_loop_none.
  - unfold Publish.assignment, fmt. cbn [List.concat].
    repeat (rewrite ?in_app_iff; cbn [In lit list_ascii_of_string]).
    intuition discriminate.
Qed.

End Rewrite.

(** Whatever the version, a rewrite that succeeds puts [version = ], a double
    quote, some text and a double quote in the place of the first
    assignment. *)
Lemma rewritten_assignment_is_quoted (pre ws1 ws2 v suf : str) (q1 q2 : ascii)
    (f : Re.found) (new_version new_content : str) :
  Forall (fun c => is_space c = true) ws1 ->
  Forall (fun c => is_space c = true) ws2 ->
  In q1 quotes -> In q2 quotes ->
  v <> [] ->
  Forall (fun c => ~ In c quotes) v ->
  Re.search version_search (pre ++ assignment_text ws1 ws2 q1 v q2 ++ suf) = Some f ->
  Re.before f = pre ->
  Re.sub version_assign (assignment new_version)
    (pre ++ assignment_text ws1 ws2 q1 v q2 ++ suf) = Some new_content ->
  exists inner rest,
    new_content = pre ++ lit "version = " ++ [dquote] ++ inner ++ [dquote] ++ rest.
Proof.
  intros H1 H2 Hq1 Hq2 Hv Hnq Hs Hpre Hsub.
  destruct (ReFacts.search_spec _ _ _ Hs) as (rest0 & h & E & _ & Hh & Hf).
  rewrite Hpre in E, Hf. apply app_inv_head in E. subst rest0.
  rewrite (Assignment.match_assignment ws1 ws2 v suf q1 q2 H1 H2 Hq1 Hq2 Hv Hnq) in Hh.
  injection Hh as <-. rewrite Assignment.cut_assignment in Hf.
  unfold Re.sub in Hsub.
  destruct (Re.template (assignment new_version)) as [t|] eqn:Et; [|discriminate].
  injection Hsub as <-.
  destruct (Assignment.assignment_template _ _ Et) as (inner & -> & _).
  rewrite (Assignment.sub_first_match _ f _ Hs), Hf.
  cbn [Re.before Re.matched Re.after].
  rewrite !ReFacts.expand_app, ReFacts.expand_literals.
  change (Re.expand [Re.Literal dquote] (assignment_text ws1 ws2 q1 v q2))
    with [dquote].
  exists (Re.expand inner (assignment_text ws1 ws2 q1 v q2)).
  eexists. rewrite <- !app_assoc. reflexivity.
Qed.

(** C10, as amended.  Take a manifest in which the first assignment that the
    pattern finds is written with any white space around the equals sign and
    with either quote on either side, and whose version holds no backslash and
    can be incremented.  The search extracts the text between the quotes, and
    the one file that the run writes has, in the place of that assignment,
    [version = ] followed by the new version between double quotes: one blank
    on each side of the equals sign, whatever was there before. *)
Theorem rewrite_is_canonical (w : world) (pre ws1 ws2 v suf : str) (q1 q2 : ascii)
    (f : Re.found) (new_version : str) :
  Forall (fun c => is_space c = true) ws1 ->
  Forall (fun c => is_space c = true) ws2 ->
  In q1 quotes -> In q2 quotes ->
  v <> [] ->
  Forall (fun c => ~ In c quotes) v ->
  pyproject_toml w = Some (pre ++ assignment_text ws1 ws2 q1 v q2 ++ suf) ->
  Re.search version_search (pre ++ assignment_text ws1 ws2 q1 v q2 ++ suf) = Some f ->
  Re.before f = pre ->
  increment v = Bumped new_version ->
  ~ In backslash v ->
  Re.group1 f = v
  /\ exists rest,
       writes (main w)
       = [pre ++ lit "version = " ++ dquote :: new_version ++ dquote :: rest].
Proof.
  intros H1 H2 Hq1 Hq2 Hv Hnq Hm Hs Hpre Hi Hplain.
  destruct (ReFacts.search_spec _ _ _ Hs) as (rest0 & h & E & _ & Hh & Hf).
  rewrite Hpre in E, Hf. apply app_inv_head in E. subst rest0.
  rewrite (Assignment.match_assignment ws1 ws2 v suf q1 q2 H1 H2 Hq1 Hq2 Hv Hnq) in Hh.
  injection Hh as <-. rewrite Assignment.cut_assignment in Hf.
  assert (Hg : Re.group1 f = v) by now rewrite Hf.
  split; [exact Hg|].
  assert (Hnew : ~ In backslash (assignment new_version)).
  { pose proof (Assignment.increment_keeps_plain v new_version Hi Hplain) as Hn.
    unfold assignment, fmt. cbn [List.concat].
    repeat (rewrite ?in_app_iff; cbn [In lit list_ascii_of_string]).
    intuition discriminate. }
  assert (Hsub : exists rest,
             Re.sub version_assign (assignment new_version)
               (pre ++ assignment_text ws1 ws2 q1 v q2 ++ suf)
             = Some (pre ++ lit "version = " ++ dquote :: new_version ++ dquote :: rest)).
  { unfold Re.sub. rewrite (ReFacts.parse_plain _ Hnew).
    rewrite (Assignment.sub_first_match _ f _ Hs), Hf.
    cbn [Re.before Re.matched Re.after].
    rewrite ReFacts.expand_literals. eexists. do 2 f_equal.
    unfold assignment, fmt. cbn [List.concat].
    repeat (rewrite <- ?app_assoc; cbn [app]). reflexivity. }
  destruct Hsub as (rest & Hsub). exists rest.
  rewrite <- Hg in Hi.
  destruct (Flow.main_shape w) as (tail & -> & Htail).
  rewrite Flow.writes_app, (Flow.harmless_writes tail Htail), app_nil_r.
  rewrite (Flow.body_bumped w _ new_version _ f banner Hm Hs Hi Hsub).
  apply (Flow.release_writes w new_version
           [pre ++ lit "version = " ++ dquote :: new_version ++ dquote :: rest]).
  unfold Flow.written. rewrite Flow.writes_app.
  now rewrite (Flow.harmless_writes banner Flow.banner_harmless).
Qed.

(** ** The rewrite on examples *)

Lemma rewrite_is_canonical_witness :
  Re.group1
    (Re.Found (lit "[project]" ++ [newline])
       (assignment_text (lit "  ") [] squote (lit "0.9.9") dquote)
       (lit "0.9.9") [newline])
  = lit "0.9.9"
  /\ exists rest,
       writes (main Scenario.loose_project)
       = [(lit "[project]" ++ [newline])
          ++ lit "version = " ++ dquote :: lit "0.9.10" ++ dquote :: rest].
Proof.
  apply (rewrite_is_canonical Scenario.loose_project
           (lit "[project]" ++ [newline]) (lit "  ") []
           (lit "0.9.9") [newline] squote dquote
           (Re.Found (lit "[project]" ++ [newline])
              (assignment_text (lit "  ") [] squote (lit "0.9.9") dquote)
              (lit "0.9.9") [newline])
           (lit "0.9.10")).
  - repeat constructor.
  - constructor.
  - right. now left.
  - now left.
  - discriminate.
  - repeat constructor; cbn; intuition discriminate.
  - reflexivity.
  - vm_compute. reflexivity.
  - reflexivity.
  - vm_compute. reflexivity.
  - cbn. intuition discriminate.
Defined.

(** C10, as stated, at a version with a backslash.  The pattern matches the
    assignment and the version is incremented, but [re.sub] reads the new
    assignment as a template, in which a backslash before the letter d is an
    error: nothing is written, in whatever form. *)
Lemma escaped_version_is_not_rewritten :
  Re.search version_search (Scenario.project (lit "1\d.2.3"))
  = Some (Scenario.project_match (lit "1\d.2.3"))
  /\ increment (lit "1\d.2.3") = Bumped (lit "1\d.2.4")
  /\ Re.sub version_assign (assignment (lit "1\d.2.4")) (Scenario.project (lit "1\d.2.3"))
     = None
  /\ writes (main Situation.escaped) = [].
Proof. vm_compute. repeat split; reflexivity. Qed.

(** A reference to a group in the version is expanded: the old assignment
    ends up inside the new one. *)
Example group_reference_is_expanded :
  Re.sub version_assign (assignment (lit "1\g<0>.2.4"))
    (Scenario.project (lit "1\g<0>.2.3"))
  = Some (Scenario.project
            (lit "1" ++ assignment_text (lit " ") (lit " ") dquote (lit "1\g<0>.2.3") dquote
             ++ lit ".2.4")).
Proof. vm_compute. reflexivity. Qed.

(** The loose assignment of the scenario comes out with single blanks and
    double quotes. *)
Example loose_assignment_is_normalised :
  Re.sub version_assign (assignment (lit "0.9.10")) Scenario.loose
  = Some (fmt [lit "[project]"; [newline];
               lit "version = "; [dquote]; lit "0.9.10"; [dquote]; [newline]]).
Proof. vm_compute. reflexivity. Qed.

(** C2, at a manifest with a second matching assignment: [re.sub] is called
    without a count, so the setting of the type checker is overwritten with
    the package version as well. *)
Theorem second_assignment_is_overwritten :
  Re.search version_search (Scenario.with_mypy (lit "1.2.3") (lit "3.8"))
  = Some (Re.Found
            (fmt [lit "[project]"; [newline];
                  lit "name = "; [dquote]; lit "airobo"; [dquote]; [newline]])
            (fmt [lit "version = "; [dquote]; lit "1.2.3"; [dquote]])
            (lit "1.2.3")
            (fmt [[newline; newline]; lit "[tool.mypy]"; [newline];
                  lit "python_version = "; [dquote]; lit "3.8"; [dquote]; [newline]]))
  /\ writes (main Scenario.two_assignments)
     = [Scenario.with_mypy (lit "1.2.4") (lit "1.2.4")].
Proof. split; vm_compute; reflexivity. Qed.

(** ** Base64 reads back what it wrote *)

Module Base64Facts.
Import Base64.

Lemma value_range (b : byte) : 0 <= value b < 256.
Proof.
  unfold value. pose proof (Byte.to_N_bounded b) as H. lia.
Qed.

Lemma byte_of_value (b : byte) : byte_of (value b) = b.
Proof.
  unfold byte_of, value. now rewrite N2Z.id, Byte.of_to_N.
Qed.

Lemma below_64 (P : Z -> Prop) :
  (forall k : nat, (k < 64)%nat -> P (Z.of_nat k)) ->
  forall n, 0 <= n < 64 -> P n.
Proof.
  intros H n Hn. rewrite <- (Z2Nat.id n) by lia. apply H. lia.
Qed.

Lemma digit_index_digit (n : Z) :
  0 <= n < 64 ->
  digit_index (digit n) = Some n /\ Ascii.eqb (digit n) pad = false.
Proof.
  revert n. apply below_64. intros k Hk.
  do 64 (destruct k as [|k]; [vm_compute; split; reflexivity|]).
  lia.
Qed.

Lemma triples_ind {X} (P : list X -> Prop) :
  P [] -> (forall a, P [a]) -> (forall a b, P [a; b]) ->
  (forall a b c l, P l -> P (a :: b :: c :: l)) ->
  forall l, P l.
Proof.
  intros H0 H1 H2 H3.
  fix IH 1. intros [|a [|b [|c l]]].
  - exact H0.
  - apply H1.
  - apply H2.
  - apply H3. apply IH.
Qed.

Ltac digits_of_group :=
  repeat match goal with
  | |- context [digit_index (digit ?x)] =>
      let H := fresh in
      assert (H : 0 <= x < 64) by (Z.to_euclidean_division_equations; lia);
      destruct (digit_index_digit x H) as [-> ?]; clear H
  end.

Lemma byte_of_eq (n : Z) (b : byte) : n = value b -> byte_of n = b.
Proof. intros ->. apply byte_of_value. Qed.

Ltac same_byte := apply byte_of_eq; Z.to_euclidean_division_equations; lia.

Lemma b64decode_b64encode (data : list byte) :
  b64decode (b64encode data) = Some data.
Proof.
  induction data as [|a|a b|a b c l IH] using triples_ind.
  - reflexivity.
  - pose proof (value_range a) as Ha.
    cbn [b64encode b64decode].
    digits_of_group.
    change (Ascii.eqb pad pad) with true. cbv iota.
    do 2 f_equal. same_byte.
  - pose proof (value_range a) as Ha. pose proof (value_range b) as Hb.
    cbn [b64encode b64decode].
    digits_of_group.
    change (Ascii.eqb pad pad) with true. cbv iota.
    match goal with H : Ascii.eqb (digit (_ mod 16 * 4)) pad = false |- _ => rewrite H end.
    f_equal. f_equal; [|f_equal]; same_byte.
  - pose proof (value_range a) as Ha. pose proof (value_range b) as Hb.
    pose proof (value_range c) as Hc.
    cbn [b64encode b64decode].
    digits_of_group.
    match goal with H : Ascii.eqb (digit (_ mod 64)) pad = false |- _ => rewrite H end.
    rewrite IH.
    f_equal. f_equal; [|f_equal; [|f_equal]]; same_byte.
Qed.

End Base64Facts.

(** ** What base64 text is made of *)

Module Payload.
Import Base64 Base64Facts.

Lemma digit_plain (n : Z) : In (digit n) alphabet \/ digit n = pad.
Proof.
  unfold digit.
  destruct (nth_in_or_default (Z.to_nat n) alphabet pad) as [H|H]; [now left | now right].
Qed.

Lemma b64encode_chars (data : list byte) :
  Forall (fun c => In c alphabet \/ c = pad) (b64encode data).
Proof.
  induction data as [|a|a b|a b c l IH] using triples_ind; cbn [b64encode].
  - constructor.
  - constructor; [apply digit_plain|]. constructor; [apply digit_plain|].
    constructor; [now right|]. constructor; [now right | constructor].
  - constructor; [apply digit_plain|]. constructor; [apply digit_plain|].
    constructor; [apply digit_plain|]. constructor; [now right | constructor].
  - constructor; [apply digit_plain|]. constructor; [apply digit_plain|].
    constructor; [apply digit_plain|]. constructor; [apply digit_plain | exact IH].
Qed.

Lemma b64encode_length (data : list byte) :
  List.length (b64encode data) = (4 * ((List.length data + 2) / 3))%nat.
Proof.
  induction data as [|a|a b|a b c l IH] using triples_ind; cbn [b64encode].
  - reflexivity.
  - reflexivity.
  - reflexivity.
  - cbn [List.length]. rewrite IH.
    replace (S (S (S (List.length l))) + 2)%nat with (List.length l + 2 + 1 * 3)%nat by lia.
    rewrite Nat.div_add by lia. lia.
Qed.

End Payload.

(** ** The head of the PNG file reads back *)

Module PngFacts.
Import Base64 Png.

Lemma value_byte_of (n : Z) : 0 <= n < 256 -> value (byte_of n) = n.
Proof.
  intros Hn. unfold value, byte_of.
  destruct (Byte.of_N (Z.to_N n)) as [b|] eqn:E.
  - apply Byte.to_of_N in E. rewrite E. lia.
  - apply Byte.of_N_None_iff in E. lia.
Qed.

Lemma be_value_be32 (n : Z) : 0 <= n < 2 ^ 32 -> be_value (be32 n) = n.
Proof.
  intros Hn. unfold be_value, be32. cbn [map fold_left].
  rewrite !value_byte_of by (Z.to_euclidean_division_equations; lia).
  Z.to_euclidean_division_equations; lia.
Qed.

Lemma bytes_are_same (bytes : list byte) : bytes_are bytes (map value bytes) = true.
Proof. unfold bytes_are. now destruct (list_eq_dec Z.eq_dec _ _). Qed.

(** A file that starts with the head that Pillow writes reads back with the
    size in that head, whatever follows. *)
Lemma read_size_head (w h : Z) (rest : list byte) :
  0 <= w < 2 ^ 32 -> 0 <= h < 2 ^ 32 ->
  read_size (head (w, h) ++ rest) = Some (w, h).
Proof.
  intros Hw Hh. unfold read_size.
  cbn [head chunk be32 magic ihdr map app firstn skipn List.length fst snd].
  rewrite !bytes_are_same.
  match goal with |- context [?x =? 13] => change (x =? 13) with true end.
  change (13 =? 13)%nat with true. cbn [andb].
  f_equal. f_equal; [apply (be_value_be32 w Hw) | apply (be_value_be32 h Hh)].
Qed.

(** The check sum is the one of [zlib]: the closing chunk of every PNG file
    carries this one. *)
Example crc32_of_iend : crc32 (map byte_of [73; 69; 78; 68]) = 2923585666.
Proof. vm_compute. reflexivity. Qed.

End PngFacts.

(** ** The size of the embedded image *)

Module ConvertFacts.
Import Base64 Convert.

(** The two candidates of [round_aspect] for a positive quotient. *)
Lemma round_aspect_near (number : Q) (lower : bool) (a : Z) (b : positive) :
  (number == a # b)%Q ->
  0 < a ->
  let r := round_aspect number lower in
  1 <= r /\ Z.abs (r * Z.pos b - a) < Z.pos b
  /\ (forall m, 1 <= m -> a <= m * Z.pos b -> r <= m).
Proof.
  intros E Ha r. subst r. unfold round_aspect.
  rewrite (Qfloor_comp _ _ E), (Qceiling_comp _ _ E).
  unfold Qceiling, Qfloor. cbn [Qopp Qnum Qden].
  set (c := if lower then _ else _).
  assert (Hc : c = a / Z.pos b \/ c = - (- a / Z.pos b)).
  { subst c. destruct lower; [now left | now right]. }
  clearbody c.
  split; [lia|]. split.
  - destruct Hc as [-> | ->]; Z.to_euclidean_division_equations; nia.
  - intros m Hm Hle. destruct Hc as [-> | ->]; Z.to_euclidean_division_equations; nia.
Qed.

Lemma fits_or_not (w h : Z) :
  ((max_size >=? w) && (max_size >=? h) = true <-> Z.max w h <= max_size).
Proof. unfold max_size. rewrite andb_true_iff, !Z.geb_le. lia. Qed.

Section Sizes.
Context {raster : Type} `{Pillow raster}.

Lemma thumbnail_size (w h : Z) :
  0 < w -> 0 < h -> max_size < Z.max w h ->
  exists w' h',
    preserve_aspect_ratio (max_size, max_size) (w, h) = Some (w', h')
    /\ Z.max w' h' = max_size
    /\ 1 <= w' /\ 1 <= h'
    /\ Z.abs (w' * h - h' * w) < Z.max w h.
Proof.
  intros Hw Hh Hbig.
  destruct w as [|pw|pw]; try lia. destruct h as [|ph|ph]; try lia.
  unfold preserve_aspect_ratio.
  destruct ((max_size >=? Z.pos pw) && (max_size >=? Z.pos ph)) eqn:Efit.
  { apply fits_or_not in Efit. lia. }
  clear Efit.
  set (aspect := (inject_Z (Z.pos pw) / inject_Z (Z.pos ph))%Q).
  destruct (Qle_bool aspect (inject_Z max_size / inject_Z max_size)) eqn:Ecmp.
  - apply Qle_bool_iff in Ecmp.
    assert (Hle : Z.pos pw <= Z.pos ph).
    { unfold aspect, Qle in Ecmp. cbn in Ecmp. lia. }
    destruct (round_aspect_near (inject_Z max_size * aspect)
                (lower_wins (max_size, max_size) (Z.pos pw, Z.pos ph))
                (max_size * Z.pos pw) ph) as (H1 & H2 & H3).
    { unfold aspect, Qeq. cbn. lia. }
    { unfold max_size. lia. }
    eexists. eexists. split; [reflexivity|].
    specialize (H3 max_size). unfold max_size in *. lia.
  - assert (Hgt : Z.pos ph < Z.pos pw).
    { destruct (Z.lt_ge_cases (Z.pos ph) (Z.pos pw)) as [|Hge]; [assumption|].
      assert (Hq : Qle_bool aspect (inject_Z max_size / inject_Z max_size) = true).
      { apply Qle_bool_iff. unfold aspect, Qle. cbn. lia. }
      congruence. }
    destruct (round_aspect_near (inject_Z max_size / aspect)
                (lower_wins (max_size, max_size) (Z.pos pw, Z.pos ph))
                (max_size * Z.pos ph) pw) as (H1 & H2 & H3).
    { unfold aspect, Qeq. cbn. lia. }
    { unfold max_size. lia. }
    eexists. eexists. split; [reflexivity|].
    specialize (H3 max_size). unfold max_size in *. lia.
Qed.

Lemma size_thumbnail (img : image raster) (provided : Z * Z) :
  size (thumbnail img provided)
  = match preserve_aspect_ratio provided (size img) with
    | Some sz => sz
    | None => size img
    end.
Proof.
  unfold thumbnail.
  destruct (preserve_aspect_ratio provided (size img)) as [[w' h']|]; [|reflexivity].
  cbn [fst snd].
  destruct (Z.eqb_spec w' (fst (size img))) as [Ew|]; [|reflexivity].
  destruct (Z.eqb_spec h' (snd (size img))) as [Eh|]; [|reflexivity].
  cbn [andb]. subst. now destruct (size img).
Qed.

(** Normalising the mode leaves the size alone. *)
Lemma size_rgba (img : image raster) :
  size (if list_eq_dec ascii_dec (mode img) (lit "RGBA") then img
        else convert img (lit "RGBA"))
  = size img.
Proof. now destruct (list_eq_dec ascii_dec (mode img) (lit "RGBA")). Qed.

Lemma size_prepare_icon (img : image raster) :
  size (prepare img (lit "icon"))
  = if Z.max (fst (size img)) (snd (size img)) >? max_size
    then match preserve_aspect_ratio (max_size, max_size) (size img) with
         | Some sz => sz
         | None => size img
         end
    else size img.
Proof.
  unfold prepare.
  destruct (list_eq_dec ascii_dec (lit "icon") (lit "icon")) as [_|Hne];
    [|now destruct Hne].
  rewrite size_rgba.
  destruct (Z.max (fst (size img)) (snd (size img)) >? max_size).
  - now rewrite size_thumbnail, size_rgba.
  - apply size_rgba.
Qed.

Lemma size_prepare_small (img : image raster) (optimize_for : str) :
  fst (size img) <= max_size -> snd (size img) <= max_size ->
  size (prepare img optimize_for) = size img.
Proof.
  intros Hw Hh. unfold prepare. rewrite size_rgba.
  destruct (list_eq_dec ascii_dec optimize_for (lit "icon")); [|apply size_rgba].
  destruct (Z.gtb_spec (Z.max (fst (size img)) (snd (size img))) max_size) as [Hgt|_];
    [lia | apply size_rgba].
Qed.

(** The size of the image that is embedded: the size of the source, or a
    size of 512 at most on both sides. *)
Lemma size_prepare_cases (img : image raster) (optimize_for : str) :
  0 < fst (size img) -> 0 < snd (size img) ->
  size (prepare img optimize_for) = size img
  \/ (1 <= fst (size (prepare img optimize_for)) <= max_size
      /\ 1 <= snd (size (prepare img optimize_for)) <= max_size).
Proof.
  intros Hw Hh.
  destruct (list_eq_dec ascii_dec optimize_for (lit "icon")) as [->|Hother].
  - rewrite size_prepare_icon.
    destruct (Z.gtb_spec (Z.max (fst (size img)) (snd (size img))) max_size)
      as [Hbig|_]; [|now left].
    right. destruct (size img) as [w h]. cbn [fst snd] in *.
    destruct (thumbnail_size w h Hw Hh Hbig) as (w' & h' & -> & H1 & H2 & H3 & H4).
    cbn [fst snd]. lia.
  - left. unfold prepare.
    destruct (list_eq_dec ascii_dec optimize_for (lit "icon")); [contradiction|].
    apply size_rgba.
Qed.

End Sizes.

(** *** The text of the document *)

Lemma root_declares_content (d : svg) :
  Claimed.root_declares (svg_content d) (width d) (height d).
Proof.
  unfold Claimed.root_declares. eexists.
  unfold svg_content, attr, fmt.
  cbn [List.concat lit list_ascii_of_string].
  repeat (rewrite <- ?app_assoc; cbn [app]).
  reflexivity.
Qed.

Lemma embeds_content (d : svg) :
  ~ In dquote (png_base64 d) -> Claimed.embeds (svg_content d) (png_base64 d).
Proof.
  intros Hplain. split; [exact Hplain|].
  exists (fmt [lit "<?xml "; attr "version" (lit "1.0"); lit " ";
               attr "encoding" (lit "UTF-8"); lit "?>"; [newline];
               lit "<svg "; attr "width" (Py.decimal (width d)); lit " ";
               attr "height" (Py.decimal (height d)); lit " ";
               attr "viewBox" (fmt [lit "0 0 "; Py.decimal (width d); lit " ";
                                    Py.decimal (height d)]); lit " "; [newline];
               lit "     "; attr "xmlns" (lit "http://www.w3.org/2000/svg"); lit " ";
               attr "xmlns:xlink" (lit "http://www.w3.org/1999/xlink"); lit ">";
               [newline];
               lit "  <title>AI & Robotics Academy - "; title (category d);
               lit "</title>"; [newline];
               lit "  <desc>Vector version of "; source_name d;
               lit " for perfect scaling</desc>"; [newline];
               lit "  "; [newline];
               lit "  <!-- Embedded high-quality PNG data -->"; [newline];
               lit "  <image "; attr "x" (lit "0"); lit " "; attr "y" (lit "0"); lit " ";
               attr "width" (Py.decimal (width d)); lit " ";
               attr "height" (Py.decimal (height d)); lit " "; [newline];
               lit "         "]).
  unfold svg_content, attr, fmt.
  cbn [List.concat lit list_ascii_of_string].
  repeat (rewrite <- ?app_assoc; cbn [app]).
  reflexivity.
Qed.

(** No base64 text holds a double quote. *)
Lemma b64encode_plain (data : list Base64.byte) : ~ In dquote (b64encode data).
Proof.
  intros Hin.
  pose proof (Payload.b64encode_chars data) as Hc. rewrite Forall_forall in Hc.
  destruct (Hc _ Hin) as [Ha|Hp]; [|discriminate Hp].
  revert Ha. vm_compute. intuition discriminate.
Qed.

End ConvertFacts.

(** ** The converter *)

Import Convert.

(** C7. For an icon whose longer side exceeds 512, the image that is embedded
    has a width and a height of which the larger is 512 and the smaller is
    within one pixel of the exactly scaled side, and at least 1, and the
    document opens with a root element that declares this width and this
    height.  For an image that fits in 512 by 512, of any category, the root
    element declares the width and the height of the image. *)
Theorem declared_size {raster : Type} `{Pillow raster} (img : image raster)
    (name optimize_for : str) :
  (optimize_for = lit "icon" ->
   0 < fst (size img) -> 0 < snd (size img) ->
   max_size < Z.max (fst (size img)) (snd (size img)) ->
   exists w' h',
     size (prepare img optimize_for) = (w', h')
     /\ Claimed.root_declares (svg_content (png_to_svg img name optimize_for)) w' h'
     /\ Z.max w' h' = max_size
     /\ 1 <= w' /\ 1 <= h'
     /\ Z.abs (w' * snd (size img) - h' * fst (size img))
        < Z.max (fst (size img)) (snd (size img)))
  /\ (fst (size img) <= max_size -> snd (size img) <= max_size ->
      Claimed.root_declares (svg_content (png_to_svg img name optimize_for))
        (fst (size img)) (snd (size img))).
Proof.
  split.
  - intros -> Hw Hh Hbig.
    pose proof (ConvertFacts.root_declares_content (png_to_svg img name (lit "icon")))
      as Hroot.
    unfold png_to_svg in Hroot at 2 3. cbn [width height] in Hroot.
    rewrite ConvertFacts.size_prepare_icon in *.
    destruct (Z.gtb_spec (Z.max (fst (size img)) (snd (size img))) max_size) as [_|Hle];
      [|lia].
    destruct (size img) as [w h] eqn:Es. cbn [fst snd] in *.
    destruct (ConvertFacts.thumbnail_size w h Hw Hh Hbig)
      as (w' & h' & E & Hmax & Hw' & Hh' & Hratio).
    rewrite E in *. cbn [fst snd] in Hroot.
    exists w', h'. repeat split; assumption.
  - intros Hw Hh.
    pose proof (ConvertFacts.root_declares_content (png_to_svg img name optimize_for))
      as Hroot.
    unfold png_to_svg in Hroot at 2 3. cbn [width height] in Hroot.
    now rewrite (ConvertFacts.size_prepare_small img optimize_for Hw Hh) in Hroot.
Qed.

Lemma declared_size_witness :
  exists w' h',
    size (prepare (H := Scenario.header_only) Scenario.photo (lit "icon")) = (w', h')
    /\ Claimed.root_declares
      (svg_content (png_to_svg (H := Scenario.header_only) Scenario.photo
                      (lit "appIcon.png") (lit "icon"))) w' h'
    /\ Z.max w' h' = max_size
    /\ 1 <= w' /\ 1 <= h'
    /\ Z.abs (w' * 768 - h' * 1024) < 1024.
Proof.
  destruct (declared_size (H := Scenario.header_only) Scenario.photo
              (lit "appIcon.png") (lit "icon")) as [Hbig _].
  apply Hbig.
  - reflexivity.
  - reflexivity.
  - reflexivity.
  - reflexivity.
Defined.

(** The example of the specification: 1024 by 768 becomes 512 by 384. *)
Example photo_icon_size :
  (width (png_to_svg (H := Scenario.header_only) Scenario.photo
            (lit "appIcon.png") (lit "icon")),
   height (png_to_svg (H := Scenario.header_only) Scenario.photo
             (lit "appIcon.png") (lit "icon")))
  = (512, 384).
Proof. vm_compute. reflexivity. Qed.

(** Whichever candidate Pillow prefers: the scaled side is a whole number. *)
Example photo_icon_size_any {raster : Type} `{Pillow raster} (r : raster) :
  size (prepare (Image (lit "RGB") (1024, 768) r) (lit "icon")) = (512, 384).
Proof.
  rewrite ConvertFacts.size_prepare_icon. cbn [size fst snd].
  unfold preserve_aspect_ratio, round_aspect.
  now destruct (lower_wins (max_size, max_size) (1024, 768)).
Qed.

(** A splash screen is never resized. *)
Example photo_splash_size :
  (width (png_to_svg (H := Scenario.header_only) Scenario.photo
            (lit "splash.png") (lit "splash")),
   height (png_to_svg (H := Scenario.header_only) Scenario.photo
             (lit "splash.png") (lit "splash")))
  = (1024, 768).
Proof. vm_compute. reflexivity. Qed.



(** In the scenario the reader finds 512 by 384 in the decoded payload. *)
Example photo_payload_size :
  option_map Png.read_size
    (Base64.b64decode
       (png_base64 (png_to_svg (H := Scenario.header_only) Scenario.photo
                      (lit "appIcon.png") (lit "icon"))))
  = Some (Some (512, 384)).
Proof. vm_compute. reflexivity. Qed.

(** The document written for the photograph of the scenario, whole. *)
Example photo_document :
  svg_content (png_to_svg (H := Scenario.header_only) Scenario.photo
                 (lit "appIcon.png") (lit "icon"))
  = fmt [lit "<?xml version="; [dquote]; lit "1.0"; [dquote];
         lit " encoding="; [dquote]; lit "UTF-8"; [dquote]; lit "?>"; [newline];
         lit "<svg width="; [dquote]; lit "512"; [dquote];
         lit " height="; [dquote]; lit "384"; [dquote];
         lit " viewBox="; [dquote]; lit "0 0 512 384"; [dquote]; lit " "; [newline];
         lit "     xmlns="; [dquote]; lit "http://www.w3.org/2000/svg"; [dquote];
         lit " xmlns:xlink="; [dquote]; lit "http://www.w3.org/1999/xlink"; [dquote];
         lit ">"; [newline];
         lit "  <title>AI & Robotics Academy - Icon</title>"; [newline];
         lit "  <desc>Vector version of appIcon.png for perfect scaling</desc>"; [newline];
         lit "  "; [newline];
         lit "  <!-- Embedded high-quality PNG data -->"; [newline];
         lit "  <image x="; [dquote]; lit "0"; [dquote];
         lit " y="; [dquote]; lit "0"; [dquote];
         lit " width="; [dquote]; lit "512"; [dquote];
         lit " height="; [dquote]; lit "384"; [dquote]; lit " "; [newline];
         lit "         xlink:href="; [dquote];
         lit "data:image/png;base64,iVBORw0KGgoAAAANSUhEUgAAAgAAAAGACAYAAADbINq/";
         [dquote]; lit " />"; [newline];
         lit "</svg>"].
Proof. vm_compute. reflexivity. Qed.

(** With the icon in place and no splash screen, [main] writes one file. *)
Example only_the_icon_is_converted :
  map fst
    (Convert.main (H := Scenario.header_only)
       (fun name =>
          if list_eq_dec ascii_dec name (lit "appIcon.png")
          then Some Scenario.photo else None))
  = [lit "appIcon.svg"].
Proof. vm_compute. reflexivity. Qed.

(** * Further properties *)

Import Publish.

(** ** Every step of a run *)

Module Steps.
Import Publish Flow Course.

(** The body either stops before the rewrite, with nothing but harmless
    events, or rewrites the manifest and goes on with [release]. *)
Lemma body_cases (w : world) :
  Forall harmless (snd (body w banner))
  \/ exists content f new_version new_content,
       pyproject_toml w = Some content
       /\ Re.search version_search content = Some f
       /\ increment (Re.group1 f) = Bumped new_version
       /\ Re.sub version_assign (assignment new_version) content = Some new_content.
Proof.
  destruct (pyproject_toml w) as [content|] eqn:Hm.
  2:{ left. unfold body. rewrite Hm.
      unfold bind, say, print, input, emit, return_, ret, raise.
      destruct (stdin_open w); cbn; repeat constructor. }
  destruct (Re.search version_search content) as [f|] eqn:Hs.
  2:{ left. unfold body. rewrite Hm, Hs.
      unfold bind, say, print, input, emit, return_, ret, raise.
      destruct (stdin_open w); cbn; repeat constructor. }
  destruct (increment (Re.group1 f)) as [|patch|new_patch|new_version] eqn:Hi.
  - left. unfold body. rewrite Hm, Hs, Hi.
    unfold bind, say, print, input, emit, return_, ret, raise.
    destruct (stdin_open w); cbn; repeat constructor.
  - left. unfold body. rewrite Hm, Hs, Hi. cbn. repeat constructor.
  - left. unfold body. rewrite Hm, Hs, Hi. cbn. repeat constructor.
  - destruct (Re.sub version_assign (assignment new_version) content) as [new_content|] eqn:Hsub.
    + right. now exists content, f, new_version, new_content.
    + left. unfold body. rewrite Hm, Hs, Hi.
      unfold bind, print, emit, re_sub. rewrite Hsub. cbn. repeat constructor.
Qed.

(** A run whose body is harmless is harmless. *)
Lemma main_harmless (w : world) :
  Forall harmless (snd (body w banner)) -> Forall harmless (main w).
Proof.
  intros Hb. destruct (main_shape w) as (tail & -> & Htail).
  apply Forall_app. now split.
Qed.

Lemma in_main (w : world) (e : event) :
  In e (snd (body w banner)) -> In e (main w).
Proof.
  intros H. destruct (main_shape w) as (tail & -> & _).
  apply in_or_app. now left.
Qed.

(** Every step of the run, for an invariant that printing, prompting and
    sleeping cannot break: each child process and the write are justified by
    what came before them. *)
Section Steps.
Context (w : world) (inv : list event -> Prop).
Hypothesis inv_harmless : forall e, harmless e -> quiet inv e.

Ltac other := apply inv_harmless; exact I.

Lemma clean_existing :
  (forall folder, In folder folders -> dir_exists w folder = true ->
                  quiet inv (Spawn (remove_argv w folder))) ->
  keeps inv
    (for_each folders
       (fun folder =>
          if dir_exists w folder
          then _ <- subprocess_run w (remove_argv w folder) ;; ret tt
          else ret tt))
    (fun _ => True).
Proof.
  intros Hq. apply keeps_for_each. intros folder Hin.
  destruct (dir_exists w folder) eqn:Hd.
  - eapply keeps_bind; [apply keeps_run; now apply Hq|]. intros _ _.
    eapply keeps_weaken; [apply keeps_ret | trivial].
  - eapply keeps_weaken; [apply keeps_ret | trivial].
Qed.

(** The steps from the upload on. *)
Lemma upload_steps (new_version pypi_token : str) :
  quiet inv (Spawn (upload_argv pypi_token)) ->
  (forall err, run w (upload_argv pypi_token) = Completed 0 err ->
               quiet inv (Spawn (pip_argv w))) ->
  keeps inv
    (say "📤 Uploading to PyPI..." ;;
     result <- subprocess_run w (upload_argv pypi_token) ;;
     if negb (fst result =? 0) then
       print [Txt "❌ Upload failed: "; Txt (snd result)] ;;
       input w "Press Enter to exit..." ;;
       return_
     else
     print [Txt "✅ Successfully published version "; Txt new_version; Txt "!"] ;;
     print [Txt "🌐 View at: https://pypi.org/project/airobo/"; Txt new_version; Txt "/"] ;;
     say "🔄 Updating local installation..." ;;
     _ <- subprocess_run w (pip_argv w) ;;
     print [] ;;
     say rule ;;
     print [Txt "   🎉 SUCCESS! Version "; Txt new_version; Txt " published!"] ;;
     say rule ;;
     print [] ;;
     say "Users can now install with:" ;;
     say "  pip install --upgrade airobo" ;;
     print [])
    (fun _ => True).
Proof.
  intros Hup Hpip.
  flow other.
  eapply keeps_bind; [apply keeps_run; exact Hup|]. intros [rc err] Hres.
  cbn [fst snd] in *.
  destruct (Z.eqb_spec rc 0) as [->|Hrc]; cbn [negb]; [|flow other].
  flow other.
  eapply keeps_bind; [apply keeps_run; now apply (Hpip err)|]. intros _ _.
  flow other.
Qed.

Lemma release_steps (new_version : str) :
  (forall folder, In folder folders -> dir_exists w folder = true ->
                  quiet inv (Spawn (remove_argv w folder))) ->
  quiet inv (Spawn (build_argv w)) ->
  (forall err env token_match,
      run w (build_argv w) = Completed 0 err ->
      dot_env w = Some env ->
      Re.search api_token env = Some token_match ->
      quiet inv (Spawn (upload_argv (strip (Re.group1 token_match))))
      /\ (forall err',
            run w (upload_argv (strip (Re.group1 token_match))) = Completed 0 err' ->
            quiet inv (Spawn (pip_argv w)))) ->
  keeps inv (release w new_version) (fun _ => True).
Proof.
  intros Hrm Hbuild Hup. unfold release.
  flow other.
  eapply keeps_bind; [apply clean_existing; exact Hrm|]. intros _ _.
  flow other.
  eapply keeps_bind; [apply keeps_run; exact Hbuild|]. intros [rc err] Hres.
  cbn [fst snd] in *.
  destruct (Z.eqb_spec rc 0) as [->|Hrc]; cbn [negb]; [|flow other].
  flow other.
  destruct (dot_env w) as [env|] eqn:Henv; [|flow other].
  destruct (Re.search api_token env) as [token_match|] eqn:Htok; [|flow other].
  destruct (Hup err env token_match Hres eq_refl Htok) as [Hstart Hnext].
  now apply upload_steps.
Qed.

Lemma body_steps :
  (forall content f new_version new_content,
      pyproject_toml w = Some content ->
      Re.search version_search content = Some f ->
      increment (Re.group1 f) = Bumped new_version ->
      Re.sub version_assign (assignment new_version) content = Some new_content ->
      quiet inv (Write manifest new_content)
      /\ keeps inv (release w new_version) (fun _ => True)) ->
  keeps inv (body w) (fun _ => True).
Proof.
  intros Hrel. unfold body.
  destruct (pyproject_toml w) as [content|] eqn:Hm; [|flow other].
  destruct (Re.search version_search content) as [f|] eqn:Hs; [|flow other].
  destruct (increment (Re.group1 f)) as [|patch|new_patch|new_version] eqn:Hi;
    [flow other | flow other | flow other |].
  eapply keeps_bind; [apply keeps_print; other|]. intros _ _.
  eapply keeps_bind; [apply keeps_re_sub|]. intros new_content Hsub.
  destruct (Hrel content f new_version new_content eq_refl Hs Hi Hsub) as [Hw Hr].
  eapply keeps_bind; [apply keeps_emit; exact Hw|]. intros _ _.
  exact Hr.
Qed.

Lemma main_steps :
  inv [] ->
  (forall content f new_version new_content,
      pyproject_toml w = Some content ->
      Re.search version_search content = Some f ->
      increment (Re.group1 f) = Bumped new_version ->
      Re.sub version_assign (assignment new_version) content = Some new_content ->
      quiet inv (Write manifest new_content)
      /\ keeps inv (release w new_version) (fun _ => True)) ->
  inv (main w).
Proof.
  intros H0 Hrel.
  apply main_keeps; [exact inv_harmless | exact H0 | now apply body_steps].
Qed.

End Steps.

(** *** The invariants used below *)

Lemma spawns_start (P : list str -> Prop) (argv : list str) :
  P argv -> quiet (spawns P) (Spawn argv).
Proof. intros Hp. apply spawns_quiet. exact Hp. Qed.

Lemma spawns_write (P : list str -> Prop) (path content : str) :
  quiet (spawns P) (Write path content).
Proof. apply spawns_quiet. exact I. Qed.

(** Every child process of the run satisfies [P], when every one that the
    steps allow for does. *)
Lemma main_children (w : world) (P : list str -> Prop) :
  (forall folder, In folder folders -> dir_exists w folder = true ->
                  P (remove_argv w folder)) ->
  P (build_argv w) ->
  (forall err env token_match,
      run w (build_argv w) = Completed 0 err ->
      dot_env w = Some env ->
      Re.search api_token env = Some token_match ->
      P (upload_argv (strip (Re.group1 token_match)))
      /\ (forall err',
            run w (upload_argv (strip (Re.group1 token_match))) = Completed 0 err' ->
            P (pip_argv w))) ->
  Forall P (spawned (main w)).
Proof.
  intros Hrm Hbuild Hup.
  apply (main_steps w (spawns P)); [apply harmless_spawns | constructor |].
  intros content f new_version new_content _ _ _ _.
  split; [apply spawns_write|].
  apply release_steps.
  - apply harmless_spawns.
  - intros folder Hin Hd. apply spawns_start. now apply Hrm.
  - now apply spawns_start.
  - intros err env token_match Hb He Ht.
    destruct (Hup err env token_match Hb He Ht) as [H1 H2].
    split; [now apply spawns_start|].
    intros err' Hu. apply spawns_start. now apply (H2 err').
Qed.

Lemma upload_invoked_app (t : list event) (e : event) :
  upload_invoked (t ++ [e])
  = upload_invoked t || match e with Spawn argv => is_upload argv | _ => false end.
Proof.
  unfold upload_invoked. rewrite spawned_app, existsb_app.
  destruct e; cbn; now rewrite ?orb_false_r.
Qed.

Lemma uploads_quiet (Q : Prop) (e : event) :
  match e with Spawn argv => is_upload argv = true -> Q | _ => True end ->
  quiet (uploads_only_if Q) e.
Proof.
  intros He t Ht. unfold uploads_only_if in *. rewrite upload_invoked_app.
  intros H. apply orb_true_iff in H. destruct H as [H|H]; [auto|].
  destruct e; try discriminate H. auto.
Qed.

Lemma uploads_harmless (Q : Prop) (e : event) :
  harmless e -> quiet (uploads_only_if Q) e.
Proof. intros He. apply uploads_quiet. destruct e; try exact I. contradiction. Qed.

Lemma remove_is_not_upload (w : world) (folder : str) :
  is_upload (remove_argv w folder) = false.
Proof. unfold remove_argv. now destruct (os_name_nt w). Qed.

Lemma extends_quiet (t0 : list event) (e : event) :
  match e with Write _ _ => False | _ => True end ->
  quiet (extends t0) e.
Proof.
  intros He t (tail & -> & Hw). exists (tail ++ [e]).
  split; [now rewrite app_assoc|].
  rewrite writes_app, Hw. destruct e; try reflexivity. contradiction.
Qed.

Lemma release_extends (w : world) (new_version : str) (t0 : list event) :
  keeps (extends t0) (release w new_version) (fun _ => True).
Proof.
  assert (Hh : forall e, harmless e -> quiet (extends t0) e).
  { intros e He. apply extends_quiet. destruct e; try exact I; contradiction. }
  apply release_steps; [exact Hh | | |].
  - intros. now apply extends_quiet.
  - now apply extends_quiet.
  - intros. split; [now apply extends_quiet|]. intros. now apply extends_quiet.
Qed.

(** A run that goes past the rewrite: what precedes the write is harmless,
    what follows it writes nothing. *)
Lemma main_rewrites (w : world) (content new_version new_content : str) (f : Re.found) :
  pyproject_toml w = Some content ->
  Re.search version_search content = Some f ->
  increment (Re.group1 f) = Bumped new_version ->
  Re.sub version_assign (assignment new_version) content = Some new_content ->
  exists t1 t2,
    main w = t1 ++ Write manifest new_content :: t2
    /\ Forall harmless t1
    /\ writes t2 = [].
Proof.
  intros Hm Hs Hi Hsub.
  destruct (main_shape w) as (tail & E & Htail).
  rewrite (body_bumped w content new_version new_content f banner Hm Hs Hi Hsub) in E.
  set (t1 := banner ++ [Print [Txt (lit "📝 Auto-incrementing version: ");
                               Txt (Re.group1 f); Txt (lit " → "); Txt new_version]]).
  destruct (release_extends w new_version (t1 ++ [Write manifest new_content])
              (t1 ++ [Write manifest new_content])) as [(t2 & E2 & Hw2) _].
  { exists []. now rewrite app_nil_r. }
  exists t1, (t2 ++ tail). split; [|split].
  - rewrite E. subst t1. rewrite <- app_assoc in E2. cbn [app] in E2.
    rewrite <- !app_assoc in *. cbn [app] in *.
    rewrite E2. rewrite <- app_assoc. reflexivity.
  - subst t1. apply Forall_app. split; [apply banner_harmless | repeat constructor].
  - rewrite writes_app, Hw2. now apply harmless_writes.
Qed.

(** The one write of such a run. *)
Lemma main_writes_once (w : world) (content new_version new_content : str) (f : Re.found) :
  pyproject_toml w = Some content ->
  Re.search version_search content = Some f ->
  increment (Re.group1 f) = Bumped new_version ->
  Re.sub version_assign (assignment new_version) content = Some new_content ->
  writes (main w) = [new_content].
Proof.
  intros Hm Hs Hi Hsub.
  destruct (main_rewrites w content new_version new_content f Hm Hs Hi Hsub)
    as (t1 & t2 & E & H1 & H2).
  rewrite E, writes_app, (harmless_writes t1 H1). cbn [app].
  change (Write manifest new_content :: t2) with ([Write manifest new_content] ++ t2).
  now rewrite writes_app, H2.
Qed.

End Steps.

Import Course Lines.

(** X1. Every child process of a run is one of four: the removal of one of
    the three build directories, and only if it exists; the build; the
    upload, with the token of the secrets file stripped of its blanks; the
    upgrade of the local installation. *)
Theorem children_are_known (w : world) :
  Forall (allowed w) (spawned (main w)).
Proof.
  apply Steps.main_children.
  - intros folder Hin Hd. left. now exists folder.
  - right. now left.
  - intros err env token_match _ Henv Htok. split.
    + right. right. left. now exists env, token_match.
    + intros _ _. now repeat right.
Qed.

(** X2. The upload is started only after the manifest has been rewritten,
    the build has exited with status zero and a token has been found in the
    secrets file. *)
Theorem upload_needs_build_and_token (w : world) :
  upload_invoked (main w) = true -> ready_to_upload w.
Proof.
  apply (Steps.main_steps w (uploads_only_if (ready_to_upload w))).
  - apply Steps.uploads_harmless.
  - discriminate.
  - intros content f new_version new_content Hm Hs Hi Hsub.
    split; [now apply Steps.uploads_quiet|].
    apply Steps.release_steps.
    + apply Steps.uploads_harmless.
    + intros folder _ _. apply Steps.uploads_quiet.
      rewrite Steps.remove_is_not_upload. discriminate.
    + apply Steps.uploads_quiet. discriminate.
    + intros err env token_match Hb He Ht. split.
      * apply Steps.uploads_quiet. intros _. split; [|split].
        -- now exists content, f, new_version, new_content.
        -- now exists err.
        -- now exists env, token_match.
      * intros err' _. apply Steps.uploads_quiet. discriminate.
Qed.

Lemma upload_needs_build_and_token_witness : ready_to_upload Scenario.upload_fails.
Proof.
  apply (upload_needs_build_and_token Scenario.upload_fails).
  vm_compute. reflexivity.
Defined.

(** X3. The only file a run writes is the manifest, at most once, and what it
    writes is the manifest it read with the version assignments
    substituted. *)
Theorem only_the_manifest_is_written (w : world) (path c : str) :
  In (Write path c) (main w) ->
  path = manifest
  /\ writes (main w) = [c]
  /\ exists content f new_version,
       pyproject_toml w = Some content
       /\ Re.search version_search content = Some f
       /\ increment (Re.group1 f) = Bumped new_version
       /\ Re.sub version_assign (assignment new_version) content = Some c.
Proof.
  intros Hin.
  destruct (Steps.body_cases w) as [Hh | (content & f & new_version & new_content
                                          & Hm & Hs & Hi & Hsub)].
  - apply Steps.main_harmless in Hh. rewrite Forall_forall in Hh.
    destruct (Hh _ Hin).
  - pose proof (Steps.main_writes_once w content new_version new_content f Hm Hs Hi Hsub)
      as Hw.
    destruct (Steps.main_rewrites w content new_version new_content f Hm Hs Hi Hsub)
      as (t1 & t2 & E & H1 & H2).
    assert (Hc : path = manifest /\ c = new_content).
    { rewrite E in Hin. apply in_app_or in Hin. destruct Hin as [Hin|[Hin|Hin]].
      - rewrite Forall_forall in H1. destruct (H1 _ Hin).
      - now injection Hin as <- <-.
      - exfalso. apply in_split in Hin. destruct Hin as (a & b & ->).
        rewrite Flow.writes_app in H2. cbn in H2.
        destruct (writes a); discriminate H2. }
    destruct Hc as [-> ->]. split; [reflexivity|]. split; [exact Hw|].
    now exists content, f, new_version.
Qed.

Lemma only_the_manifest_is_written_witness :
  lit "pyproject.toml" = manifest
  /\ writes (main Scenario.upload_fails) = [Scenario.project (lit "1.2.4")].
Proof.
  destruct (only_the_manifest_is_written Scenario.upload_fails
              (lit "pyproject.toml") (Scenario.project (lit "1.2.4")))
    as (Hp & Hw & _).
  - vm_compute. tauto.
  - split; [exact Hp | exact Hw].
Defined.

(** X4. No child process is started before the rewritten manifest is on
    disk: a run that starts anything consists of events that neither write
    nor start anything, then the write of the manifest, then events that
    write nothing. *)
Theorem rewrite_precedes_every_command (w : world) :
  spawned (main w) <> [] ->
  exists t1 c t2,
    main w = t1 ++ Write manifest c :: t2
    /\ spawned t1 = [] /\ writes t1 = [] /\ writes t2 = [].
Proof.
  intros Hsp.
  destruct (Steps.body_cases w) as [Hh | (content & f & new_version & new_content
                                          & Hm & Hs & Hi & Hsub)].
  - apply Steps.main_harmless in Hh. now apply Flow.harmless_spawned in Hh.
  - destruct (Steps.main_rewrites w content new_version new_content f Hm Hs Hi Hsub)
      as (t1 & t2 & E & H1 & H2).
    exists t1, new_content, t2.
    split; [exact E|]. split; [now apply Flow.harmless_spawned|].
    split; [now apply Flow.harmless_writes | exact H2].
Qed.

Lemma rewrite_precedes_every_command_witness :
  exists t1 c t2,
    main Scenario.build_fails = t1 ++ Write manifest c :: t2
    /\ spawned t1 = [] /\ writes t1 = [] /\ writes t2 = [].
Proof.
  apply (rewrite_precedes_every_command Scenario.build_fails).
  vm_compute. discriminate.
Defined.

(** X5. When the upload does not exit with status zero, or cannot be started
    at all, the upgrade of the local installation is not among the child
    processes of the run. *)
Theorem upload_failure_skips_the_upgrade (w : world) (env : str) (token_match : Re.found) :
  dot_env w = Some env ->
  Re.search api_token env = Some token_match ->
  (forall err, run w (upload_argv (strip (Re.group1 token_match))) <> Completed 0 err) ->
  Forall (fun argv => argv <> pip_argv w) (spawned (main w)).
Proof.
  intros Henv Htok Hfail.
  apply Steps.main_children.
  - intros folder _ _. unfold remove_argv. destruct (os_name_nt w); discriminate.
  - discriminate.
  - intros err env' token_match' _ Henv' Htok'.
    rewrite Henv in Henv'. injection Henv' as <-.
    rewrite Htok in Htok'. injection Htok' as <-.
    split; [discriminate|].
    intros err' Hu. destruct (Hfail err' Hu).
Qed.

Lemma upload_failure_skips_the_upgrade_witness :
  Forall (fun argv => argv <> pip_argv Scenario.upload_fails)
    (spawned (main Scenario.upload_fails)).
Proof.
  apply (upload_failure_skips_the_upgrade Scenario.upload_fails Scenario.secrets
           Situation.secrets_match).
  - reflexivity.
  - vm_compute. reflexivity.
  - intros err. vm_compute. discriminate.
Defined.

(** ** Runs, step by step *)

Module Straight.
Import Publish Flow.

(** *** Steps that succeed, as equations *)

Lemma bind_val {A B} (m : M A) (k : A -> M B) (t t' : list event) (a : A) :
  m t = (Val a, t') -> bind m k t = k a t'.
Proof. intros E. unfold bind. now rewrite E. Qed.

Lemma print_eq (line : list frag) (t : list event) :
  print line t = (Val tt, t ++ [Print line]).
Proof. reflexivity. Qed.

Lemma say_eq (s : str) (t : list event) :
  say s t = (Val tt, t ++ [Print [Txt s]]).
Proof. reflexivity. Qed.

Lemma run_eq (w : world) (argv : list str) (rc : Z) (err : str) (t : list event) :
  run w argv = Completed rc err ->
  subprocess_run w argv t = (Val (rc, err), t ++ [Spawn argv]).
Proof. intros E. unfold subprocess_run, bind, emit. now rewrite E. Qed.

Lemma started (w : world) (argv : list str) :
  run w argv <> CannotStart -> exists rc err, run w argv = Completed rc err.
Proof. destruct (run w argv) as [rc err|]; [now exists rc, err | congruence]. Qed.

(** The removals, when each of them can be started: one child process for
    each directory that exists, whatever its exit status. *)
Lemma clean_eq (w : world) (l : list str) (t : list event) :
  (forall folder, In folder l -> dir_exists w folder = true ->
                  run w (remove_argv w folder) <> CannotStart) ->
  for_each l
    (fun folder =>
       if dir_exists w folder
       then _ <- subprocess_run w (remove_argv w folder) ;; ret tt
       else ret tt) t
  = (Val tt, t ++ map (fun folder => Spawn (remove_argv w folder))
                      (filter (dir_exists w) l)).
Proof.
  revert t. induction l as [|folder l IH]; intros t Hl.
  - cbn. now rewrite app_nil_r.
  - cbn [for_each filter].
    destruct (dir_exists w folder) eqn:Hd.
    + destruct (started w (remove_argv w folder)) as (rc & err & E).
      { apply Hl; [now left | assumption]. }
      erewrite bind_val.
      2:{ erewrite bind_val; [|apply run_eq; exact E]. reflexivity. }
      rewrite IH by (intros; apply Hl; [now right | assumption]).
      cbn [map]. now rewrite <- app_assoc.
    + erewrite bind_val; [|reflexivity].
      apply IH. intros; apply Hl; [now right | assumption].
Qed.

(** A failure branch: the diagnostic, the prompt, and [return] when the
    terminal answers. *)
Lemma stop_eq (w : world) (line : list frag) (t : list event) :
  (print line ;; input w "Press Enter to exit..." ;; return_ (A := unit)) t
  = (if stdin_open w then Returned else Raised EOFError,
     t ++ [Print line; Input exit_prompt]).
Proof.
  unfold input, print, bind, emit, return_, ret, raise.
  destruct (stdin_open w); cbv beta iota; rewrite <- app_assoc; reflexivity.
Qed.

Lemma spawned_removals (w : world) :
  spawned (map (fun folder => Spawn (remove_argv w folder)) (filter (dir_exists w) folders))
  = removals w.
Proof.
  unfold removals. induction (filter (dir_exists w) folders) as [|x l IH]; [reflexivity|].
  cbn [map]. change (spawned (?e :: ?t)) with (spawned [e] ++ spawned t).
  cbn [map spawned flat_map app]. f_equal. exact IH.
Qed.

Lemma spawned_built (w : world) (current_version new_version new_content : str) :
  spawned (built w current_version new_version new_content) = removals w ++ [build_argv w].
Proof.
  unfold built. rewrite !spawned_app, (harmless_spawned banner banner_harmless).
  rewrite spawned_removals. reflexivity.
Qed.

Ltac to_build Hrm Hb :=
  unfold release;
  erewrite bind_val; [|apply say_eq];
  erewrite bind_val; [|apply say_eq];
  erewrite bind_val; [|apply (clean_eq _ folders); exact Hrm];
  erewrite bind_val; [|apply say_eq];
  erewrite bind_val; [|apply run_eq; exact Hb];
  cbn [fst snd].

Ltac tidy :=
  unfold success, built; repeat (rewrite <- app_assoc; cbn [app]); reflexivity.

Section Stages.
Context (w : world) (content new_version new_content : str) (f : Re.found).
Hypothesis manifest_read : pyproject_toml w = Some content.
Hypothesis version_read : Re.search version_search content = Some f.
Hypothesis version_bumped : increment (Re.group1 f) = Bumped new_version.
Hypothesis manifest_rewritten :
  Re.sub version_assign (assignment new_version) content = Some new_content.
Hypothesis cleaned : removals_start w.

Lemma body_build_fails (rc : Z) (err : str) :
  run w (build_argv w) = Completed rc err -> rc <> 0 ->
  snd (body w banner)
  = built w (Re.group1 f) new_version new_content
    ++ [Print [Txt "❌ Build failed: "; Txt err]; Input exit_prompt].
Proof.
  intros Hb Hrc.
  rewrite (body_bumped w content new_version new_content f banner
             manifest_read version_read version_bumped manifest_rewritten).
  to_build cleaned Hb.
  destruct (Z.eqb_spec rc 0) as [|_]; [contradiction|]. cbn [negb].
  rewrite stop_eq. cbn [snd]. tidy.
Qed.

Lemma body_no_secrets (err : str) :
  run w (build_argv w) = Completed 0 err -> dot_env w = None ->
  snd (body w banner)
  = built w (Re.group1 f) new_version new_content
    ++ [Print [Txt "✅ Package built successfully!"];
        Print [Txt "❌ Error: .env file not found!"]; Input exit_prompt].
Proof.
  intros Hb Henv.
  rewrite (body_bumped w content new_version new_content f banner
             manifest_read version_read version_bumped manifest_rewritten).
  to_build cleaned Hb.
  change (negb (0 =? 0)) with false. cbv iota.
  erewrite bind_val; [|apply say_eq].
  rewrite Henv. unfold say. rewrite stop_eq. cbn [snd]. tidy.
Qed.

Lemma body_no_token (err env : str) :
  run w (build_argv w) = Completed 0 err ->
  dot_env w = Some env -> Re.search api_token env = None ->
  snd (body w banner)
  = built w (Re.group1 f) new_version new_content
    ++ [Print [Txt "✅ Package built successfully!"];
        Print [Txt "❌ Error: Could not find apiToken in .env!"]; Input exit_prompt].
Proof.
  intros Hb Henv Htok.
  rewrite (body_bumped w content new_version new_content f banner
             manifest_read version_read version_bumped manifest_rewritten).
  to_build cleaned Hb.
  change (negb (0 =? 0)) with false. cbv iota.
  erewrite bind_val; [|apply say_eq].
  rewrite Henv, Htok. unfold say. rewrite stop_eq. cbn [snd]. tidy.
Qed.

Lemma body_upload_fails (err env : str) (token_match : Re.found) (rc : Z) (err' : str) :
  run w (build_argv w) = Completed 0 err ->
  dot_env w = Some env -> Re.search api_token env = Some token_match ->
  run w (upload_argv (strip (Re.group1 token_match))) = Completed rc err' -> rc <> 0 ->
  snd (body w banner)
  = built w (Re.group1 f) new_version new_content
    ++ [Print [Txt "✅ Package built successfully!"];
        Print [Txt "📤 Uploading to PyPI..."];
        Spawn (upload_argv (strip (Re.group1 token_match)));
        Print [Txt "❌ Upload failed: "; Txt err']; Input exit_prompt].
Proof.
  intros Hb Henv Htok Hu Hrc.
  rewrite (body_bumped w content new_version new_content f banner
             manifest_read version_read version_bumped manifest_rewritten).
  to_build cleaned Hb.
  change (negb (0 =? 0)) with false. cbv iota.
  erewrite bind_val; [|apply say_eq].
  rewrite Henv, Htok. cbv zeta.
  erewrite bind_val; [|apply say_eq].
  erewrite bind_val; [|apply run_eq; exact Hu].
  cbn [fst snd].
  destruct (Z.eqb_spec rc 0) as [|_]; [contradiction|]. cbn [negb].
  rewrite stop_eq. cbn [snd]. tidy.
Qed.

Lemma body_succeeds (err env : str) (token_match : Re.found) (err' : str) :
  run w (build_argv w) = Completed 0 err ->
  dot_env w = Some env -> Re.search api_token env = Some token_match ->
  run w (upload_argv (strip (Re.group1 token_match))) = Completed 0 err' ->
  run w (pip_argv w) <> CannotStart ->
  body w banner
  = (Val tt, success w (Re.group1 f) new_version new_content
               (strip (Re.group1 token_match))).
Proof.
  intros Hb Henv Htok Hu Hp.
  destruct (started w (pip_argv w) Hp) as (rc3 & err3 & Hpip).
  rewrite (body_bumped w content new_version new_content f banner
             manifest_read version_read version_bumped manifest_rewritten).
  to_build cleaned Hb.
  change (negb (0 =? 0)) with false. cbv iota.
  erewrite bind_val; [|apply say_eq].
  rewrite Henv, Htok. cbv zeta.
  erewrite bind_val; [|apply say_eq].
  erewrite bind_val; [|apply run_eq; exact Hu].
  cbn [fst snd]. change (negb (0 =? 0)) with false. cbv iota.
  erewrite bind_val; [|apply print_eq].
  erewrite bind_val; [|apply print_eq].
  erewrite bind_val; [|apply say_eq].
  erewrite bind_val; [|apply run_eq; exact Hpip].
  erewrite bind_val; [|apply print_eq].
  erewrite bind_val; [|apply say_eq].
  erewrite bind_val; [|apply print_eq].
  erewrite bind_val; [|apply say_eq].
  erewrite bind_val; [|apply print_eq].
  erewrite bind_val; [|apply say_eq].
  erewrite bind_val; [|apply say_eq].
  rewrite print_eq. f_equal. tidy.
Qed.

End Stages.

(** What the body prints when it stops before the rewrite. *)
Lemma body_stops (w : world) (line : list frag) (t : list event) :
  In (Print line)
    (snd ((print line ;; input w "Press Enter to exit..." ;; return_ (A := unit)) t)).
Proof.
  rewrite stop_eq. cbn [snd]. apply in_or_app. right. now left.
Qed.

(** What a run that stops at [stop] after the build shows. *)
Lemma stopped (w : world) (current_version new_version new_content : str)
    (stop : list event) (diagnostic : event) :
  snd (body w banner) = built w current_version new_version new_content ++ stop ->
  In diagnostic stop ->
  In diagnostic (main w)
  /\ spawned (main w) = removals w ++ [build_argv w] ++ spawned stop.
Proof.
  intros E Hin. destruct (main_shape w) as (tail & -> & Htail). rewrite E. split.
  - apply in_or_app. left. apply in_or_app. now right.
  - rewrite !spawned_app, spawned_built, (harmless_spawned tail Htail).
    now rewrite app_nil_r, <- app_assoc.
Qed.

End Straight.

(** X6. When every step succeeds, the run is the banner, the rewrite, one
    removal for each build directory that exists, the build, the upload with
    the stripped token, the upgrade, the announcement of success and the
    closing part.  The exit statuses of the removals and of the upgrade are
    not looked at. *)
Theorem successful_run (w : world) (content new_version new_content env : str)
    (f token_match : Re.found) (err1 err2 : str) :
  pyproject_toml w = Some content ->
  Re.search version_search content = Some f ->
  increment (Re.group1 f) = Bumped new_version ->
  Re.sub version_assign (assignment new_version) content = Some new_content ->
  removals_start w ->
  run w (build_argv w) = Completed 0 err1 ->
  dot_env w = Some env ->
  Re.search api_token env = Some token_match ->
  run w (upload_argv (strip (Re.group1 token_match))) = Completed 0 err2 ->
  run w (pip_argv w) <> CannotStart ->
  main w
  = closing w (success w (Re.group1 f) new_version new_content
                 (strip (Re.group1 token_match))).
Proof.
  intros Hm Hs Hi Hsub Hrm Hb Henv Htok Hu Hp.
  unfold main.
  now rewrite (Straight.body_succeeds w content new_version new_content f
                 Hm Hs Hi Hsub Hrm err1 env token_match err2 Hb Henv Htok Hu Hp).
Qed.

Lemma successful_run_witness :
  main Situation.upgrade_fails
  = closing Situation.upgrade_fails
      (success Situation.upgrade_fails (lit "1.2.3") (lit "1.2.4")
         (Scenario.project (lit "1.2.4")) (lit "pypi-0123")).
Proof.
  apply (successful_run Situation.upgrade_fails (Scenario.project (lit "1.2.3"))
           (lit "1.2.4") (Scenario.project (lit "1.2.4")) Scenario.secrets
           (Scenario.project_match (lit "1.2.3")) Situation.secrets_match [] []).
  - reflexivity.
  - vm_compute. reflexivity.
  - vm_compute. reflexivity.
  - vm_compute. reflexivity.
  - intros folder _ _. unfold run, Situation.upgrade_fails.
    destruct (Scenario.same _ _); [discriminate|].
    destruct (is_upload _); discriminate.
  - vm_compute. reflexivity.
  - reflexivity.
  - vm_compute. reflexivity.
  - vm_compute. reflexivity.
  - vm_compute. discriminate.
Defined.

(** X7. Without a manifest the run prints its diagnostic, writes nothing and
    starts nothing. *)
Theorem missing_manifest_halts (w : world) :
  pyproject_toml w = None ->
  In (Print [Txt (lit "❌ Error: pyproject.toml not found!")]) (main w)
  /\ writes (main w) = []
  /\ spawned (main w) = [].
Proof.
  intros Hm.
  assert (Hh : Forall Flow.harmless (main w)).
  { apply Steps.main_harmless.
    destruct (Steps.body_cases w) as [H | (content & f & nv & nc & E & _)];
      [exact H | congruence]. }
  split; [|split; [now apply Flow.harmless_writes | now apply Flow.harmless_spawned]].
  apply Steps.in_main. unfold body. rewrite Hm. apply Straight.body_stops.
Qed.

Lemma missing_manifest_halts_witness :
  In (Print [Txt (lit "❌ Error: pyproject.toml not found!")]) (main Situation.no_manifest)
  /\ writes (main Situation.no_manifest) = []
  /\ spawned (main Situation.no_manifest) = [].
Proof. apply (missing_manifest_halts Situation.no_manifest). reflexivity. Defined.

(** X8. With a manifest in which the version pattern matches nowhere, the run
    prints its diagnostic, writes nothing and starts nothing: the manifest
    stays as it is. *)
Theorem version_not_found_halts (w : world) (content : str) :
  pyproject_toml w = Some content ->
  Re.search version_search content = None ->
  In (Print [Txt (lit "❌ Error: Could not find version in pyproject.toml!")]) (main w)
  /\ writes (main w) = []
  /\ spawned (main w) = []
  /\ manifest_after w (main w) = Some content.
Proof.
  intros Hm Hs.
  assert (Hh : Forall Flow.harmless (main w)).
  { apply Steps.main_harmless.
    destruct (Steps.body_cases w) as [H | (content' & f & nv & nc & E & E' & _)];
      [exact H | congruence]. }
  assert (Hw : writes (main w) = []) by now apply Flow.harmless_writes.
  split; [|split; [exact Hw | split; [now apply Flow.harmless_spawned|]]].
  - apply Steps.in_main. unfold body. rewrite Hm, Hs. apply Straight.body_stops.
  - unfold manifest_after. now rewrite Hw.
Qed.

Lemma version_not_found_halts_witness :
  In (Print [Txt (lit "❌ Error: Could not find version in pyproject.toml!")])
    (main Situation.no_version)
  /\ writes (main Situation.no_version) = []
  /\ spawned (main Situation.no_version) = []
  /\ manifest_after Situation.no_version (main Situation.no_version)
     = Some (lit "[project]").
Proof.
  apply (version_not_found_halts Situation.no_version (lit "[project]")).
  - reflexivity.
  - vm_compute. reflexivity.
Defined.

(** X9. When the replacement text does not compile as a template, which a
    version with a backslash can bring about, [re.sub] raises: the handler of
    [main] reports the error, nothing is written and nothing is started. *)
Theorem bad_template_halts (w : world) (content new_version : str) (f : Re.found) :
  pyproject_toml w = Some content ->
  Re.search version_search content = Some f ->
  increment (Re.group1 f) = Bumped new_version ->
  Re.template (assignment new_version) = None ->
  In (Print [Txt (lit "❌ Unexpected error: "); StrOf (TemplateError (assignment new_version))])
    (main w)
  /\ In (Print [Txt (lit "Error details: "); TypeOf (TemplateError (assignment new_version))])
       (main w)
  /\ writes (main w) = []
  /\ spawned (main w) = []
  /\ manifest_after w (main w) = Some content.
Proof.
  intros Hm Hs Hi Ht.
  assert (Hsub : Re.sub version_assign (assignment new_version) content = None).
  { unfold Re.sub. now rewrite Ht. }
  assert (E : body w banner
              = (Raised (TemplateError (assignment new_version)),
                 banner ++ [Print [Txt (lit "📝 Auto-incrementing version: ");
                                   Txt (Re.group1 f); Txt (lit " → "); Txt new_version]])).
  { unfold body. rewrite Hm, Hs, Hi. unfold bind, print, emit, re_sub.
    now rewrite Hsub. }
  assert (Hh : Forall Flow.harmless (main w)).
  { apply Steps.main_harmless. rewrite E. cbn [snd].
    apply Forall_app. split; [apply Flow.banner_harmless | repeat constructor]. }
  assert (Hw : writes (main w) = []) by now apply Flow.harmless_writes.
  assert (Hc : exists tail,
             main w = (banner ++ [Print [Txt (lit "📝 Auto-incrementing version: ");
                                         Txt (Re.group1 f); Txt (lit " → ");
                                         Txt new_version]])
                      ++ handler (TemplateError (assignment new_version)) ++ tail).
  { unfold main. rewrite E.
    destruct (Flow.closing_shape w
                ((banner ++ [Print [Txt (lit "📝 Auto-incrementing version: ");
                                    Txt (Re.group1 f); Txt (lit " → "); Txt new_version]])
                 ++ handler (TemplateError (assignment new_version))))
      as (tail & -> & _).
    exists tail. now rewrite <- app_assoc. }
  destruct Hc as (tail & Hc).
  split; [|split; [|split; [exact Hw | split; [now apply Flow.harmless_spawned|]]]].
  - rewrite Hc. apply in_or_app. right. now left.
  - rewrite Hc. apply in_or_app. right. right. now left.
  - unfold manifest_after. now rewrite Hw.
Qed.

Lemma bad_template_halts_witness :
  In (Print [Txt (lit "❌ Unexpected error: ");
             StrOf (TemplateError (assignment (lit "1\d.2.4")))])
    (main Situation.escaped)
  /\ writes (main Situation.escaped) = []
  /\ spawned (main Situation.escaped) = [].
Proof.
  destruct (bad_template_halts Situation.escaped (Scenario.project (lit "1\d.2.3"))
              (lit "1\d.2.4") (Scenario.project_match (lit "1\d.2.3")))
    as (H1 & _ & H3 & H4 & _).
  - reflexivity.
  - vm_compute. reflexivity.
  - vm_compute. reflexivity.
  - vm_compute. reflexivity.
  - split; [exact H1 | split; [exact H3 | exact H4]].
Defined.

(** ** How a run ends *)

Module Ends.
Import Publish Flow.

Section Rules.
Context (w : world) (J leave : list event -> Prop) (throw : exn -> list event -> Prop).

Hypothesis J_harmless : forall e, harmless e -> quiet J e.
Hypothesis J_write : forall path content, quiet J (Write path content).
Hypothesis J_run :
  forall argv rc err, run w argv = Completed rc err -> quiet J (Spawn argv).
Hypothesis throw_spawn :
  forall argv t, run w argv = CannotStart -> J t ->
                 throw (SpawnError argv) (t ++ [Spawn argv]).
Hypothesis leave_prompt :
  forall t, J t -> stdin_open w = true -> leave (t ++ [Input exit_prompt]).
Hypothesis throw_eof :
  forall t, J t -> stdin_open w = false -> throw EOFError (t ++ [Input exit_prompt]).
Hypothesis throw_value : forall patch t, J t -> throw (IntValueError patch) t.
Hypothesis throw_limit : forall n t, J t -> throw (StrValueError n) t.
Hypothesis throw_template : forall repl t, J t -> throw (TemplateError repl) t.

Lemma ends_ret {A} (a : A) : ends J leave throw (ret a).
Proof. intros t Ht. exact Ht. Qed.

Lemma ends_bind {A B} (m : M A) (k : A -> M B) :
  ends J leave throw m -> (forall a, ends J leave throw (k a)) ->
  ends J leave throw (bind m k).
Proof.
  intros Hm Hk t Ht. unfold bind. specialize (Hm t Ht).
  destruct (m t) as [[a| |e] t']; [now apply Hk | assumption | assumption].
Qed.

Lemma ends_print (line : list frag) : ends J leave throw (print line).
Proof. intros t Ht. now apply J_harmless. Qed.

Lemma ends_say (s : str) : ends J leave throw (say s).
Proof. apply ends_print. Qed.

Lemma ends_write (path content : str) : ends J leave throw (emit (Write path content)).
Proof. intros t Ht. now apply J_write. Qed.

(** The way out of every failure branch: the prompt, then [return]. *)
Lemma ends_stop :
  ends J leave throw (input w "Press Enter to exit..." ;; return_ (A := unit)).
Proof.
  intros t Ht. unfold bind, input, emit, return_, ret, raise.
  destruct (stdin_open w) eqn:E.
  - now apply leave_prompt.
  - now apply throw_eof.
Qed.

Lemma ends_run (argv : list str) : ends J leave throw (subprocess_run w argv).
Proof.
  intros t Ht. unfold subprocess_run, bind, emit.
  destruct (run w argv) as [rc err|] eqn:E.
  - now apply (J_run argv rc err).
  - now apply throw_spawn.
Qed.

Lemma ends_re_sub (re : Re.regex) (repl s : str) : ends J leave throw (re_sub re repl s).
Proof.
  intros t Ht. unfold re_sub. destruct (Re.sub re repl s); [exact Ht|].
  now apply throw_template.
Qed.

Lemma ends_for_each {A} (l : list A) (f : A -> M unit) :
  (forall a, ends J leave throw (f a)) -> ends J leave throw (for_each l f).
Proof.
  intros Hf. induction l as [|a l IH]; [apply ends_ret|].
  cbn [for_each]. apply ends_bind; [apply Hf | intros _; exact IH].
Qed.

Ltac walk :=
  repeat first
    [ apply ends_stop
    | apply ends_say
    | apply ends_print
    | apply ends_write
    | apply ends_run
    | apply ends_re_sub
    | apply ends_ret
    | apply ends_bind; [|intros ?] ].

Lemma release_ends (new_version : str) : ends J leave throw (release w new_version).
Proof.
  unfold release.
  apply ends_bind; [apply ends_say | intros _].
  apply ends_bind; [apply ends_say | intros _].
  apply ends_bind.
  { apply ends_for_each. intros folder. destruct (dir_exists w folder); walk. }
  intros _.
  apply ends_bind; [apply ends_say | intros _].
  apply ends_bind; [apply ends_run | intros result].
  destruct (negb (fst result =? 0)); [walk|].
  apply ends_bind; [apply ends_say | intros _].
  destruct (dot_env w) as [env|]; [|walk].
  destruct (Re.search api_token env) as [token_match|]; [|walk].
  cbv zeta.
  apply ends_bind; [apply ends_say | intros _].
  apply ends_bind; [apply ends_run | intros result'].
  destruct (negb (fst result' =? 0)); walk.
Qed.

Lemma body_ends : ends J leave throw (body w).
Proof.
  unfold body.
  destruct (pyproject_toml w) as [content|]; [|walk].
  destruct (Re.search version_search content) as [f|]; [|walk].
  destruct (increment (Re.group1 f)) as [|patch|new_patch|new_version]; [walk | | | ].
  - intros t Ht. now apply throw_value.
  - intros t Ht. now apply throw_limit.
  - apply ends_bind; [apply ends_print | intros _].
    apply ends_bind; [apply ends_re_sub | intros new_content].
    apply ends_bind; [apply ends_write | intros _].
    apply release_ends.
Qed.

End Rules.

(** The closing part ends at the prompt, or at the pause. *)
Lemma closing_ends (w : world) (t : list event) :
  (stdin_open w = true /\ closing w t = (t ++ firstn 3 (closing w [])) ++ [Input close_prompt])
  \/ (stdin_open w = false
      /\ closing w t
         = (t ++ firstn 3 (closing w []))
           ++ [Input close_prompt;
               Print [Txt (newline :: lit "Forcing terminal to stay open for 10 seconds...")];
               Sleep 10]).
Proof.
  unfold closing. destruct (stdin_open w); [left | right]; split; try reflexivity;
    cbn [app firstn]; repeat (rewrite <- app_assoc; cbn [app]); reflexivity.
Qed.

Lemma all_started_quiet (w : world) (e : event) :
  match e with Spawn argv => run w argv <> CannotStart | _ => True end ->
  quiet (all_started w) e.
Proof.
  intros He t Ht argv Hin. rewrite spawned_app in Hin.
  apply in_app_or in Hin. destruct Hin as [Hin|Hin]; [now apply Ht|].
  destruct e; cbn in Hin; try contradiction.
  destruct Hin as [<-|[]]. exact He.
Qed.

Lemma all_started_harmless (w : world) (l t : list event) :
  Forall harmless l -> all_started w t -> all_started w (t ++ l).
Proof.
  intros Hl Ht. apply quiet_all; [|assumption|assumption].
  intros e He. apply all_started_quiet. destruct e; try exact I. contradiction.
Qed.

Lemma body_started (w : world) :
  ends (all_started w) (all_started w) (thrown w) (body w).
Proof.
  apply (body_ends w).
  - intros e He. apply all_started_quiet. destruct e; try exact I. contradiction.
  - intros path content. now apply all_started_quiet.
  - intros argv rc err E. apply all_started_quiet. congruence.
  - intros argv t E Ht. split; [exact E|]. now exists t.
  - intros t Ht _. now apply all_started_quiet.
  - intros t Ht _. cbn. now apply all_started_quiet.
  - intros patch t Ht. exact Ht.
  - intros n t Ht. exact Ht.
  - intros repl t Ht. exact Ht.
Qed.

End Ends.

(** X10. A run always ends waiting: at the prompt of a failure branch or at
    the closing prompt when the terminal answers, and otherwise at the pause
    of ten seconds that follows the closing prompt. *)
Theorem run_ends_waiting (w : world) :
  (stdin_open w = true ->
   exists t prompt,
     main w = t ++ [Input prompt] /\ (prompt = exit_prompt \/ prompt = close_prompt))
  /\ (stdin_open w = false ->
      exists t,
        main w
        = t ++ [Input close_prompt;
                Print [Txt (newline :: lit "Forcing terminal to stay open for 10 seconds...")];
                Sleep 10]).
Proof.
  pose proof (Ends.body_ends w (fun _ => True)
                (fun t => stdin_open w = true /\ exists t', t = t' ++ [Input exit_prompt])
                (fun _ _ => True)) as H.
  specialize (H (fun _ _ _ _ => I) (fun _ _ _ _ => I) (fun _ _ _ _ _ _ => I)
                (fun _ _ _ _ => I)).
  specialize (H (fun t _ E => conj E (ex_intro _ t eq_refl))
                (fun _ _ _ => I) (fun _ _ _ => I) (fun _ _ _ => I) (fun _ _ _ => I)
                banner I).
  unfold main.
  destruct (body w banner) as [[[]| |e] t].
  - destruct (Ends.closing_ends w t) as [[E ->] | [E ->]]; split; intros E'; try congruence.
    + eexists. exists close_prompt. split; [reflexivity | now right].
    + eexists. reflexivity.
  - destruct H as (E & t' & ->). split; intros E'; [|congruence].
    exists t', exit_prompt. split; [reflexivity | now left].
  - destruct (Ends.closing_ends w (t ++ handler e)) as [[E ->] | [E ->]];
      split; intros E'; try congruence.
    + eexists. exists close_prompt. split; [reflexivity | now right].
    + eexists. reflexivity.
Qed.

Lemma run_ends_waiting_witness :
  exists t,
    main Situation.no_twine
    = t ++ [Input close_prompt;
            Print [Txt (newline :: lit "Forcing terminal to stay open for 10 seconds...")];
            Sleep 10].
Proof.
  destruct (run_ends_waiting Situation.no_twine) as [_ H]. apply H. reflexivity.
Defined.

(** X11. A child process that cannot be started ends the run: it is the last
    one, every child process before it could be started, the handler of
    [main] reports the exception, and only prints, prompts and the pause
    follow. *)
Theorem failed_start_ends_the_run (w : world) (argv : list str) :
  In argv (spawned (main w)) ->
  run w argv = CannotStart ->
  exists t tail,
    main w = t ++ Spawn argv :: handler (SpawnError argv) ++ tail
    /\ all_started w t
    /\ Forall Flow.harmless tail.
Proof.
  intros Hin Hrun.
  assert (H0 : all_started w banner) by (intros a []).
  pose proof (Ends.body_started w banner H0) as H.
  unfold main in *.
  destruct (body w banner) as [[[]| |e] t].
  - destruct (Flow.closing_shape w t) as (tail & E & Htail). rewrite E in Hin.
    destruct (Ends.all_started_harmless w tail t Htail H argv Hin Hrun).
  - destruct (H argv Hin Hrun).
  - destruct (Flow.closing_shape w (t ++ handler e)) as (tail & E & Htail).
    rewrite E in *. clear E.
    assert (Hh : Forall Flow.harmless (handler e ++ tail)).
    { apply Forall_app. split; [repeat constructor | assumption]. }
    rewrite <- app_assoc in Hin.
    destruct e as [patch|n|repl|argv'|];
      try (destruct (Ends.all_started_harmless w _ t Hh H argv Hin Hrun)).
    destruct H as (Hrun' & t' & -> & Ht').
    exists t', tail. split; [|split; assumption].
    rewrite <- !app_assoc. cbn [app].
    enough (argv = argv') as -> by reflexivity.
    rewrite <- app_assoc in Hin. rewrite Flow.spawned_app in Hin.
    apply in_app_or in Hin. destruct Hin as [Hin|Hin].
    + destruct (Ht' argv Hin Hrun).
    + change ([Spawn argv'] ++ handler (SpawnError argv') ++ tail)
        with (Spawn argv' :: handler (SpawnError argv') ++ tail) in Hin.
      cbn [spawned flat_map app] in Hin. destruct Hin as [<-|Hin]; [reflexivity|].
      fold (spawned (handler (SpawnError argv') ++ tail)) in Hin.
      rewrite (Flow.harmless_spawned _ Hh) in Hin. destruct Hin.
Qed.

Lemma failed_start_ends_the_run_witness :
  exists t tail,
    main Situation.no_twine
    = t ++ Spawn (upload_argv (lit "pypi-0123"))
        :: handler (SpawnError (upload_argv (lit "pypi-0123"))) ++ tail
    /\ all_started Situation.no_twine t
    /\ Forall Flow.harmless tail.
Proof.
  apply (failed_start_ends_the_run Situation.no_twine (upload_argv (lit "pypi-0123"))).
  - vm_compute. tauto.
  - reflexivity.
Defined.

(** ** The failure branches after the rewrite *)

(** X12. When the build exits with a status other than zero, the run shows
    the error stream of the build after its diagnostic, and the child
    processes of the run are the removals and the build, nothing else. *)
Theorem build_failure_is_reported (w : world) (content new_version new_content : str)
    (f : Re.found) (rc : Z) (err : str) :
  pyproject_toml w = Some content ->
  Re.search version_search content = Some f ->
  increment (Re.group1 f) = Bumped new_version ->
  Re.sub version_assign (assignment new_version) content = Some new_content ->
  removals_start w ->
  run w (build_argv w) = Completed rc err ->
  rc <> 0 ->
  In (Print [Txt (lit "❌ Build failed: "); Txt err]) (main w)
  /\ spawned (main w) = removals w ++ [build_argv w].
Proof.
  intros Hm Hs Hi Hsub Hrm Hb Hrc.
  destruct (Straight.stopped w _ _ _ _ (Print [Txt (lit "❌ Build failed: "); Txt err])
              (Straight.body_build_fails w content new_version new_content f
                 Hm Hs Hi Hsub Hrm rc err Hb Hrc)) as [H1 H2]; [now left|].
  split; [exact H1 | exact H2].
Qed.

Lemma build_failure_is_reported_witness :
  In (Print [Txt (lit "❌ Build failed: "); Txt (lit "build: error")])
    (main Scenario.build_fails)
  /\ spawned (main Scenario.build_fails)
     = removals Scenario.build_fails ++ [build_argv Scenario.build_fails].
Proof.
  apply (build_failure_is_reported Scenario.build_fails (Scenario.project (lit "1.2.3"))
           (lit "1.2.4") (Scenario.project (lit "1.2.4"))
           (Scenario.project_match (lit "1.2.3")) 1 (lit "build: error")).
  - reflexivity.
  - vm_compute. reflexivity.
  - vm_compute. reflexivity.
  - vm_compute. reflexivity.
  - intros folder _ _. unfold run, Scenario.build_fails, Scenario.desk.
    destruct (Scenario.same _ _); [discriminate|].
    destruct (is_upload _); discriminate.
  - vm_compute. reflexivity.
  - discriminate.
Defined.

(** X13. Without a secrets file the run builds the package, prints its
    diagnostic and stops: the child processes are the removals and the
    build. *)
Theorem missing_secrets_file_is_reported (w : world)
    (content new_version new_content : str) (f : Re.found) (err : str) :
  pyproject_toml w = Some content ->
  Re.search version_search content = Some f ->
  increment (Re.group1 f) = Bumped new_version ->
  Re.sub version_assign (assignment new_version) content = Some new_content ->
  removals_start w ->
  run w (build_argv w) = Completed 0 err ->
  dot_env w = None ->
  In (Print [Txt (lit "❌ Error: .env file not found!")]) (main w)
  /\ spawned (main w) = removals w ++ [build_argv w].
Proof.
  intros Hm Hs Hi Hsub Hrm Hb Henv.
  destruct (Straight.stopped w _ _ _ _ (Print [Txt (lit "❌ Error: .env file not found!")])
              (Straight.body_no_secrets w content new_version new_content f
                 Hm Hs Hi Hsub Hrm err Hb Henv)) as [H1 H2]; [right; now left|].
  split; [exact H1 | exact H2].
Qed.

Lemma missing_secrets_file_is_reported_witness :
  In (Print [Txt (lit "❌ Error: .env file not found!")]) (main Situation.no_secrets)
  /\ spawned (main Situation.no_secrets)
     = removals Situation.no_secrets ++ [build_argv Situation.no_secrets].
Proof.
  apply (missing_secrets_file_is_reported Situation.no_secrets
           (Scenario.project (lit "1.2.3")) (lit "1.2.4") (Scenario.project (lit "1.2.4"))
           (Scenario.project_match (lit "1.2.3")) (lit "build: error")).
  - reflexivity.
  - vm_compute. reflexivity.
  - vm_compute. reflexivity.
  - vm_compute. reflexivity.
  - intros folder _ _. unfold run, Situation.no_secrets, Scenario.desk.
    destruct (Scenario.same _ _); [discriminate|].
    destruct (is_upload _); discriminate.
  - vm_compute. reflexivity.
  - reflexivity.
Defined.

(** X14. With a secrets file in which the token pattern matches nowhere, the
    run builds the package, prints its diagnostic and stops. *)
Theorem missing_token_is_reported (w : world)
    (content new_version new_content env : str) (f : Re.found) (err : str) :
  pyproject_toml w = Some content ->
  Re.search version_search content = Some f ->
  increment (Re.group1 f) = Bumped new_version ->
  Re.sub version_assign (assignment new_version) content = Some new_content ->
  removals_start w ->
  run w (build_argv w) = Completed 0 err ->
  dot_env w = Some env ->
  Re.search api_token env = None ->
  In (Print [Txt (lit "❌ Error: Could not find apiToken in .env!")]) (main w)
  /\ spawned (main w) = removals w ++ [build_argv w].
Proof.
  intros Hm Hs Hi Hsub Hrm Hb Henv Htok.
  destruct (Straight.stopped w _ _ _ _
              (Print [Txt (lit "❌ Error: Could not find apiToken in .env!")])
              (Straight.body_no_token w content new_version new_content f
                 Hm Hs Hi Hsub Hrm err env Hb Henv Htok)) as [H1 H2]; [right; now left|].
  split; [exact H1 | exact H2].
Qed.

Lemma missing_token_is_reported_witness :
  In (Print [Txt (lit "❌ Error: Could not find apiToken in .env!")])
    (main Scenario.no_token)
  /\ spawned (main Scenario.no_token)
     = removals Scenario.no_token ++ [build_argv Scenario.no_token].
Proof.
  apply (missing_token_is_reported Scenario.no_token (Scenario.project (lit "1.2.3"))
           (lit "1.2.4") (Scenario.project (lit "1.2.4")) (lit "user = someone")
           (Scenario.project_match (lit "1.2.3")) (lit "build: error")).
  - reflexivity.
  - vm_compute. reflexivity.
  - vm_compute. reflexivity.
  - vm_compute. reflexivity.
  - intros folder _ _. unfold run, Scenario.no_token, Scenario.desk.
    destruct (Scenario.same _ _); [discriminate|].
    destruct (is_upload _); discriminate.
  - vm_compute. reflexivity.
  - reflexivity.
  - vm_compute. reflexivity.
Defined.

(** X15. When the upload exits with a status other than zero, the run shows
    the error stream of the upload after its diagnostic; the child processes
    are the removals, the build and the upload, and the upgrade is not among
    them. *)
Theorem upload_failure_is_reported (w : world)
    (content new_version new_content env : str) (f token_match : Re.found)
    (err : str) (rc : Z) (err' : str) :
  pyproject_toml w = Some content ->
  Re.search version_search content = Some f ->
  increment (Re.group1 f) = Bumped new_version ->
  Re.sub version_assign (assignment new_version) content = Some new_content ->
  removals_start w ->
  run w (build_argv w) = Completed 0 err ->
  dot_env w = Some env ->
  Re.search api_token env = Some token_match ->
  run w (upload_argv (strip (Re.group1 token_match))) = Completed rc err' ->
  rc <> 0 ->
  In (Print [Txt (lit "❌ Upload failed: "); Txt err']) (main w)
  /\ spawned (main w)
     = removals w ++ [build_argv w; upload_argv (strip (Re.group1 token_match))].
Proof.
  intros Hm Hs Hi Hsub Hrm Hb Henv Htok Hu Hrc.
  destruct (Straight.stopped w _ _ _ _ (Print [Txt (lit "❌ Upload failed: "); Txt err'])
              (Straight.body_upload_fails w content new_version new_content f
                 Hm Hs Hi Hsub Hrm err env token_match rc err' Hb Henv Htok Hu Hrc))
    as [H1 H2]; [do 3 right; now left|].
  split; [exact H1 | exact H2].
Qed.

Lemma upload_failure_is_reported_witness :
  In (Print [Txt (lit "❌ Upload failed: "); Txt (lit "twine: error")])
    (main Scenario.upload_fails)
  /\ spawned (main Scenario.upload_fails)
     = removals Scenario.upload_fails
       ++ [build_argv Scenario.upload_fails; upload_argv (lit "pypi-0123")].
Proof.
  apply (upload_failure_is_reported Scenario.upload_fails (Scenario.project (lit "1.2.3"))
           (lit "1.2.4") (Scenario.project (lit "1.2.4")) Scenario.secrets
           (Scenario.project_match (lit "1.2.3")) Situation.secrets_match
           (lit "build: error") 1 (lit "twine: error")).
  - reflexivity.
  - vm_compute. reflexivity.
  - vm_compute. reflexivity.
  - vm_compute. reflexivity.
  - intros folder _ _. unfold run, Scenario.upload_fails, Scenario.desk.
    destruct (Scenario.same _ _); [discriminate|].
    destruct (is_upload _); discriminate.
  - vm_compute. reflexivity.
  - reflexivity.
  - vm_compute. reflexivity.
  - vm_compute. reflexivity.
  - discriminate.
Defined.

(** ** The search and the rewrite, once more *)

Module Shape.
Import Re Publish ReFacts Assignment.

(** *** What a successful attempt has read *)

Lemma greedy_inv {R} (k : cset) (s : str) (pos : nat)
    (cont : nat -> str -> option R) (r : R) :
  greedy k s pos cont = Some r ->
  exists run rest,
    s = run ++ rest
    /\ Forall (fun c => cset_mem k c = true) run
    /\ cont (pos + List.length run)%nat rest = Some r.
Proof.
  revert pos. induction s as [|c s IH]; intros pos; cbn [greedy].
  - intros H. exists [], []. cbn. rewrite Nat.add_0_r. auto.
  - destruct (cset_mem k c) eqn:Hc.
    + destruct (greedy k s (S pos) cont) as [x|] eqn:E.
      * intros [= ->]. destruct (IH _ E) as (run & rest & -> & Hrun & Hcont).
        exists (c :: run), rest. split; [reflexivity|]. split; [now constructor|].
        cbn [List.length]. now rewrite Nat.add_succ_r.
      * intros H. exists [], (c :: s). cbn. rewrite Nat.add_0_r. auto.
    + intros H. exists [], (c :: s). cbn. rewrite Nat.add_0_r. auto.
Qed.

Lemma one_inv {R} (k : cset) (s : str) (pos : nat)
    (cont : nat -> str -> option R) (r : R) :
  match_atom (k, One) s pos cont = Some r ->
  exists c s', s = c :: s' /\ cset_mem k c = true /\ cont (S pos) s' = Some r.
Proof.
  unfold match_atom. cbn [fst snd].
  destruct s as [|c s]; [discriminate|].
  destruct (cset_mem k c) eqn:Hc; [|discriminate].
  intros H. now exists c, s.
Qed.

Lemma plus_inv {R} (k : cset) (s : str) (pos : nat)
    (cont : nat -> str -> option R) (r : R) :
  match_atom (k, Plus) s pos cont = Some r ->
  exists run rest,
    s = run ++ rest
    /\ run <> []
    /\ Forall (fun c => cset_mem k c = true) run
    /\ cont (pos + List.length run)%nat rest = Some r.
Proof.
  unfold match_atom. cbn [fst snd].
  destruct s as [|c s]; [discriminate|].
  destruct (cset_mem k c) eqn:Hc; [|discriminate].
  intros H. destruct (greedy_inv _ _ _ _ _ H) as (run & rest & -> & Hrun & Hcont).
  exists (c :: run), rest. split; [reflexivity|]. split; [discriminate|].
  split; [now constructor|].
  cbn [List.length]. now rewrite Nat.add_succ_r.
Qed.

(** The literal characters at the head of a pattern. *)
Lemma chars_inv {R} (l : list ascii) (re : regex) (s : str) (pos : nat)
    (g : option (nat * nat))
    (cont : nat -> option (nat * nat) -> str -> option R) (r : R) :
  match_nodes (atoms (map (fun c => (Chr c, One)) l) ++ re) s pos g cont = Some r ->
  exists s', s = l ++ s' /\ match_nodes re s' (pos + List.length l)%nat g cont = Some r.
Proof.
  revert s pos. induction l as [|x l IH]; intros s pos.
  - cbn. rewrite Nat.add_0_r. intros H. now exists s.
  - cbn [map atoms app match_nodes]. intros H.
    destruct (one_inv _ _ _ _ _ H) as (c & s' & -> & Hc & Hcont).
    cbn [cset_mem] in Hc. apply Ascii.eqb_eq in Hc. subst c.
    destruct (IH _ _ Hcont) as (s'' & -> & Hrest).
    exists s''. split; [reflexivity|].
    cbn [List.length]. now rewrite Nat.add_succ_r.
Qed.

Lemma mem_in (c : ascii) (cs : list ascii) : mem c cs = true <-> In c cs.
Proof.
  unfold mem. rewrite existsb_exists. split.
  - intros (x & Hx & E). apply Ascii.eqb_eq in E. now subst.
  - intros H. exists c. split; [assumption | apply Ascii.eqb_refl].
Qed.

Lemma none_of (cs : list ascii) (l : str) :
  Forall (fun c => cset_mem (NoneOf cs) c = true) l <-> Forall (fun c => ~ In c cs) l.
Proof.
  split; apply Forall_impl; intros c; cbn [cset_mem]; rewrite <- mem_in;
    destruct (mem c cs); cbn [negb]; intuition congruence.
Qed.

(** A successful attempt of the version pattern has read an assignment. *)
Lemma version_match_shape (s : str) (h : hit) :
  match_here version_search s = Some h ->
  exists a v suf, s = a ++ suf /\ is_assignment a v.
Proof.
  unfold match_here, version_search, chars. intros H.
  apply chars_inv in H. destruct H as (s1 & -> & H).
  cbn [match_nodes] in H.
  apply greedy_inv in H. destruct H as (ws1 & s2 & -> & Hws1 & H).
  apply one_inv in H. destruct H as (e & s3 & -> & He & H).
  cbn [cset_mem] in He. apply Ascii.eqb_eq in He. subst e.
  apply greedy_inv in H. destruct H as (ws2 & s4 & -> & Hws2 & H).
  apply one_inv in H. destruct H as (q1 & s5 & -> & Hq1 & H).
  cbn [match_atoms] in H.
  apply plus_inv in H. destruct H as (v & s6 & -> & Hv & Hnq & H).
  apply one_inv in H. destruct H as (q2 & s7 & -> & Hq2 & H).
  cbn [cset_mem] in Hq1, Hq2. apply mem_in in Hq1, Hq2.
  exists (assignment_text ws1 ws2 q1 v q2), v, s7.
  split.
  - rewrite assignment_text_app. cbn [list_ascii_of_string lit app].
    repeat (rewrite <- ?app_assoc; cbn [app]). reflexivity.
  - exists ws1, ws2, q1, q2. repeat split; try assumption. now apply none_of.
Qed.

(** An assignment at the head is read by the version pattern, and the group
    is the version. *)
Lemma assignment_cut (pre a v suf : str) :
  is_assignment a v ->
  exists h,
    match_here version_search (a ++ suf) = Some h
    /\ cut pre (a ++ suf) h = Found pre a v suf.
Proof.
  intros (ws1 & ws2 & q1 & q2 & -> & H1 & H2 & Hq1 & Hq2 & Hv & Hnq).
  eexists. split.
  - now apply match_assignment.
  - apply cut_assignment.
Qed.

(** *** The first match *)

Lemma search_from_first (re : regex) (pre rest p : str) (h : hit) :
  unmatched re pre rest ->
  match_here re rest = Some h ->
  search_from re p (pre ++ rest) = Some (cut (p ++ pre) rest h).
Proof.
  revert p. induction pre as [|c pre IH]; intros p Hu Hh.
  - cbn [app]. rewrite app_nil_r.
    destruct rest as [|x rest]; cbn [search_from]; now rewrite Hh.
  - cbn [app search_from].
    rewrite (Hu [] c pre eq_refl).
    rewrite (IH (p ++ [c])); [now rewrite <- app_assoc | | assumption].
    now apply unmatched_tail in Hu.
Qed.

Lemma search_first (re : regex) (pre rest : str) (h : hit) :
  unmatched re pre rest ->
  match_here re rest = Some h ->
  search re (pre ++ rest) = Some (cut pre rest h).
Proof. intros Hu Hh. unfold search. now rewrite (search_from_first re pre rest [] h). Qed.

(** A match somewhere is found. *)
Lemma search_from_some (re : regex) (pre rest p : str) (h : hit) :
  match_here re rest = Some h ->
  exists f, search_from re p (pre ++ rest) = Some f.
Proof.
  revert p. induction pre as [|c pre IH]; intros p Hh.
  - cbn [app]. destruct rest as [|x rest]; cbn [search_from]; rewrite Hh; eauto.
  - cbn [app search_from].
    destruct (match_here re (c :: pre ++ rest)); [eauto|]. now apply IH.
Qed.

(** What [re.search] finds in the manifest, in full. *)
Lemma version_found (content : str) (f : found) :
  search version_search content = Some f ->
  exists a v suf,
    content = before f ++ a ++ suf
    /\ unmatched version_search (before f) (a ++ suf)
    /\ is_assignment a v
    /\ f = Found (before f) a v suf.
Proof.
  intros Hs.
  destruct (search_spec _ _ _ Hs) as (rest & h & E & Hu & Hh & Hf).
  destruct (version_match_shape _ _ Hh) as (a & v & suf & -> & Ha).
  destruct (assignment_cut (before f) a v suf Ha) as (h' & Hh' & Hcut).
  rewrite Hh in Hh'. injection Hh' as <-.
  exists a, v, suf. repeat split; try assumption. now rewrite <- Hcut.
Qed.

(** *** Lists cut in two ways *)

Lemma app_eq_shorter {X} (a b c d : list X) :
  a ++ b = c ++ d -> (List.length c < List.length a)%nat ->
  exists x m, a = c ++ x :: m /\ d = x :: m ++ b.
Proof.
  revert c. induction a as [|x a IH]; intros c E Hl; [cbn in Hl; lia|].
  destruct c as [|y c].
  - cbn in E. subst d. now exists x, a.
  - cbn in E. injection E as <- E. cbn in Hl.
    destruct (IH c E) as (z & m & -> & ->); [lia|].
    now exists z, m.
Qed.

Lemma app_eq_longer {X} (a b c d : list X) :
  a ++ b = c ++ d -> (List.length a <= List.length c)%nat ->
  exists m, c = a ++ m /\ b = m ++ d.
Proof.
  revert c. induction a as [|x a IH]; intros c E Hl.
  - exists c. now split.
  - destruct c as [|y c]; [cbn in Hl; lia|].
    cbn in E. injection E as <- E. cbn in Hl.
    destruct (IH c E) as (m & -> & ->); [lia|]. now exists m.
Qed.

(** The first element with a property, if any. *)
Lemma first_such {X} (P : X -> Prop) (dec : forall x, {P x} + {~ P x}) (l : list X) :
  Forall (fun x => ~ P x) l
  \/ exists a q b, l = a ++ q :: b /\ Forall (fun x => ~ P x) a /\ P q.
Proof.
  induction l as [|x l IH]; [left; constructor|].
  destruct (dec x) as [Hx|Hx].
  - right. exists [], x, l. repeat split; [constructor | assumption].
  - destruct IH as [IH | (a & q & b & -> & Ha & Hq)].
    + left. now constructor.
    + right. exists (x :: a), q, b. repeat split; [now constructor | assumption].
Qed.

Lemma first_unique {X} (P : X -> Prop) (a u x y : list X) (q r : X) :
  a ++ q :: x = u ++ r :: y ->
  Forall (fun c => ~ P c) a -> P q ->
  Forall (fun c => ~ P c) u -> P r ->
  a = u /\ q = r /\ x = y.
Proof.
  revert u. induction a as [|c a IH]; intros u E Ha Hq Hu Hr.
  - destruct u as [|d u].
    + cbn in E. now injection E as <- <-.
    + cbn in E. injection E as <- E. inversion Hu; subst. contradiction.
  - destruct u as [|d u].
    + cbn in E. injection E as -> E. inversion Ha; subst. contradiction.
    + cbn in E. injection E as <- E.
      inversion Ha; subst. inversion Hu; subst.
      destruct (IH u E) as (-> & -> & ->); auto.
Qed.

(** *** The text up to the opening quote *)

Lemma assignment_opening (ws1 ws2 v : str) (q1 q2 : ascii) (suf : str) :
  assignment_text ws1 ws2 q1 v q2 ++ suf = opening ws1 ws2 q1 ++ v ++ q2 :: suf.
Proof.
  unfold assignment_text, opening.
  repeat (rewrite <- ?app_assoc; cbn [app]). reflexivity.
Qed.

Lemma space_is_no_quote (c : ascii) : is_space c = true -> ~ In c quotes.
Proof. intros Hs [<-|[<-|[]]]; discriminate Hs. Qed.

(** The letter that starts an assignment occurs nowhere else before the
    opening quote. *)
Lemma opening_has_one_v (ws1 ws2 : str) (q1 : ascii) :
  Forall (fun c => is_space c = true) ws1 ->
  Forall (fun c => is_space c = true) ws2 ->
  In q1 quotes ->
  ~ In "v"%char (lit "ersion" ++ ws1 ++ "="%char :: ws2 ++ [q1]).
Proof.
  intros H1 H2 Hq Hin.
  rewrite Forall_forall in H1, H2.
  repeat (rewrite ?in_app_iff in Hin; cbn [In lit list_ascii_of_string] in Hin).
  destruct Hin as [H|[H|[H|[H|[H|[]]]]]].
  - intuition discriminate.
  - specialize (H1 _ H). discriminate H1.
  - discriminate H.
  - specialize (H2 _ H). discriminate H2.
  - subst q1. destruct Hq as [H|[H|[]]]; discriminate H.
Qed.

(** Before its opening quote an assignment has no quote. *)
Lemma before_the_quote (ws1 ws2 : str) :
  Forall (fun c => is_space c = true) ws1 ->
  Forall (fun c => is_space c = true) ws2 ->
  Forall (fun c => ~ In c quotes) (lit "version" ++ ws1 ++ "="%char :: ws2).
Proof.
  intros H1 H2.
  apply Forall_app. split.
  { repeat constructor; intros [H|[H|[]]]; discriminate H. }
  apply Forall_app. split.
  { eapply Forall_impl; [|exact H1]. apply space_is_no_quote. }
  constructor.
  { intros [H|[H|[]]]; discriminate H. }
  eapply Forall_impl; [|exact H2]. apply space_is_no_quote.
Qed.

Lemma quote_dec (c : ascii) : {In c quotes} + {~ In c quotes}.
Proof. apply in_dec, ascii_dec. Qed.

(** An attempt that starts before an assignment and succeeds when the
    assignment is [a'] also succeeds when it is [a]: it has either ended
    before the assignment, or it runs into the quote that opens the version. *)
Lemma attempt_transfers (t a suf a' suf' v v' b u z : str) :
  t <> [] ->
  is_assignment a v ->
  is_assignment a' v' ->
  is_assignment b u ->
  t ++ a' ++ suf' = b ++ z ->
  exists b2 u2 z2, t ++ a ++ suf = b2 ++ z2 /\ is_assignment b2 u2.
Proof.
  intros Ht (ws1 & ws2 & q1 & q2 & -> & H1 & H2 & Hq1 & Hq2 & Hv & Hnq)
    (ws1' & ws2' & q1' & q2' & -> & H1' & H2' & Hq1' & Hq2' & Hv' & Hnq')
    (x1 & x2 & r1 & r2 & -> & Hx1 & Hx2 & Hr1 & Hr2 & Hu & Hnu) E.
  rewrite !assignment_opening in E. symmetry in E.
  destruct (Nat.le_gt_cases (List.length (opening x1 x2 r1)) (List.length t)) as [Hle|Hgt].
  - destruct (app_eq_longer _ _ _ _ E Hle) as (t2 & -> & E2).
    destruct (first_such (fun c => In c quotes) quote_dec t2)
      as [Hplain | (p & q & rest & -> & Hp & Hq)].
    + (* the attempt reads on into the assignment *)
      exists (assignment_text x1 x2 r1 (t2 ++ lit "version" ++ ws1 ++ "="%char :: ws2) q1),
        (t2 ++ lit "version" ++ ws1 ++ "="%char :: ws2), (v ++ q2 :: suf).
      split.
      * rewrite !assignment_opening. unfold opening.
        repeat (rewrite <- ?app_assoc; cbn [app]). reflexivity.
      * exists x1, x2, r1, q1. repeat split; try assumption.
        -- destruct t2; discriminate.
        -- apply Forall_app. split; [assumption | now apply before_the_quote].
    + (* the attempt has ended before the assignment *)
      rewrite <- !app_assoc in E2. cbn [app] in E2. symmetry in E2.
      destruct (first_unique (fun c => In c quotes) _ _ _ _ _ _ E2 Hp Hq Hnu Hr2)
        as (-> & -> & _).
      exists (assignment_text x1 x2 r1 u r2), u,
        (rest ++ assignment_text ws1 ws2 q1 v q2 ++ suf).
      split.
      * rewrite !assignment_opening. unfold opening.
        repeat (rewrite <- ?app_assoc; cbn [app]). reflexivity.
      * exists x1, x2, r1, r2. repeat split; assumption.
  - exfalso.
    destruct (app_eq_shorter _ _ _ _ E Hgt) as (x & m & Hhead & Hrest).
    unfold opening in Hrest.
    cbn [lit list_ascii_of_string app] in Hrest. injection Hrest as <- _.
    destruct t as [|c t]; [congruence|].
    unfold opening in Hhead. cbn [lit list_ascii_of_string app] in Hhead.
    injection Hhead as _ Hhead.
    apply (opening_has_one_v x1 x2 r1 Hx1 Hx2 Hr1).
    cbn [lit list_ascii_of_string app]. rewrite Hhead.
    apply in_or_app. right. now left.
Qed.

(** Replacing the first assignment by another leaves it the first. *)
Lemma still_unmatched (pre a suf a' suf' v v' : str) :
  is_assignment a v ->
  is_assignment a' v' ->
  unmatched version_search pre (a ++ suf) ->
  unmatched version_search pre (a' ++ suf').
Proof.
  intros Ha Ha' Hu p1 c p2 Hpre.
  destruct (match_here version_search (c :: p2 ++ a' ++ suf')) as [h|] eqn:Hh;
    [exfalso | reflexivity].
  destruct (version_match_shape _ _ Hh) as (b & u & z & E & Hb).
  destruct (attempt_transfers (c :: p2) a suf a' suf' v v' b u z) as (b2 & u2 & z2 & E2 & Hb2);
    [discriminate | assumption | assumption | assumption | exact E |].
  destruct (assignment_cut [] b2 u2 z2 Hb2) as (h2 & Hh2 & _).
  rewrite <- E2 in Hh2. cbn [app] in Hh2.
  rewrite (Hu p1 c p2 Hpre) in Hh2. discriminate Hh2.
Qed.

(** *** The new version *)

Lemma increment_not_empty (v new_version : str) :
  increment v = Bumped new_version -> new_version <> [].
Proof.
  unfold increment. fold dot.
  destruct (Py.split dot v) as [|major [|minor [|patch [|x l]]]]; try discriminate.
  destruct (Py.int patch) as [n|]; [|discriminate].
  destruct (Py.str_of_int (n + 1)); [|discriminate].
  intros [= <-]. unfold fmt. cbn [List.concat].
  destruct major; discriminate.
Qed.

Lemma increment_keeps_quotes_out (v new_version : str) :
  increment v = Bumped new_version ->
  Forall (fun c => ~ In c quotes) v ->
  Forall (fun c => ~ In c quotes) new_version.
Proof.
  intros Hi Hv. rewrite Forall_forall in *. intros c Hc.
  destruct (increment_chars v new_version c Hi Hc) as [H|[H|H]].
  - now apply Hv.
  - intros [<-|[<-|[]]]; discriminate H.
  - subst c. intros [H|[H|[]]]; discriminate H.
Qed.

(** What line 73 builds is an assignment. *)
Lemma assignment_is_assignment (new_version : str) :
  new_version <> [] ->
  Forall (fun c => ~ In c quotes) new_version ->
  is_assignment (assignment new_version) new_version.
Proof.
  intros Hn Hq. exists (lit " "), (lit " "), dquote, dquote.
  split.
  { unfold assignment, assignment_text, fmt. cbn [List.concat].
    repeat (rewrite <- ?app_assoc; cbn [app lit list_ascii_of_string]).
    rewrite ?List.app_nil_r. reflexivity. }
  repeat split; try assumption; try (repeat constructor); now left.
Qed.

Lemma assignment_plain (new_version : str) :
  ~ In backslash new_version -> ~ In backslash (assignment new_version).
Proof.
  intros Hn. unfold assignment, fmt. cbn [List.concat].
  repeat (rewrite ?in_app_iff; cbn [In lit list_ascii_of_string]).
  intuition discriminate.
Qed.

End Shape.

(** X16. For a manifest with a single version assignment, the file that the
    run writes is the manifest with that assignment replaced by the canonical
    one for the new version, every character before and after it kept.  The
    version must hold no backslash. *)
Theorem single_assignment_is_replaced_in_place (w : world) (content new_version : str)
    (f : Re.found) :
  pyproject_toml w = Some content ->
  Re.search version_search content = Some f ->
  Re.search version_search (Re.after f) = None ->
  ~ In backslash (Re.group1 f) ->
  increment (Re.group1 f) = Bumped new_version ->
  writes (main w) = [Re.before f ++ assignment new_version ++ Re.after f]
  /\ manifest_after w (main w)
     = Some (Re.before f ++ assignment new_version ++ Re.after f).
Proof.
  intros Hm Hs Hafter Hplain Hi.
  pose proof (single_assignment_rewrite content new_version f Hs Hafter
                (Assignment.increment_keeps_plain _ _ Hi Hplain)) as Hsub.
  pose proof (Steps.main_writes_once w content new_version _ f Hm Hs Hi Hsub) as Hw.
  split; [exact Hw|]. unfold manifest_after. now rewrite Hw.
Qed.

Lemma single_assignment_is_replaced_in_place_witness :
  writes (main Scenario.build_fails)
  = [Re.before (Scenario.project_match (lit "1.2.3")) ++ assignment (lit "1.2.4")
     ++ Re.after (Scenario.project_match (lit "1.2.3"))].
Proof.
  destruct (single_assignment_is_replaced_in_place Scenario.build_fails
              (Scenario.project (lit "1.2.3")) (lit "1.2.4")
              (Scenario.project_match (lit "1.2.3"))) as [H _].
  - reflexivity.
  - vm_compute. reflexivity.
  - vm_compute. reflexivity.
  - cbn. intuition discriminate.
  - vm_compute. reflexivity.
  - exact H.
Defined.

(** X17. The rewrite does not stop at the first assignment: when the search
    finds another assignment in the text after the first, that one is
    replaced by the new version as well. *)
Theorem later_assignments_are_overwritten (content new_version : str) (f f2 : Re.found) :
  Re.search version_search content = Some f ->
  Re.search version_search (Re.after f) = Some f2 ->
  ~ In backslash new_version ->
  exists rest,
    Re.sub version_assign (assignment new_version) content
    = Some (Re.before f ++ assignment new_version
            ++ Re.before f2 ++ assignment new_version ++ rest).
Proof.
  intros Hs Hs2 Hplain. unfold Re.sub.
  rewrite (ReFacts.parse_plain _ (Shape.assignment_plain _ Hplain)).
  rewrite (Assignment.sub_first_match content f _ Hs), ReFacts.expand_literals.
  rewrite (Assignment.sub_first_match (Re.after f) f2 _ Hs2), ReFacts.expand_literals.
  eexists. reflexivity.
Qed.

Lemma later_assignments_are_overwritten_witness :
  exists rest,
    Re.sub version_assign (assignment (lit "1.2.4")) Situation.pinned
    = Some (Re.before Situation.pinned_match ++ assignment (lit "1.2.4")
            ++ Re.before Situation.pinned_next ++ assignment (lit "1.2.4") ++ rest).
Proof.
  apply (later_assignments_are_overwritten Situation.pinned (lit "1.2.4")
           Situation.pinned_match Situation.pinned_next).
  - vm_compute. reflexivity.
  - vm_compute. reflexivity.
  - cbn. intuition discriminate.
Defined.

(** X18. What the search of line 49 finds is a version assignment, the first
    one of the manifest: the manifest is the text before it, the assignment
    and the text after it; group 1 is the version between the quotes, which
    is not empty and holds no quote; and no assignment starts further to the
    left.  The two quotes need not be of the same kind. *)
Theorem search_finds_the_first_assignment (content : str) (f : Re.found) :
  Re.search version_search content = Some f ->
  content = Re.before f ++ Re.matched f ++ Re.after f
  /\ is_assignment (Re.matched f) (Re.group1 f)
  /\ forall p a v s,
       content = p ++ a ++ s -> is_assignment a v ->
       (List.length (Re.before f) <= List.length p)%nat.
Proof.
  intros Hs.
  destruct (Shape.version_found content f Hs) as (a & v & suf & E & Hu & Ha & Hf).
  rewrite Hf at 2 3 4 5. cbn [Re.matched Re.group1 Re.after].
  split; [exact E|]. split; [exact Ha|].
  intros p a' v' s' E' Ha'.
  destruct (Nat.le_gt_cases (List.length (Re.before f)) (List.length p)) as [|Hlt];
    [assumption|].
  exfalso. rewrite E in E'.
  destruct (Shape.app_eq_shorter _ _ _ _ E' Hlt) as (x & m & Hb & Hrest).
  destruct (Shape.assignment_cut [] a' v' s' Ha') as (h & Hh & _).
  rewrite Hrest in Hh. rewrite (Hu p x m Hb) in Hh. discriminate Hh.
Qed.

Lemma search_finds_the_first_assignment_witness :
  is_assignment (lit "version = " ++ dquote :: lit "1.2.3" ++ [dquote]) (lit "1.2.3").
Proof.
  destruct (search_finds_the_first_assignment (Scenario.project (lit "1.2.3"))
              (Scenario.project_match (lit "1.2.3"))) as (_ & H & _).
  - vm_compute. reflexivity.
  - exact H.
Defined.

(** X19. The search of line 49 misses nothing: a manifest that holds a
    version assignment anywhere is not reported as lacking a version. *)
Theorem search_misses_no_assignment (p a v s : str) :
  is_assignment a v ->
  exists f, Re.search version_search (p ++ a ++ s) = Some f.
Proof.
  intros Ha.
  destruct (Shape.assignment_cut [] a v s Ha) as (h & Hh & _).
  now apply Shape.search_from_some with (h := h).
Qed.

Lemma search_misses_no_assignment_witness :
  exists f,
    Re.search version_search
      (lit "name = 'airobo'" ++ assignment_text [] [] squote (lit "0.1") dquote ++ [])
    = Some f.
Proof.
  apply (search_misses_no_assignment (lit "name = 'airobo'")
           (assignment_text [] [] squote (lit "0.1") dquote) (lit "0.1") []).
  exists [], [], squote, dquote. repeat split.
  - constructor.
  - constructor.
  - right. now left.
  - now left.
  - discriminate.
  - repeat constructor; cbn; intuition discriminate.
Defined.

(** X20. The next release starts from the version this one has written: in
    the rewritten manifest the search of line 49 finds the new assignment, at
    the place of the old one, and extracts the new version.  The version must
    hold no backslash, which the replacement template would interpret. *)
Theorem next_release_reads_the_new_version (content new_version new_content : str)
    (f : Re.found) :
  Re.search version_search content = Some f ->
  ~ In backslash (Re.group1 f) ->
  increment (Re.group1 f) = Bumped new_version ->
  Re.sub version_assign (assignment new_version) content = Some new_content ->
  exists f',
    Re.search version_search new_content = Some f'
    /\ Re.before f' = Re.before f
    /\ Re.matched f' = assignment new_version
    /\ Re.group1 f' = new_version.
Proof.
  intros Hs Hplain Hi Hsub.
  destruct (Shape.version_found content f Hs) as (a & v & suf & E & Hu & Ha & Hf).
  assert (Hg : Re.group1 f = v) by now rewrite Hf.
  rewrite Hg in *.
  assert (Hv : Forall (fun c => ~ In c quotes) v).
  { destruct Ha as (? & ? & ? & ? & _ & _ & _ & _ & _ & _ & H). exact H. }
  pose proof (Shape.increment_not_empty _ _ Hi) as Hne.
  pose proof (Shape.increment_keeps_quotes_out _ _ Hi Hv) as Hnq.
  pose proof (Shape.assignment_is_assignment _ Hne Hnq) as Hnew.
  pose proof (Assignment.increment_keeps_plain _ _ Hi Hplain) as Hnp.
  unfold Re.sub in Hsub.
  rewrite (ReFacts.parse_plain _ (Shape.assignment_plain _ Hnp)) in Hsub.
  assert (Hnc : new_content
                = Re.sub_loop version_assign (map Re.Literal (assignment new_version))
                    content 0) by congruence.
  rewrite Hnc, (Assignment.sub_first_match content f _ Hs), ReFacts.expand_literals.
  set (suf' := Re.sub_loop version_assign _ (Re.after f) 0).
  destruct (Shape.assignment_cut (Re.before f) (assignment new_version) new_version suf' Hnew)
    as (h & Hh & Hcut).
  exists (Re.Found (Re.before f) (assignment new_version) new_version suf').
  split; [|repeat split].
  rewrite <- Hcut. apply Shape.search_first; [|exact Hh].
  now apply (Shape.still_unmatched (Re.before f) a suf (assignment new_version) suf'
               v new_version).
Qed.

Lemma next_release_reads_the_new_version_witness :
  exists f',
    Re.search version_search (Scenario.project (lit "1.2.4")) = Some f'
    /\ Re.before f' = Re.before (Scenario.project_match (lit "1.2.3"))
    /\ Re.matched f' = assignment (lit "1.2.4")
    /\ Re.group1 f' = lit "1.2.4".
Proof.
  apply (next_release_reads_the_new_version (Scenario.project (lit "1.2.3")) (lit "1.2.4")
           (Scenario.project (lit "1.2.4")) (Scenario.project_match (lit "1.2.3"))).
  - vm_compute. reflexivity.
  - cbn. intuition discriminate.
  - vm_compute. reflexivity.
  - vm_compute. reflexivity.
Defined.

(** ** The credential *)

Module Token.
Import Re Publish ReFacts.

Lemma drop_spaces (ws s : str) :
  Forall (fun c => is_space c = true) ws ->
  drop_while is_space (ws ++ s) = drop_while is_space s.
Proof.
  induction 1 as [|c ws Hc _ IH]; [reflexivity|].
  cbn [app drop_while]. now rewrite Hc.
Qed.

Lemma drop_none (s : str) :
  is_space (hd " "%char s) = false -> drop_while is_space s = s.
Proof.
  destruct s as [|c s]; [reflexivity|]. cbn [hd drop_while]. now intros ->.
Qed.

Lemma hd_app (a b : str) (d : ascii) : a <> [] -> hd d (a ++ b) = hd d a.
Proof. destruct a; [congruence | reflexivity]. Qed.

Lemma hd_rev (s : str) (d : ascii) : hd d (rev s) = last s d.
Proof.
  induction s as [|c s IH]; [reflexivity|].
  cbn [rev]. destruct s as [|x s]; [reflexivity|].
  rewrite hd_app.
  - rewrite IH. reflexivity.
  - cbn [rev]. destruct (rev s); discriminate.
Qed.

(** [strip] takes the blanks off both ends. *)
Lemma strip_core (core trailing : str) :
  is_space (hd " "%char core) = false ->
  is_space (last core " "%char) = false ->
  Forall (fun c => is_space c = true) trailing ->
  strip (core ++ trailing) = core.
Proof.
  intros Hhd Hlast Htr. unfold strip.
  assert (Hne : core <> []) by (intros ->; discriminate Hhd).
  rewrite (drop_none (core ++ trailing)) by now rewrite hd_app.
  rewrite rev_app_distr, drop_spaces by now apply Forall_rev.
  rewrite (drop_none (rev core)) by now rewrite hd_rev.
  apply rev_involutive.
Qed.

(** The token pattern at the head of a token line. *)
Lemma match_token_line (ws1 ws2 core trailing rest : str) :
  Forall (fun c => is_space c = true) ws1 ->
  Forall (fun c => is_space c = true) ws2 ->
  is_space (hd " "%char core) = false ->
  ~ In newline core ->
  Forall (fun c => c <> newline) trailing ->
  line_ends rest ->
  match_here api_token
    (lit "apiToken" ++ ws1 ++ "="%char :: ws2 ++ core ++ trailing ++ rest)
  = Some (Hit (10 + List.length ws1 + List.length ws2 + List.length (core ++ trailing) - 1)
              (Some (9 + List.length ws1 + List.length ws2,
                     9 + List.length ws1 + List.length ws2
                     + List.length (core ++ trailing))%nat)).
Proof.
  intros H1 H2 Hhd Hnl Htr Hend.
  destruct core as [|c core]; [discriminate Hhd|].
  cbn [hd] in Hhd.
  assert (Hdot : forall x, x <> newline -> cset_mem Dot x = true).
  { intros x Hx. cbn [cset_mem]. now destruct (Ascii.eqb_spec x newline). }
  unfold match_here, api_token.
  cbn -[greedy mem].
  apply greedy_run; [exact H1 | reflexivity |].
  cbn -[greedy mem].
  apply greedy_run; [exact H2 | exact Hhd |].
  cbn -[greedy mem].
  assert (Hc : negb (Ascii.eqb c newline) = true).
  { apply (Hdot c). intros ->. apply Hnl. now left. }
  rewrite Hc, app_assoc.
  apply greedy_run.
  - apply Forall_app. split.
    + rewrite Forall_forall. intros x Hx. apply Hdot. intros ->. apply Hnl. now right.
    + eapply Forall_impl; [|exact Htr]. exact Hdot.
  - destruct rest as [|x rest]; [exact I|]. cbn in Hend. now subst x.
  - cbv beta. cbn [app List.length]. f_equal. f_equal; [lia|].
    f_equal. f_equal; lia.
Qed.

(** The group, cut out of the subject. *)
Lemma slice_at (p v r : str) (b e : nat) :
  b = List.length p -> e = (b + List.length v)%nat ->
  slice (p ++ v ++ r) (Some (b, e)) = v.
Proof.
  intros -> ->. cbn [slice].
  rewrite skipn_exact.
  replace (List.length p + List.length v - List.length p)%nat with (List.length v) by lia.
  apply firstn_exact.
Qed.

End Token.

(** X21. The credential is what follows the key and the equals sign on the
    first line that the token pattern matches, up to the end of that line,
    with the blanks at both ends taken off. *)
Theorem token_is_the_rest_of_the_line (pre l core rest : str) (f : Re.found) :
  token_line l core ->
  line_ends rest ->
  Re.search api_token (pre ++ l ++ rest) = Some f ->
  Re.before f = pre ->
  strip (Re.group1 f) = core.
Proof.
  intros (ws1 & ws2 & trailing & -> & H1 & H2 & Hhd & Hlast & Hnl & Htr) Hend Hs Hpre.
  destruct (ReFacts.search_spec _ _ _ Hs) as (rest0 & h & E & _ & Hh & Hf).
  rewrite Hpre in E, Hf. apply app_inv_head in E. subst rest0.
  assert (Htr1 : Forall (fun c => c <> newline) trailing).
  { eapply Forall_impl; [|exact Htr]. now intros c [_ Hc]. }
  assert (Htr2 : Forall (fun c => is_space c = true) trailing).
  { eapply Forall_impl; [|exact Htr]. now intros c [Hc _]. }
  replace ((lit "apiToken" ++ ws1 ++ "="%char :: ws2 ++ core ++ trailing) ++ rest)
    with (lit "apiToken" ++ ws1 ++ "="%char :: ws2 ++ core ++ trailing ++ rest) in Hh, Hf
    by (repeat (rewrite <- ?app_assoc; cbn [app]); reflexivity).
  rewrite (Token.match_token_line ws1 ws2 core trailing rest H1 H2 Hhd Hnl Htr1 Hend) in Hh.
  assert (Eh : h = Re.Hit (10 + List.length ws1 + List.length ws2
                           + List.length (core ++ trailing) - 1)
                          (Some (9 + List.length ws1 + List.length ws2,
                                 9 + List.length ws1 + List.length ws2
                                 + List.length (core ++ trailing))%nat))
    by congruence.
  rewrite Hf, Eh. unfold Re.cut. cbn [Re.hit_group Re.group1].
  replace (lit "apiToken" ++ ws1 ++ "="%char :: ws2 ++ core ++ trailing ++ rest)
    with ((lit "apiToken" ++ ws1 ++ "="%char :: ws2) ++ (core ++ trailing) ++ rest)
    by (repeat (rewrite <- ?app_assoc; cbn [app]); reflexivity).
  rewrite Token.slice_at.
  2:{ repeat (rewrite ?length_app; cbn [List.length]).
      change (List.length (lit "apiToken")) with 8%nat. lia. }
  2:{ reflexivity. }
  now apply Token.strip_core.
Qed.

Lemma token_is_the_rest_of_the_line_witness :
  strip (lit "pypi-0123  ") = lit "pypi-0123".
Proof.
  apply (token_is_the_rest_of_the_line (lit "user = someone" ++ [newline])
           (lit "apiToken = pypi-0123  ") (lit "pypi-0123") [newline]
           (Re.Found (lit "user = someone" ++ [newline]) (lit "apiToken = pypi-0123  ")
              (lit "pypi-0123  ") [newline])).
  - exists (lit " "), (lit " "), (lit "  "). repeat split.
    + repeat constructor.
    + repeat constructor.
    + cbn. intuition discriminate.
    + repeat constructor; discriminate.
  - reflexivity.
  - vm_compute. reflexivity.
  - reflexivity.
Defined.

(** ** Versions that are numbers *)

Module Numeric.
Import Publish Claimed Decimal.

Lemma digit_code (c : ascii) : is_digit c = true -> 48 <= code c <= 57.
Proof.
  unfold is_digit, between. rewrite andb_true_iff, !Z.leb_le. tauto.
Qed.

Lemma digit_is_no_blank (c : ascii) : is_digit c = true -> c_isspace c = false.
Proof.
  intros H. apply digit_code in H. unfold c_isspace, between.
  destruct (Z.leb_spec 9 (code c)), (Z.leb_spec (code c) 13), (Z.eqb_spec (code c) 32);
    cbn; try reflexivity; lia.
Qed.

Lemma digit_is_kept (c : ascii) : is_digit c = true -> Py.to_ascii_space c = c.
Proof.
  intros H. apply digit_code in H. unfold Py.to_ascii_space.
  destruct (Z.eqb_spec (code c) 133), (Z.eqb_spec (code c) 160); cbn; try reflexivity; lia.
Qed.

Lemma digits_are_kept (s : str) :
  forallb is_digit s = true -> map Py.to_ascii_space s = s.
Proof.
  induction s as [|c s IH]; [reflexivity|]. cbn [forallb map].
  rewrite andb_true_iff. intros [Hc Hs]. now rewrite digit_is_kept, IH.
Qed.

Lemma digits_are_digits (s : str) : forallb is_digit s = true -> filter is_digit s = s.
Proof.
  induction s as [|c s IH]; [reflexivity|]. cbn [forallb filter].
  rewrite andb_true_iff. intros [-> Hs]. now rewrite IH.
Qed.

(** The digit loop reads a run of digits to its end. *)
Lemma scan_all_digits (s : str) (st : Py.scan_state) (acc : Z) :
  forallb is_digit s = true ->
  s <> [] \/ st = Py.AfterDigit ->
  exists v, Py.scan_digits st acc s = Some (v, []).
Proof.
  revert st acc. induction s as [|c s IH]; intros st acc Hs Hne.
  - destruct Hne as [Hne| ->]; [congruence|]. now exists acc.
  - cbn [forallb] in Hs. apply andb_true_iff in Hs. destruct Hs as [Hc Hs].
    cbn [Py.scan_digits]. rewrite Hc.
    apply IH; [assumption | now right].
Qed.

(** [int] reads a non-empty run of digits that is not longer than the limit
    allows, as a number that is not negative and has no more digits than the
    run. *)
Lemma int_all_digits (s : str) :
  all_digits s = true ->
  (List.length s <= Py.max_str_digits)%nat ->
  exists n, Py.int s = Some n /\ 0 <= n < 10 ^ Z.of_nat (List.length s).
Proof.
  unfold all_digits. rewrite andb_true_iff. intros [Hne Hs] Hlen.
  destruct s as [|c s]; [discriminate Hne|]. clear Hne.
  pose proof Hs as Hcs. cbn [forallb] in Hcs. apply andb_true_iff in Hcs.
  destruct Hcs as [Hc _].
  unfold Py.int. rewrite (digits_are_kept _ Hs).
  cbn [drop_while]. rewrite (digit_is_no_blank c Hc).
  assert (Hplus : Ascii.eqb c "+" = false).
  { apply Ascii.eqb_neq. intros ->. discriminate Hc. }
  assert (Hminus : Ascii.eqb c "-" = false).
  { apply Ascii.eqb_neq. intros ->. discriminate Hc. }
  rewrite Hplus, Hminus.
  destruct (scan_all_digits (c :: s) Py.Start 0 Hs) as (v & Hscan);
    [left; discriminate |].
  rewrite Hscan. cbn [drop_while].
  apply IntFacts.scan_bound in Hscan; [|lia].
  rewrite (digits_are_digits _ Hs) in *.
  destruct (Nat.ltb_spec Py.max_str_digits (List.length (c :: s))) as [|_]; [lia|].
  exists (1 * v). split; [reflexivity | lia].
Qed.

Lemma digits_have_no_dot (s : str) : forallb is_digit s = true -> ~ In dot s.
Proof.
  intros Hs Hin. rewrite forallb_forall in Hs. specialize (Hs _ Hin). discriminate Hs.
Qed.

(** The decimal form of a positive number is a non-empty run of digits. *)
Lemma decimal_positive (n : Z) : 0 < n -> all_digits (Py.decimal n) = true.
Proof.
  intros Hn. destruct n as [|p|p]; try lia.
  unfold Py.decimal.
  change (lit (NilEmpty.string_of_int (Z.to_int (Z.pos p))))
    with (IntFacts.digits_of (Pos.to_uint p)).
  unfold all_digits. apply andb_true_iff. split.
  - destruct (IntFacts.digits_head _ (Unsigned.to_uint_nonnil p)) as (c & s & -> & _).
    reflexivity.
  - apply forallb_forall. apply Forall_forall. apply IntFacts.digits_of_chars.
Qed.

(** A component is shorter than the version it is part of. *)
Lemma third_component_length (v major minor patch : str) :
  Py.split dot v = [major; minor; patch] ->
  (List.length patch + 2 <= List.length v)%nat.
Proof.
  intros Hsplit. rewrite <- (join_split dot v), Hsplit.
  cbn [Py.join]. rewrite !length_app. cbn [List.length]. lia.
Qed.

End Numeric.

(** X22. Only a version of three components whose third [int] reads is
    incremented, and the result is always the first two components followed
    by the decimal form of the next number, which is within the limit on the
    digits of a conversion. *)
Theorem increment_only_bumps_three_components (v new_version : str) :
  increment v = Bumped new_version ->
  exists major minor patch n,
    v = Py.join [dot] [major; minor; patch]
    /\ ~ In dot major /\ ~ In dot minor /\ ~ In dot patch
    /\ Py.int patch = Some n
    /\ Z.abs (n + 1) < Py.limit
    /\ new_version = Py.join [dot] [major; minor; Py.decimal (n + 1)].
Proof.
  intros Hi.
  pose proof (join_split dot v) as Hj.
  pose proof (split_components dot v) as Hc.
  unfold increment in Hi. fold dot in Hi.
  destruct (Py.split dot v) as [|major [|minor [|patch [|x l]]]]; try discriminate.
  destruct (Py.int patch) as [n|] eqn:Hn; [|discriminate].
  destruct (Py.str_of_int (n + 1)) as [new_patch|] eqn:Es; [|discriminate].
  apply IntFacts.str_of_int_some in Es. destruct Es as [Hfit ->].
  injection Hi as <-.
  apply Forall_cons_iff in Hc. destruct Hc as [H1 Hc].
  apply Forall_cons_iff in Hc. destruct Hc as [H2 Hc].
  apply Forall_cons_iff in Hc. destruct Hc as [H3 _].
  exists major, minor, patch, n. repeat split; try assumption.
  - now rewrite Hj.
  - unfold fmt. cbn [List.concat Py.join]. now rewrite List.app_nil_r.
Qed.

Lemma increment_only_bumps_three_components_witness :
  exists major minor patch n,
    lit "1.2.3" = Py.join [dot] [major; minor; patch]
    /\ ~ In dot major /\ ~ In dot minor /\ ~ In dot patch
    /\ Py.int patch = Some n
    /\ Z.abs (n + 1) < Py.limit
    /\ lit "1.2.4" = Py.join [dot] [major; minor; Py.decimal (n + 1)].
Proof.
  apply (increment_only_bumps_three_components (lit "1.2.3") (lit "1.2.4")).
  reflexivity.
Defined.

(** X23. Every version of the numeric shape, three runs of digits separated
    by dots, that is no longer than the limit on the digits of a conversion
    is incremented, and the new version is of the numeric shape again. *)
Theorem numeric_versions_stay_numeric (v : str) :
  Claimed.numeric_shape v = true ->
  (List.length v <= Py.max_str_digits)%nat ->
  exists new_version,
    increment v = Bumped new_version /\ Claimed.numeric_shape new_version = true.
Proof.
  unfold Claimed.numeric_shape at 1.
  destruct (Py.split dot v) as [|major [|minor [|patch [|x l]]]] eqn:Hsplit; try discriminate.
  rewrite !andb_true_iff. intros [[Hmajor Hminor] Hpatch] Hlen.
  pose proof (Numeric.third_component_length v major minor patch Hsplit) as Hshort.
  destruct (Numeric.int_all_digits patch Hpatch ltac:(lia)) as (n & Hn & Hpos).
  assert (Hfit : n + 1 < Py.limit).
  { assert (Hpow : 10 * 10 ^ Z.of_nat (List.length patch) <= Py.limit).
    { unfold Py.limit.
      rewrite <- Z.pow_succ_r, <- Nat2Z.inj_succ by lia.
      apply Z.pow_le_mono_r; lia. }
    lia. }
  exists (Py.join [dot] [major; minor; Py.decimal (n + 1)]).
  split; [now apply increment_bumped with (patch := patch)|].
  pose proof (Numeric.decimal_positive (n + 1)) as Hnext.
  unfold Claimed.numeric_shape. rewrite split_three.
  - rewrite Hmajor, Hminor, Hnext; [reflexivity | lia].
  - apply Numeric.digits_have_no_dot.
    unfold Claimed.all_digits in Hmajor. now apply andb_true_iff in Hmajor.
  - apply Numeric.digits_have_no_dot.
    unfold Claimed.all_digits in Hminor. now apply andb_true_iff in Hminor.
  - apply Numeric.digits_have_no_dot.
    specialize (Hnext ltac:(lia)).
    unfold Claimed.all_digits in Hnext. now apply andb_true_iff in Hnext.
Qed.

Lemma numeric_versions_stay_numeric_witness :
  exists new_version,
    increment (lit "1.2.99") = Bumped new_version
    /\ Claimed.numeric_shape new_version = true.
Proof.
  apply (numeric_versions_stay_numeric (lit "1.2.99")).
  - reflexivity.
  - apply Nat.leb_le. vm_compute. reflexivity.
Defined.

(** X24. Release after release the third component counts up by one and the
    first two stay as they are: after [k] releases of a version with three
    components whose third reads as [n], the version is the same first two
    components followed by the decimal form of [n + k], as long as [n + k] is
    within the limit on the digits of a conversion. *)
Theorem releases_count_up (v major minor patch : str) (n : Z) (k : nat) :
  Py.split dot v = [major; minor; patch] ->
  Py.int patch = Some n ->
  (0 < k)%nat ->
  n + Z.of_nat k < Py.limit ->
  releases k v = Bumped (Py.join [dot] [major; minor; Py.decimal (n + Z.of_nat k)]).
Proof.
  intros Hsplit Hint Hk Hfit.
  pose proof (IntFacts.int_bound patch n Hint) as Hn.
  pose proof (split_components dot v) as Hc. rewrite Hsplit in Hc.
  apply Forall_cons_iff in Hc. destruct Hc as [Hmajor Hc].
  apply Forall_cons_iff in Hc. destruct Hc as [Hminor _].
  assert (Hdigits : forall m, ~ In dot (Py.decimal m)).
  { intros m Hin. pose proof (IntFacts.decimal_chars m) as Hd.
    rewrite Forall_forall in Hd. destruct (Hd _ Hin) as [H|H]; discriminate H. }
  destruct k as [|k]; [lia|]. clear Hk.
  induction k as [|k IH].
  - cbn [releases]. apply increment_bumped with (patch := patch); [assumption..|lia].
  - change (releases (S (S k)) v)
      with (match releases (S k) v with Bumped v' => increment v' | stop => stop end).
    rewrite IH by lia.
    replace (n + Z.of_nat (S (S k))) with (n + Z.of_nat (S k) + 1) by lia.
    apply (increment_bumped _ major minor (Py.decimal (n + Z.of_nat (S k)))
             (n + Z.of_nat (S k))).
    + now apply split_three.
    + apply IntFacts.int_decimal. lia.
    + lia.
Qed.

Lemma releases_count_up_witness :
  releases 3 (lit "1.2.008") = Bumped (lit "1.2.11").
Proof.
  apply (releases_count_up (lit "1.2.008") (lit "1") (lit "2") (lit "008") 8 3).
  - reflexivity.
  - reflexivity.
  - lia.
  - vm_compute. reflexivity.
Defined.

(** ** The converter, once more *)

Import Convert.

Module Settled.
Import Convert ConvertFacts.

Section Settled.
Context {raster : Type} `{Pillow raster}.

Lemma mode_prepare (img : image raster) (optimize_for : str) :
  mode (prepare img optimize_for) = lit "RGBA".
Proof.
  unfold prepare.
  set (img1 := if list_eq_dec ascii_dec (mode img) (lit "RGBA") then img
               else convert img (lit "RGBA")).
  assert (H1 : mode img1 = lit "RGBA").
  { subst img1. now destruct (list_eq_dec ascii_dec (mode img) (lit "RGBA")). }
  destruct (list_eq_dec ascii_dec optimize_for (lit "icon")); [|exact H1].
  destruct (Z.max (fst (size img1)) (snd (size img1)) >? max_size); [|exact H1].
  unfold thumbnail.
  destruct (preserve_aspect_ratio (max_size, max_size) (size img1)) as [sz|]; [|exact H1].
  destruct ((fst sz =? fst (size img1)) && (snd sz =? snd (size img1))); exact H1.
Qed.

(** The size of a prepared icon. *)
Lemma icon_size_cases (img : image raster) :
  0 < fst (size img) -> 0 < snd (size img) ->
  (Z.max (fst (size img)) (snd (size img)) <= max_size
   /\ size (prepare img (lit "icon")) = size img)
  \/ (max_size < Z.max (fst (size img)) (snd (size img))
      /\ exists w' h',
           size (prepare img (lit "icon")) = (w', h')
           /\ Z.max w' h' = max_size
           /\ 1 <= w' /\ 1 <= h'
           /\ Z.abs (w' * snd (size img) - h' * fst (size img))
              < Z.max (fst (size img)) (snd (size img))).
Proof.
  intros Hw Hh. rewrite size_prepare_icon.
  destruct (Z.gtb_spec (Z.max (fst (size img)) (snd (size img))) max_size) as [Hbig|Hsmall].
  - right. split; [assumption|].
    destruct (size img) as [w h]. cbn [fst snd] in *.
    destruct (thumbnail_size w h Hw Hh Hbig) as (w' & h' & -> & H1 & H2 & H3 & H4).
    now exists w', h'.
  - left. split; [assumption | reflexivity].
Qed.

End Settled.

Lemma bare_ampersand_app (a b : str) :
  Markup.bare_ampersand b = true -> Markup.bare_ampersand (a ++ b) = true.
Proof.
  intros Hb. induction a as [|x a IH]; [exact Hb|].
  cbn [app Markup.bare_ampersand].
  destruct (a ++ b) as [|y s] eqn:E.
  - destruct a; [|discriminate]. cbn in E. subst b. discriminate Hb.
  - rewrite IH. apply orb_true_r.
Qed.

End Settled.

(** X25. The payload of a document is plain base64: letters, digits, [+], [/]
    and the padding sign only, so no quote ends the attribute that holds it;
    and there are four characters for every three bytes of the image file,
    the last group filled up. *)
Theorem payload_is_plain_base64 {raster : Type} `{Pillow raster}
    (img : image raster) (name optimize_for : str) :
  Forall (fun c => In c Base64.alphabet \/ c = Base64.pad)
    (png_base64 (png_to_svg img name optimize_for))
  /\ ~ In dquote (png_base64 (png_to_svg img name optimize_for))
  /\ List.length (png_base64 (png_to_svg img name optimize_for))
     = (4 * ((List.length (save_png (prepare img optimize_for)) + 2) / 3))%nat.
Proof.
  unfold png_to_svg. cbn [png_base64].
  pose proof (Payload.b64encode_chars (save_png (prepare img optimize_for))) as Hc.
  split; [exact Hc|]. split; [|apply Payload.b64encode_length].
  intros Hin. rewrite Forall_forall in Hc.
  destruct (Hc _ Hin) as [Ha|Hp]; [|discriminate Hp].
  revert Ha. vm_compute. intuition discriminate.
Qed.

(** X26. The image that is embedded has four channels, and preparing it once
    more changes nothing: a document made from the embedded image of another
    carries the same image. *)
Theorem prepared_image_is_settled {raster : Type} `{Pillow raster}
    (img : image raster) (optimize_for : str) :
  0 < fst (size img) -> 0 < snd (size img) ->
  mode (prepare img optimize_for) = lit "RGBA"
  /\ prepare (prepare img optimize_for) optimize_for = prepare img optimize_for.
Proof.
  intros Hw Hh.
  pose proof (Settled.mode_prepare img optimize_for) as Hm.
  split; [exact Hm|].
  unfold prepare at 1. rewrite Hm.
  destruct (list_eq_dec ascii_dec (lit "RGBA") (lit "RGBA")) as [_|Hne]; [|now destruct Hne].
  destruct (list_eq_dec ascii_dec optimize_for (lit "icon")) as [->|]; [|reflexivity].
  destruct (Z.gtb_spec (Z.max (fst (size (prepare img (lit "icon"))))
                          (snd (size (prepare img (lit "icon"))))) max_size)
    as [Hbig|_]; [|reflexivity].
  exfalso.
  destruct (Settled.icon_size_cases img Hw Hh)
    as [[Hsmall E] | [_ (w' & h' & E & Hmax & _)]]; rewrite E in Hbig; cbn [fst snd] in Hbig; lia.
Qed.

Lemma prepared_image_is_settled_witness :
  mode (prepare (H := Scenario.header_only) Scenario.photo (lit "icon")) = lit "RGBA"
  /\ prepare (H := Scenario.header_only)
       (prepare (H := Scenario.header_only) Scenario.photo (lit "icon")) (lit "icon")
     = prepare (H := Scenario.header_only) Scenario.photo (lit "icon").
Proof.
  apply (prepared_image_is_settled (H := Scenario.header_only) Scenario.photo (lit "icon"));
    reflexivity.
Defined.

(** X27. An icon is never enlarged and never comes out larger than 512 by
    512: both declared sides are at least 1, at most 512 and at most the
    sides of the source. *)
Theorem icon_fits {raster : Type} `{Pillow raster} (img : image raster) (name : str) :
  0 < fst (size img) -> 0 < snd (size img) ->
  1 <= width (png_to_svg img name (lit "icon")) <= Z.min max_size (fst (size img))
  /\ 1 <= height (png_to_svg img name (lit "icon")) <= Z.min max_size (snd (size img)).
Proof.
  intros Hw Hh. unfold png_to_svg. cbn [width height].
  destruct (Settled.icon_size_cases img Hw Hh)
    as [[Hsmall ->] | [Hbig (w' & h' & -> & Hmax & Hw' & Hh' & Hratio)]].
  - lia.
  - cbn [fst snd]. unfold max_size in *.
    destruct (size img) as [w h]. cbn [fst snd] in *.
    assert (w' <= 512 /\ h' <= 512) as [Hw512 Hh512] by lia.
    assert (w' <= w /\ h' <= h); [|lia].
    destruct (Z.le_gt_cases h w) as [Hle|Hgt].
    + rewrite Z.max_l in * by assumption. split; [lia|]. nia.
    + rewrite Z.max_r in * by lia. split; [nia | lia].
Qed.

Lemma icon_fits_witness :
  1 <= width (png_to_svg (H := Scenario.header_only) Scenario.photo
                (lit "appIcon.png") (lit "icon")) <= Z.min max_size 1024
  /\ 1 <= height (png_to_svg (H := Scenario.header_only) Scenario.photo
                    (lit "appIcon.png") (lit "icon")) <= Z.min max_size 768.
Proof.
  apply (icon_fits (H := Scenario.header_only) Scenario.photo (lit "appIcon.png"));
    reflexivity.
Defined.

(** X28. Every document holds an ampersand followed by a blank: the title is
    written with the ampersand of line 47 as it stands, not as a character
    reference. *)
Theorem title_holds_a_bare_ampersand (d : svg) :
  Markup.bare_ampersand (svg_content d) = true.
Proof.
  unfold svg_content, fmt. cbn [List.concat].
  do 20 (apply Settled.bare_ampersand_app).
  reflexivity.
Qed.
